(** * The outbox event publisher (PrismaDomainEventPublisher)

    A shallow embedding of the outbox-pattern publisher of the student
    records module: the [outbox_events] table, the Prisma calls the publisher
    issues against it, the publisher's public methods and its background
    poller, followed by the properties of the specification that concern
    them. The student repository (PrismaStudentRepository) and the student
    specifications of the same module follow, each with its own conventions
    stated where it is defined.

    Conventions of the embedding.
    - Instants ([Date]) and durations are integers, in milliseconds. A method
      reads the clock once: the instant is its argument [now]; each
      resumption of a poll has its own instant.
    - A value thrown by JavaScript code is a [Thrown]: an [Error] object with
      its message, or some other value.
    - An [async] method is a computation over the state it touches that
      either resolves with a value or rejects with a [Thrown]. A public
      method runs as one step. The poll ([processOutboxEventsAsync]) runs in
      steps: a call takes the flag or returns at the guard, and the event
      loop resumes it when its [findMany] answers and after each row it
      dispatches, so that other calls interleave with it.
    - The database may fail at any call: the store carries a script of
      outcomes ([faults]) that the calls consume in order. A call that fails
      leaves the table as it was.
    - A delivery handler is given by its outcome on an event; it does not
      call back into the publisher.
    - Logging ([console.log], [console.error]) has no effect on the modelled
      state and is left out; [enableLogging] is kept in the configuration.
    - [getStatistics], which only reads the table and computes
      floating-point averages, is left out. *)

From Stdlib Require Import ZArith QArith String DecimalString List Bool Lia Sorting.Sorted.
From stdpp Require Import base option list sorting gmap strings.
Import ListNotations.

#[local] Open Scope string_scope.
#[local] Open Scope list_scope.
#[local] Open Scope Z_scope.

(* ===================================================================== *)
(** ** Thrown values and outcomes of asynchronous calls *)
(* ===================================================================== *)

Inductive Thrown : Type :=
| ErrorObj (message : string)   (* [error instanceof Error] *)
| NonError.                     (* anything else that was thrown *)

(** [error instanceof Error ? error.message : dflt] *)
Definition errorMessage (dflt : string) (error : Thrown) : string :=
  match error with
  | ErrorObj message => message
  | NonError => dflt
  end.

Inductive Outcome (A : Type) : Type :=
| Resolved (a : A)
| Rejected (error : Thrown).
Arguments Resolved {A} a.
Arguments Rejected {A} error.

(** State-and-rejection monad: a computation over a state of type [S]. The
    state reached before a rejection is kept (a rejected call does not undo
    what ran before it). *)
Definition St (S A : Type) : Type := S -> Outcome A * S.

#[global] Instance St_ret {S} : MRet (St S) :=
  fun A a s => (Resolved a, s).

#[global] Instance St_bind {S} : MBind (St S) :=
  fun A B k c s =>
    match c s with
    | (Resolved a, s') => k a s'
    | (Rejected error, s') => (Rejected error, s')
    end.

Definition throw {S A} (error : Thrown) : St S A :=
  fun s => (Rejected error, s).

(** [try { body } catch (error) { handler }] *)
Definition tryCatch {S A} (body : St S A) (handler : Thrown -> St S A) : St S A :=
  fun s =>
    match body s with
    | (Resolved a, s') => (Resolved a, s')
    | (Rejected error, s') => handler error s'
    end.

(** [try { body } finally { cleanup }], for a cleanup that cannot throw. *)
Definition tryFinally {S A} (body : St S A) (cleanup : S -> S) : St S A :=
  fun s => let '(o, s') := body s in (o, cleanup s').

(** A primitive step, given by its effect on the state. *)
Definition step {S A} (f : S -> Outcome A * S) : St S A := f.

Definition getState {S} : St S S := fun s => (Resolved s, s).
Definition modifyState {S} (f : S -> S) : St S unit := fun s => (Resolved tt, f s).

(* ===================================================================== *)
(** ** Data model *)
(* ===================================================================== *)

(** [DomainEvent] (shared base types). The payload is kept as its JSON text. *)
Record DomainEvent : Type := {
  ev_eventId : string;
  ev_eventType : string;
  ev_aggregateId : string;
  ev_aggregateType : string;
  ev_tenantId : string;
  ev_occurredOn : Z;
  ev_version : Z;
  ev_eventData : string
}.

(** [PublishOptions] of the port. [priority] and [metadata] are never read by
    the publisher and are left out. *)
Record RetryPolicy : Type := {
  rp_maxRetries : Z;
  rp_backoffMs : Z
}.

Record PublishOptions : Type := {
  immediate : option bool;
  retryPolicy : option RetryPolicy
}.

Record PublishDetails : Type := {
  storedInOutbox : bool;
  det_scheduledFor : Z
}.

Record PublishResult : Type := {
  success : bool;
  res_eventId : string;
  res_publishedAt : Z;
  error : option string;
  details : option PublishDetails
}.

Record BatchPublishResult : Type := {
  totalEvents : Z;
  successCount : Z;
  failureCount : Z;
  results : list PublishResult;
  processingTimeMs : Z
}.

Record PublisherConfig : Type := {
  cfg_maxRetries : Z;
  baseBackoffMs : Z;
  maxBackoffMs : Z;
  batchSize : nat;
  processingIntervalMs : Z;
  enableLogging : bool
}.

(** A row of the [outbox_events] table (model OutboxEvent of the schema). The
    primary key, a cuid in the schema, is a number drawn from a counter. *)
Record OutboxEvent : Type := {
  id : nat;
  eventId : string;
  eventType : string;
  aggregateId : string;
  tenantId : string;
  eventData : DomainEvent;
  published : bool;
  publishedAt : option Z;
  retryCount : Z;
  maxRetries : Z;
  lastError : option string;
  scheduledFor : Z;
  createdAt : Z;
  updatedAt : Z
}.

(** The [data] argument of [outboxEvent.create]. *)
Record CreateData : Type := {
  cd_eventId : string;
  cd_eventType : string;
  cd_aggregateId : string;
  cd_tenantId : string;
  cd_eventData : DomainEvent;
  cd_published : bool;
  cd_retryCount : Z;
  cd_maxRetries : Z;
  cd_scheduledFor : Z
}.

(** The [data] argument of [outboxEvent.update] and [updateMany]: the columns
    that are written; a column that is [None] keeps its value. *)
Record UpdateData : Type := {
  ud_published : option bool;
  ud_publishedAt : option (option Z);
  ud_retryCount : option Z;
  ud_scheduledFor : option Z;
  ud_lastError : option (option string)
}.

(** The row a [create] inserts: schema defaults for the columns not given. *)
Definition newRow (key : nat) (now : Z) (data : CreateData) : OutboxEvent :=
  {| id := key;
     eventId := cd_eventId data;
     eventType := cd_eventType data;
     aggregateId := cd_aggregateId data;
     tenantId := cd_tenantId data;
     eventData := cd_eventData data;
     published := cd_published data;
     publishedAt := None;
     retryCount := cd_retryCount data;
     maxRetries := cd_maxRetries data;
     lastError := None;
     scheduledFor := cd_scheduledFor data;
     createdAt := now;
     updatedAt := now |}.

(** A row after an update: the given columns are overwritten and [updatedAt]
    (an [@updatedAt] column) is set to the instant of the write. *)
Definition applyUpdate (now : Z) (data : UpdateData) (r : OutboxEvent) : OutboxEvent :=
  {| id := id r;
     eventId := eventId r;
     eventType := eventType r;
     aggregateId := aggregateId r;
     tenantId := tenantId r;
     eventData := eventData r;
     published := default (published r) (ud_published data);
     publishedAt := default (publishedAt r) (ud_publishedAt data);
     retryCount := default (retryCount r) (ud_retryCount data);
     maxRetries := maxRetries r;
     lastError := default (lastError r) (ud_lastError data);
     scheduledFor := default (scheduledFor r) (ud_scheduledFor data);
     createdAt := createdAt r;
     updatedAt := now |}.

(* ===================================================================== *)
(** ** The store: the table behind the Prisma client *)
(* ===================================================================== *)

Record Store : Type := {
  rows : list OutboxEvent;          (* the table, in insertion order *)
  nextId : nat;                     (* next primary key *)
  faults : list (option Thrown)     (* outcomes of the coming calls: [Some e]
                                       makes the call reject with [e] *)
}.

Definition setRows (rs : list OutboxEvent) (s : Store) : Store :=
  {| rows := rs; nextId := nextId s; faults := faults s |}.

Definition setFaults (fs : list (option Thrown)) (s : Store) : Store :=
  {| rows := rows s; nextId := nextId s; faults := fs |}.

Abbreviation Db := (St Store).

(** Every round trip to the database first consumes one entry of the fault
    script; an empty script means the database answers. *)
Definition roundTrip : Db unit :=
  fun s =>
    match faults s with
    | [] => (Resolved tt, s)
    | None :: fs => (Resolved tt, setFaults fs s)
    | Some error :: fs => (Rejected error, setFaults fs s)
    end.

Definition uniqueViolation : Thrown :=
  ErrorObj "Unique constraint failed on the fields: (`eventId`)".

Definition recordNotFound : Thrown :=
  ErrorObj "Record to update not found.".

(** The table after a write of [data] to the rows selected by [where_]. *)
Definition writeRows (now : Z) (where_ : OutboxEvent -> bool) (data : UpdateData)
    (rs : list OutboxEvent) : list OutboxEvent :=
  List.map (fun r => if where_ r then applyUpdate now data r else r) rs.

(** [where: { id }] *)
Definition hasId (key : nat) (r : OutboxEvent) : bool := Nat.eqb (id r) key.

Module outboxEvent.

(** [create({ data })]: [eventId] is [@unique]. *)
Definition create (now : Z) (data : CreateData) : Db OutboxEvent :=
  roundTrip ;;
  step (fun s =>
    if existsb (fun r => String.eqb (eventId r) (cd_eventId data)) (rows s)
    then (Rejected uniqueViolation, s)
    else
      let r := newRow (nextId s) now data in
      (Resolved r,
       {| rows := rows s ++ [r]; nextId := S (nextId s); faults := faults s |})).

(** [count({ where })] *)
Definition count (where_ : OutboxEvent -> bool) : Db Z :=
  roundTrip ;;
  step (fun s => (Resolved (Z.of_nat (length (List.filter where_ (rows s)))), s)).

(** [findMany({ where, orderBy, skip, take })]; [orderBy] is the order
    relation the result is sorted by (rows with equal keys come out in
    the order the sort leaves them). *)
Definition findMany (where_ : OutboxEvent -> bool)
    (orderBy : OutboxEvent -> OutboxEvent -> Prop)
    `{!forall x y, Decision (orderBy x y)}
    (skip take_ : nat) : Db (list OutboxEvent) :=
  roundTrip ;;
  step (fun s =>
    (Resolved (take take_ (drop skip (merge_sort orderBy (List.filter where_ (rows s))))), s)).

(** [findFirst({ where, orderBy })] *)
Definition findFirst (where_ : OutboxEvent -> bool)
    (orderBy : OutboxEvent -> OutboxEvent -> Prop)
    `{!forall x y, Decision (orderBy x y)} : Db (option OutboxEvent) :=
  roundTrip ;;
  step (fun s => (Resolved (head (merge_sort orderBy (List.filter where_ (rows s)))), s)).

(** [updateMany({ where, data })]: resolves with the number of rows
    written. *)
Definition updateMany (now : Z) (where_ : OutboxEvent -> bool) (data : UpdateData) : Db Z :=
  roundTrip ;;
  step (fun s =>
    (Resolved (Z.of_nat (length (List.filter where_ (rows s)))),
     setRows (writeRows now where_ data (rows s)) s)).

(** [update({ where: { id }, data })]: rejects when no row has the key. *)
Definition update (now : Z) (key : nat) (data : UpdateData) : Db unit :=
  roundTrip ;;
  step (fun s =>
    if existsb (hasId key) (rows s)
    then (Resolved tt, setRows (writeRows now (hasId key) data (rows s)) s)
    else (Rejected recordNotFound, s)).

(** [deleteMany({ where })]: resolves with the number of rows deleted. *)
Definition deleteMany (where_ : OutboxEvent -> bool) : Db Z :=
  roundTrip ;;
  step (fun s =>
    (Resolved (Z.of_nat (length (List.filter where_ (rows s)))),
     setRows (List.filter (fun r => negb (where_ r)) (rows s)) s)).

End outboxEvent.

(** Running a computation on a component of a larger state. *)
Definition zoom {S T A} (get : S -> T) (set : T -> S -> S) (c : St T A) : St S A :=
  fun s => let '(o, t) := c (get s) in (o, set t s).

(** [for (const x of xs) { await f(x) }] *)
Fixpoint forEach {S A} (xs : list A) (f : A -> St S unit) : St S unit :=
  match xs with
  | [] => mret tt
  | x :: rest => f x ;; forEach rest f
  end.

(** [prisma.$transaction(async (tx) => body)]: the callback runs against the
    transaction client; its writes are kept when the callback resolves and
    the commit goes through, and undone otherwise (the key counter and the
    consumed fault entries are not restored). The state [S] also holds what
    the callback closes over, which a rollback does not touch. *)
Definition transaction {S A} (getDb : S -> Store) (setDb : Store -> S -> S)
    (body : St S A) : St S A :=
  fun s =>
    match roundTrip (getDb s) with                               (* BEGIN *)
    | (Rejected error, d0) => (Rejected error, setDb d0 s)
    | (Resolved _, d0) =>
        match body (setDb d0 s) with
        | (Rejected error, s1) =>                                (* ROLLBACK *)
            (Rejected error, setDb (setRows (rows d0) (getDb s1)) s1)
        | (Resolved a, s1) =>
            match roundTrip (getDb s1) with                      (* COMMIT *)
            | (Rejected error, d2) => (Rejected error, setDb (setRows (rows d0) d2) s1)
            | (Resolved _, d2) => (Resolved a, setDb d2 s1)
            end
        end
    end.

(* ===================================================================== *)
(** ** The publisher *)
(* ===================================================================== *)

(** A delivery handler, [(event) => Promise<void>], by its outcome on an
    event: [None] when the promise resolves, [Some e] when it rejects. *)
Definition Handler : Type := DomainEvent -> option Thrown.

(** An invocation of [processOutboxEventsAsync], by the point it has
    reached. *)
Inductive Tick : Type :=
| TickSkipped                                (* returned at the guard *)
| TickQuery                                  (* holds the flag, awaiting [findMany] *)
| TickDispatch (pending : list OutboxEvent)  (* holds the flag, inside the loop:
                                                the rows still to dispatch *)
| TickDone.                                  (* went through [finally] *)

Definition tickActive (t : Tick) : bool :=
  match t with
  | TickQuery | TickDispatch _ => true
  | TickSkipped | TickDone => false
  end.

(** The state of one publisher instance together with its database. [ticks]
    lists the invocations of [processOutboxEventsAsync] made so far, in call
    order. *)
Record Publisher : Type := {
  prisma : Store;
  deliveryHandlers : gmap string Handler;
  isProcessing : bool;
  processingTimer : bool;          (* whether the interval timer is armed *)
  ticks : list Tick
}.

Definition setPrisma (d : Store) (p : Publisher) : Publisher :=
  {| prisma := d; deliveryHandlers := deliveryHandlers p; isProcessing := isProcessing p;
     processingTimer := processingTimer p; ticks := ticks p |}.

Definition setDeliveryHandlers (h : gmap string Handler) (p : Publisher) : Publisher :=
  {| prisma := prisma p; deliveryHandlers := h; isProcessing := isProcessing p;
     processingTimer := processingTimer p; ticks := ticks p |}.

Definition setIsProcessing (b : bool) (p : Publisher) : Publisher :=
  {| prisma := prisma p; deliveryHandlers := deliveryHandlers p; isProcessing := b;
     processingTimer := processingTimer p; ticks := ticks p |}.

Definition setProcessingTimer (b : bool) (p : Publisher) : Publisher :=
  {| prisma := prisma p; deliveryHandlers := deliveryHandlers p; isProcessing := isProcessing p;
     processingTimer := b; ticks := ticks p |}.

Definition setTicks (ts : list Tick) (p : Publisher) : Publisher :=
  {| prisma := prisma p; deliveryHandlers := deliveryHandlers p; isProcessing := isProcessing p;
     processingTimer := processingTimer p; ticks := ts |}.

Abbreviation Pub := (St Publisher).

(** A call on [this.prisma]. *)
Definition db {A} (c : Db A) : Pub A := zoom prisma setPrisma c.

(** The constructor's defaults and the merge [{ ...defaults, ...config }]. *)
Record PartialConfig : Type := {
  pc_maxRetries : option Z;
  pc_baseBackoffMs : option Z;
  pc_maxBackoffMs : option Z;
  pc_batchSize : option nat;
  pc_processingIntervalMs : option Z;
  pc_enableLogging : option bool
}.

Definition defaultConfig : PublisherConfig :=
  {| cfg_maxRetries := 3; baseBackoffMs := 1000; maxBackoffMs := 60000;
     batchSize := 50; processingIntervalMs := 5000; enableLogging := true |}.

Definition mergeConfig (config : option PartialConfig) : PublisherConfig :=
  match config with
  | None => defaultConfig
  | Some c =>
      {| cfg_maxRetries := default (cfg_maxRetries defaultConfig) (pc_maxRetries c);
         baseBackoffMs := default (baseBackoffMs defaultConfig) (pc_baseBackoffMs c);
         maxBackoffMs := default (maxBackoffMs defaultConfig) (pc_maxBackoffMs c);
         batchSize := default (batchSize defaultConfig) (pc_batchSize c);
         processingIntervalMs :=
           default (processingIntervalMs defaultConfig) (pc_processingIntervalMs c);
         enableLogging := default (enableLogging defaultConfig) (pc_enableLogging c) |}
  end.

(** [new PrismaDomainEventPublisher(prisma, config)] *)
Definition newPublisher (d : Store) : Publisher :=
  {| prisma := d; deliveryHandlers := ∅; isProcessing := false;
     processingTimer := false; ticks := [] |}.

(** [options?.immediate === false] *)
Definition immediateIsFalse (options : option PublishOptions) : bool :=
  match options with
  | Some o => match immediate o with Some false => true | _ => false end
  | None => false
  end.

(** [options?.retryPolicy?.maxRetries] and [options?.retryPolicy?.backoffMs] *)
Definition optMaxRetries (options : option PublishOptions) : option Z :=
  o ← options; rp ← retryPolicy o; Some (rp_maxRetries rp).

Definition optBackoffMs (options : option PublishOptions) : option Z :=
  o ← options; rp ← retryPolicy o; Some (rp_backoffMs rp).

(** [x || d] on numbers: [undefined] and [0] are falsy. *)
Definition orNumber (x : option Z) (d : Z) : Z :=
  match x with
  | Some v => if v =? 0 then d else v
  | None => d
  end.

(** The default handler only logs. *)
Definition defaultEventHandler : Handler := fun _ => None.

(** [await handler(event)] *)
Definition invokeHandler {S} (handler : Handler) (event : DomainEvent) : St S unit :=
  match handler event with
  | None => mret tt
  | Some error => throw error
  end.

(** [orderBy: { scheduledFor: 'asc' }] *)
Definition byScheduledForAsc (a b : OutboxEvent) : Prop := scheduledFor a <= scheduledFor b.

(** [orderBy: { updatedAt: 'desc' }] *)
Definition byUpdatedAtDesc (a b : OutboxEvent) : Prop := updatedAt b <= updatedAt a.

(** [orderBy: { publishedAt: 'desc' }] on a nullable column: the database
    (PostgreSQL) puts the rows without a value first in descending order. *)
Definition byPublishedAtDesc (a b : OutboxEvent) : Prop :=
  match publishedAt a, publishedAt b with
  | None, _ => True
  | Some _, None => False
  | Some x, Some y => y <= x
  end.

#[global] Instance byScheduledForAsc_dec x y : Decision (byScheduledForAsc x y).
Proof. unfold byScheduledForAsc. apply _. Defined.

#[global] Instance byUpdatedAtDesc_dec x y : Decision (byUpdatedAtDesc x y).
Proof. unfold byUpdatedAtDesc. apply _. Defined.

#[global] Instance byPublishedAtDesc_dec x y : Decision (byPublishedAtDesc x y).
Proof.
  unfold byPublishedAtDesc.
  destruct (publishedAt x), (publishedAt y); apply _.
Defined.

Section PrismaDomainEventPublisher.

(** [this.config]: fixed at construction. *)
Variable config : PublisherConfig.

(** *** The background processor *)

(** The delay before the next attempt of a row that failed with [r]
    earlier failures: [Math.min(baseBackoffMs * Math.pow(2, r), maxBackoffMs)].
    Retry counts are non-negative (a row starts at 0 and is only
    incremented or reset to 0). *)
Definition backoffDelay (r : Z) : Z :=
  Z.min (baseBackoffMs config * 2 ^ r) (maxBackoffMs config).

(** [processOutboxEvent(outboxEvent)]; [handlers] is [this.deliveryHandlers]
    at the time of the call. The handler runs as one step: it does not
    itself call the publisher. *)
Definition processOutboxEvent (handlers : gmap string Handler) (now : Z)
    (outboxEvent : OutboxEvent) : Db unit :=
  tryCatch
    (let event := eventData outboxEvent in
     (* Try to deliver the event *)
     let handler := default defaultEventHandler (handlers !! ev_eventType event) in
     invokeHandler handler event ;;
     (* Mark as published *)
     outboxEvent.update now (id outboxEvent)
       {| ud_published := Some true; ud_publishedAt := Some (Some now);
          ud_retryCount := None; ud_scheduledFor := None; ud_lastError := None |})
    (fun error =>
     (* Increment retry count and schedule for retry *)
     let nextRetryTime := now + backoffDelay (retryCount outboxEvent) in
     outboxEvent.update now (id outboxEvent)
       {| ud_published := None; ud_publishedAt := None;
          ud_retryCount := Some (retryCount outboxEvent + 1);
          ud_scheduledFor := Some nextRetryTime;
          ud_lastError := Some (Some (errorMessage "Unknown error" error)) |}).

(** The [where] of the poll:
    [published: false, scheduledFor: { lte: now }, retryCount: { lt: this.config.maxRetries }] *)
Definition pendingWhere (now : Z) (r : OutboxEvent) : bool :=
  negb (published r) && (scheduledFor r <=? now) && (retryCount r <? cfg_maxRetries config).

(** The [findMany] of [processOutboxEvents]. *)
Definition findPendingEvents (now : Z) : Db (list OutboxEvent) :=
  outboxEvent.findMany (pendingWhere now) byScheduledForAsc 0 (batchSize config).

(** [processOutboxEvents()], run without interruption. *)
Definition processOutboxEvents (handlers : gmap string Handler) (now : Z) : Db unit :=
  tryCatch
    (pendingEvents ← findPendingEvents now;
     if (length pendingEvents =? 0)%nat then mret tt
     else forEach pendingEvents (processOutboxEvent handlers now))
    (fun error => mret tt).

(** [processOutboxEventsAsync()], run without interruption. *)
Definition processOutboxEventsAsync (now : Z) : Pub unit :=
  p ← getState;
  if isProcessing p then mret tt      (* Already processing *)
  else
    modifyState (setIsProcessing true) ;;
    tryFinally (db (processOutboxEvents (deliveryHandlers p) now)) (setIsProcessing false).

(** A call [this.processOutboxEventsAsync()] that is not awaited (the
    timer callback and the immediate-processing triggers): the call runs up
    to its first suspension, that is the guard and the taking of the flag;
    the event loop resumes it later. *)
Definition spawnProcessOutboxEventsAsync : Pub unit :=
  modifyState (fun p =>
    if isProcessing p then setTicks (ticks p ++ [TickSkipped]) p
    else setTicks (ticks p ++ [TickQuery]) (setIsProcessing true p)).

(** The [finally] of invocation [i]. *)
Definition finishTick (i : nat) (p : Publisher) : Publisher :=
  setTicks (<[i := TickDone]> (ticks p)) (setIsProcessing false p).

(** The event loop resumes invocation [i] at instant [now], up to its next
    suspension: the [findMany] answers, or the next row of the loop is
    dispatched. A rejection inside [processOutboxEvents] is caught there
    and ends the invocation. *)
Definition resumeTick (i : nat) (now : Z) (p : Publisher) : Publisher :=
  match ticks p !! i with
  | Some TickQuery =>
      match findPendingEvents now (prisma p) with
      | (Resolved [], d) => finishTick i (setPrisma d p)
      | (Resolved pendingEvents, d) =>
          setTicks (<[i := TickDispatch pendingEvents]> (ticks p)) (setPrisma d p)
      | (Rejected _, d) => finishTick i (setPrisma d p)
      end
  | Some (TickDispatch []) => finishTick i p
  | Some (TickDispatch (outboxEvent :: rest)) =>
      match processOutboxEvent (deliveryHandlers p) now outboxEvent (prisma p) with
      | (Resolved _, d) =>
          match rest with
          | [] => finishTick i (setPrisma d p)
          | _ => setTicks (<[i := TickDispatch rest]> (ticks p)) (setPrisma d p)
          end
      | (Rejected _, d) => finishTick i (setPrisma d p)
      end
  | _ => p
  end.

(** *** Public methods *)

(** The row [publish], [publishBatch] and [scheduleEvent] insert. *)
Definition outboxData (event : DomainEvent) (options : option PublishOptions)
    (scheduledFor_ : Z) : CreateData :=
  {| cd_eventId := ev_eventId event;
     cd_eventType := ev_eventType event;
     cd_aggregateId := ev_aggregateId event;
     cd_tenantId := ev_tenantId event;
     cd_eventData := event;
     cd_published := false;
     cd_retryCount := 0;
     cd_maxRetries := orNumber (optMaxRetries options) (cfg_maxRetries config);
     cd_scheduledFor := scheduledFor_ |}.

(** [options?.immediate === false ? new Date(Date.now() + (backoffMs || 0)) : at] *)
Definition scheduleOf (options : option PublishOptions) (now at_ : Z) : Z :=
  if immediateIsFalse options then now + orNumber (optBackoffMs options) 0 else at_.

Definition publish (event : DomainEvent) (options : option PublishOptions) (now : Z)
    : Pub PublishResult :=
  tryCatch
    (let eventId_ := ev_eventId event in
     let publishedAt_ := now in
     (* Store event in outbox table for reliable delivery *)
     db (outboxEvent.create now (outboxData event options (scheduleOf options now publishedAt_))) ;;
     (* If immediate processing is requested, try to process now *)
     (if negb (immediateIsFalse options) then spawnProcessOutboxEventsAsync else mret tt) ;;
     mret {| success := true;
             res_eventId := eventId_;
             res_publishedAt := publishedAt_;
             error := None;
             details := Some {| storedInOutbox := true;
                                det_scheduledFor := scheduleOf options now publishedAt_ |} |})
    (fun error_ =>
     let errorMessage_ := errorMessage "Unknown error occurred" error_ in
     mret {| success := false;
             res_eventId := ev_eventId event;
             res_publishedAt := now;
             error := Some errorMessage_;
             details := None |}).

(** The variables [publishBatch] declares before its [try] and updates from
    inside the transaction callback. *)
Record BatchLocals : Type := {
  l_results : list PublishResult;
  l_successCount : Z;
  l_failureCount : Z
}.

Definition pushResult (r : PublishResult) (l : BatchLocals) : BatchLocals :=
  {| l_results := l_results l ++ [r];
     l_successCount := l_successCount l;
     l_failureCount := l_failureCount l |}.

Definition failedResult (event : DomainEvent) (now : Z) (message : string) : PublishResult :=
  {| success := false; res_eventId := ev_eventId event; res_publishedAt := now;
     error := Some message; details := None |}.

Definition storedResult (event : DomainEvent) (now : Z) : PublishResult :=
  {| success := true; res_eventId := ev_eventId event; res_publishedAt := now;
     error := None; details := None |}.

Definition locals {A} (c : St BatchLocals A) : St (BatchLocals * Publisher) A :=
  zoom fst (fun l s => (l, snd s)) c.

Definition this {A} (c : Pub A) : St (BatchLocals * Publisher) A :=
  zoom snd (fun p s => (fst s, p)) c.

(** The body of the loop of [publishBatch]: one insert in its own [try],
    and the entry it leaves in [results]. *)
Definition storeBatchEvent (options : option PublishOptions) (now : Z) (event : DomainEvent)
    : St (BatchLocals * Publisher) unit :=
  tryCatch
    (this (db (outboxEvent.create now
                 (outboxData event options (scheduleOf options now now)))) ;;
     locals (modifyState (fun l =>
       {| l_results := l_results l ++ [storedResult event now];
          l_successCount := l_successCount l + 1;
          l_failureCount := l_failureCount l |})))
    (fun error_ =>
     let errorMessage_ := errorMessage "Unknown error occurred" error_ in
     locals (modifyState (fun l =>
       {| l_results := l_results l ++ [failedResult event now errorMessage_];
          l_successCount := l_successCount l;
          l_failureCount := l_failureCount l + 1 |}))).

(** The callback of the transaction of [publishBatch]: the loop over the
    events. *)
Definition storeBatch (events : list DomainEvent) (options : option PublishOptions)
    (now : Z) : St (BatchLocals * Publisher) unit :=
  forEach events (storeBatchEvent options now).

(** [await this.prisma.$transaction(async (tx) => { ... })] *)
Definition batchTransaction (events : list DomainEvent) (options : option PublishOptions)
    (now : Z) : St (BatchLocals * Publisher) unit :=
  transaction (fun s => prisma (snd s)) (fun d s => (fst s, setPrisma d (snd s)))
    (storeBatch events options now).

Definition noLocals : BatchLocals :=
  {| l_results := []; l_successCount := 0; l_failureCount := 0 |}.

Definition publishBatch (events : list DomainEvent) (options : option PublishOptions)
    (now : Z) : Pub BatchPublishResult :=
  fun p =>
    let startTime := now in
    let body : St (BatchLocals * Publisher) unit :=
      tryCatch
        ((* Use a transaction to ensure all events are stored atomically *)
         batchTransaction events options now ;;
         (* Process events immediately if requested *)
         (if negb (immediateIsFalse options) then this spawnProcessOutboxEventsAsync
          else mret tt))
        (fun error_ =>
         (* If the transaction fails, mark all events as failed *)
         locals (modifyState (fun l =>
           {| l_results := l_results l;
              l_successCount := 0;
              l_failureCount := Z.of_nat (length events) |})) ;;
         let errorMessage_ := errorMessage "Transaction failed" error_ in
         forEach events (fun event =>
           locals (modifyState (pushResult (failedResult event now errorMessage_)))))
    in
    let '(_, (l, p')) := body (noLocals, p) in
    (Resolved {| totalEvents := Z.of_nat (length events);
                 successCount := l_successCount l;
                 failureCount := l_failureCount l;
                 results := l_results l;
                 processingTimeMs := now - startTime |}, p').

(** [publishAndWait]: publishes and reports no acknowledgments. *)
Definition publishAndWait (event : DomainEvent) (timeoutMs : Z)
    (options : option PublishOptions) (now : Z) : Pub (PublishResult * list string) :=
  result ← publish event options now;
  mret (result, []).

Definition scheduleEvent (event : DomainEvent) (scheduleTime : Z)
    (options : option PublishOptions) (now : Z) : Pub (PublishResult * Z) :=
  tryCatch
    (db (outboxEvent.create now (outboxData event options scheduleTime)) ;;
     mret ({| success := true; res_eventId := ev_eventId event; res_publishedAt := now;
              error := None; details := None |}, scheduleTime))
    (fun error_ =>
     let errorMessage_ := errorMessage "Unknown error occurred" error_ in
     mret ({| success := false; res_eventId := ev_eventId event; res_publishedAt := now;
              error := Some errorMessage_; details := None |}, scheduleTime)).

Record CancelResult : Type := {
  cancel_success : bool;
  cancel_error : option string
}.

(** The [where] of the cancellation: [{ eventId, published: false }] *)
Definition cancelWhere (eventId_ : string) (r : OutboxEvent) : bool :=
  String.eqb (eventId r) eventId_ && negb (published r).

Definition cancelScheduledEvent (eventId_ : string) : Pub CancelResult :=
  tryCatch
    (count ← db (outboxEvent.deleteMany (cancelWhere eventId_));
     let success_ := 0 <? count in
     mret {| cancel_success := success_;
             cancel_error := if success_ then None
                             else Some "Event not found or already published" |})
    (fun error_ =>
     let errorMessage_ := errorMessage "Unknown error occurred" error_ in
     mret {| cancel_success := false; cancel_error := Some errorMessage_ |}).

Inductive HealthDetails : Type :=
| HealthCounters (processingActive : bool) (totalRecentEvents failedRecentEvents : Z)
| HealthError (message : string).

(** The result of [healthCheck]; [errorRate], a floating-point percentage in
    the source, is a rational. *)
Record HealthStatus : Type := {
  healthy : bool;
  lastPublishTime : option Z;
  pendingEvents : Z;
  errorRate : Q;
  health_details : HealthDetails
}.

Definition healthCheck (now : Z) : Pub HealthStatus :=
  tryCatch
    ((* Count pending events *)
     pendingEvents_ ← db (outboxEvent.count
                            (fun r => negb (published r) && (scheduledFor r <=? now)));
     (* Get recent statistics *)
     let recentCutoff := now - 3600000 in
     totalRecent ← db (outboxEvent.count (fun r => recentCutoff <=? createdAt r));
     failedRecent ← db (outboxEvent.count
                          (fun r => (recentCutoff <=? createdAt r)
                                    && (cfg_maxRetries config <=? retryCount r)));
     lastPublished ← db (outboxEvent.findFirst (fun r => published r) byPublishedAtDesc);
     p ← getState;
     let errorRate_ : Q :=
       if 0 <? totalRecent
       then (inject_Z failedRecent / inject_Z totalRecent * inject_Z 100)%Q
       else inject_Z 0 in
     let healthy_ := negb (Qle_bool (inject_Z 10) errorRate_) && (pendingEvents_ <? 1000) in
     mret {| healthy := healthy_;
             lastPublishTime := r ← lastPublished; publishedAt r;
             pendingEvents := pendingEvents_;
             errorRate := errorRate_;
             health_details := HealthCounters (isProcessing p) totalRecent failedRecent |})
    (fun error_ =>
     mret {| healthy := false;
             lastPublishTime := None;
             pendingEvents := -1;
             errorRate := inject_Z (-1);
             health_details := HealthError (errorMessage "Unknown error" error_) |}).

Record FailedEvent : Type := {
  fe_event : DomainEvent;
  failureReason : string;
  failureTime : Z;
  fe_retryCount : Z
}.

(** The [where] of the failed events:
    [retryCount: { gte: this.config.maxRetries }, published: false] *)
Definition failedWhere (r : OutboxEvent) : bool :=
  (cfg_maxRetries config <=? retryCount r) && negb (published r).

(** [event.lastError || 'Unknown error']: the empty string is falsy. *)
Definition orString (x : option string) (d : string) : string :=
  match x with
  | Some s => if String.eqb s "" then d else s
  | None => d
  end.

Definition getFailedEvents (limit offset : nat) : Pub (list FailedEvent * Z) :=
  tryCatch
    (failedEvents ← db (outboxEvent.findMany failedWhere byUpdatedAtDesc offset limit);
     total ← db (outboxEvent.count failedWhere);
     let events :=
       List.map (fun event =>
                   {| fe_event := eventData event;
                      failureReason := orString (lastError event) "Unknown error";
                      failureTime := updatedAt event;
                      fe_retryCount := retryCount event |}) failedEvents in
     mret (events, total))
    (fun _ => mret ([], 0)).

(** The [whereClause] of [retryFailedEvents]:
    [published: false, retryCount: { lt: this.config.maxRetries }] and, when
    [eventIds] is given, [eventId: { in: eventIds }]. *)
Definition retryWhere (eventIds : option (list string)) (r : OutboxEvent) : bool :=
  negb (published r) && (retryCount r <? cfg_maxRetries config)
  && match eventIds with
     | Some ids => existsb (String.eqb (eventId r)) ids
     | None => true
     end.

Definition retryFailedEvents (eventIds : option (list string)) (now : Z)
    : Pub BatchPublishResult :=
  let startTime := now in
  tryCatch
    ((* Reset retry count and schedule for immediate processing *)
     count ← db (outboxEvent.updateMany now (retryWhere eventIds)
                   {| ud_published := None; ud_publishedAt := None;
                      ud_retryCount := Some 0;
                      ud_scheduledFor := Some now;
                      ud_lastError := Some None |});
     (* Trigger immediate processing *)
     spawnProcessOutboxEventsAsync ;;
     mret {| totalEvents := count; successCount := count; failureCount := 0;
             results := []; processingTimeMs := now - startTime |})
    (fun _ =>
     mret {| totalEvents := 0; successCount := 0; failureCount := 1;
             results := []; processingTimeMs := now - startTime |}).

(** [start()]: arms the interval timer unless it is armed already. *)
Definition start : Pub unit :=
  p ← getState;
  if processingTimer p then mret tt      (* Already started *)
  else modifyState (setProcessingTimer true).

(** [stop()]: disarms the timer; the method then waits for [isProcessing]
    to fall before it resolves. Only the disarming changes the state. *)
Definition stop : Pub unit :=
  modifyState (setProcessingTimer false).

Definition registerDeliveryHandler (eventType_ : string) (handler : Handler) : Pub unit :=
  modifyState (fun p => setDeliveryHandlers (<[eventType_ := handler]> (deliveryHandlers p)) p).

(** *** Runs of a publisher *)

(** What can happen to a publisher instance: calls of its public methods,
    the interval timer firing, and the event loop resuming a suspended
    invocation of [processOutboxEventsAsync]. *)
Inductive Action : Type :=
| DoPublish (event : DomainEvent) (options : option PublishOptions) (now : Z)
| DoPublishBatch (events : list DomainEvent) (options : option PublishOptions) (now : Z)
| DoPublishAndWait (event : DomainEvent) (timeoutMs : Z) (options : option PublishOptions)
                   (now : Z)
| DoScheduleEvent (event : DomainEvent) (scheduleTime : Z) (options : option PublishOptions)
                  (now : Z)
| DoCancelScheduledEvent (eventId_ : string)
| DoHealthCheck (now : Z)
| DoGetFailedEvents (limit offset : nat)
| DoRetryFailedEvents (eventIds : option (list string)) (now : Z)
| DoStart
| DoStop
| DoRegisterDeliveryHandler (eventType_ : string) (handler : Handler)
| TimerFires
| Resume (i : nat) (now : Z).

Definition exec (a : Action) (p : Publisher) : Publisher :=
  match a with
  | DoPublish event options now => snd (publish event options now p)
  | DoPublishBatch events options now => snd (publishBatch events options now p)
  | DoPublishAndWait event timeoutMs options now =>
      snd (publishAndWait event timeoutMs options now p)
  | DoScheduleEvent event scheduleTime options now =>
      snd (scheduleEvent event scheduleTime options now p)
  | DoCancelScheduledEvent eventId_ => snd (cancelScheduledEvent eventId_ p)
  | DoHealthCheck now => snd (healthCheck now p)
  | DoGetFailedEvents limit offset => snd (getFailedEvents limit offset p)
  | DoRetryFailedEvents eventIds now => snd (retryFailedEvents eventIds now p)
  | DoStart => snd (start p)
  | DoStop => snd (stop p)
  | DoRegisterDeliveryHandler eventType_ handler =>
      snd (registerDeliveryHandler eventType_ handler p)
  | TimerFires =>
      if processingTimer p then snd (spawnProcessOutboxEventsAsync p) else p
  | Resume i now => resumeTick i now p
  end.

Definition run (trace : list Action) (p : Publisher) : Publisher :=
  fold_left (fun q a => exec a q) trace p.

End PrismaDomainEventPublisher.

(* ===================================================================== *)
(** ** Notions used by the statements *)
(* ===================================================================== *)

(** The error the next call on the store rejects with, if it does. *)
Definition nextFault (s : Store) : option Thrown :=
  match faults s with
  | Some error :: _ => Some error
  | _ => None
  end.

(** The first rejection among the coming [n] calls on the store. *)
Fixpoint firstFault (n : nat) (fs : list (option Thrown)) : option Thrown :=
  match n, fs with
  | S n', None :: fs' => firstFault n' fs'
  | S _, Some error :: _ => Some error
  | _, _ => None
  end.

(** Sample data for the concrete runs. *)
Definition sampleEvent (name : string) : DomainEvent :=
  {| ev_eventId := name; ev_eventType := "student.enrolled"; ev_aggregateId := "student-1";
     ev_aggregateType := "Student"; ev_tenantId := "tenant-1"; ev_occurredOn := 0;
     ev_version := 1; ev_eventData := "{}" |}.

Definition emptyStore : Store := {| rows := []; nextId := 0; faults := [] |}.

Definition storeDown : Store :=
  {| rows := []; nextId := 0; faults := [Some (ErrorObj "Can't reach database server")] |}.

(** The retry ceiling of a stored row in the words of the specification:
    [options.retryPolicy.maxRetries] when the options give one, the
    configured default otherwise. *)
Definition ceilingAsSpecified (config : PublisherConfig) (options : option PublishOptions) : Z :=
  match optMaxRetries options with
  | Some m => m
  | None => cfg_maxRetries config
  end.

(** What the specification says of the ceiling of the row [publish] stores. *)
Definition publishStoresSpecifiedCeiling (config : PublisherConfig) (event : DomainEvent)
    (options : option PublishOptions) (now : Z) (p : Publisher) : Prop :=
  forall res p',
    publish config event options now p = (Resolved res, p') ->
    success res = true ->
    exists row,
      rows (prisma p') = rows (prisma p) ++ [row]
      /\ maxRetries row = ceilingAsSpecified config options.

Definition zeroRetries : option PublishOptions :=
  Some {| immediate := None;
          retryPolicy := Some {| rp_maxRetries := 0; rp_backoffMs := 0 |} |}.

(** The outcome of delivering an event with the handlers registered:
    [(this.deliveryHandlers.get(event.eventType) || this.defaultEventHandler)(event)]. *)
Definition deliveryOutcome (handlers : gmap string Handler) (event : DomainEvent)
    : option Thrown :=
  default defaultEventHandler (handlers !! ev_eventType event) event.

(** A table holding one row, as [publish] stores it. *)
Definition pendingRow : OutboxEvent :=
  newRow 0 100 (outboxData defaultConfig (sampleEvent "evt-1") None 100).

Definition oneRowStore : Store := {| rows := [pendingRow]; nextId := 1; faults := [] |}.

(** A handler that always rejects. *)
Definition failingHandler : Handler := fun _ => Some (ErrorObj "webhook unreachable").

(** A store whose transaction begins and takes one insert, and whose commit
    is refused. *)
Definition commitFails : Store :=
  {| rows := []; nextId := 0;
     faults := [None; None; Some (ErrorObj "Transaction already closed")] |}.

Definition oneRetry : option PublishOptions :=
  Some {| immediate := None;
          retryPolicy := Some {| rp_maxRetries := 1; rp_backoffMs := 0 |} |}.

(** An event published with [retryPolicy.maxRetries = 1] whose only handler
    rejects, after the poll that the publication triggered. *)
Definition afterOneFailure : Publisher :=
  run defaultConfig
    [DoRegisterDeliveryHandler "student.enrolled" failingHandler;
     DoPublish (sampleEvent "evt-1") oneRetry 100;
     Resume 0 100; Resume 0 100]
    (newPublisher emptyStore).

(** An event whose only handler rejects, after three polls five seconds
    apart. *)
Definition deadLettered : Publisher :=
  run defaultConfig
    [DoRegisterDeliveryHandler "student.enrolled" failingHandler;
     DoStart;
     DoPublish (sampleEvent "evt-1") None 0;
     Resume 0 0; Resume 0 0;
     TimerFires; Resume 1 5000; Resume 1 5000;
     TimerFires; Resume 2 10000; Resume 2 10000]
    (newPublisher emptyStore).

(** *** Invariants of a publisher and its table *)

(** A well-formed table: primary keys are unique and below the key counter,
    and every published row carries its [publishedAt]. *)
Definition wfStore (d : Store) : Prop :=
  List.NoDup (List.map id (rows d))
  /\ (forall r, In r (rows d) -> (id r < nextId d)%nat)
  /\ (forall r, In r (rows d) -> published r = true -> exists t, publishedAt r = Some t).

(** A change of the table that keeps it well formed and neither adds,
    removes nor alters a published row. *)
Definition quiet (d d' : Store) : Prop :=
  (nextId d <= nextId d')%nat
  /\ (wfStore d -> wfStore d')
  /\ (forall r, published r = true -> (In r (rows d) <-> In r (rows d'))).

(** The number of invocations of [processOutboxEventsAsync] in flight. *)
Definition activeTicks (p : Publisher) : nat :=
  length (List.filter tickActive (ticks p)).

(** The flag [isProcessing] is set exactly while one invocation is in
    flight, and no more than one ever is. *)
Definition singleFlight (p : Publisher) : Prop :=
  activeTicks p = if isProcessing p then 1%nat else 0%nat.

Definition notDispatching (t : Tick) : Prop :=
  match t with TickDispatch _ => False | _ => True end.

(** A change of the invocations that only adds new ones, none of them
    inside the loop yet, and keeps the single-flight discipline; when the
    flag is up it stays up and the new invocations are all skipped. *)
Definition onlySpawns (p p' : Publisher) : Prop :=
  (singleFlight p -> singleFlight p')
  /\ exists extra,
       ticks p' = ticks p ++ extra
       /\ Forall notDispatching extra
       /\ (isProcessing p = true ->
           isProcessing p' = true /\ Forall (fun t => t = TickSkipped) extra).

Definition calm (p p' : Publisher) : Prop :=
  quiet (prisma p) (prisma p') /\ onlySpawns p p'.

(** A computation whose every run is a calm change of the publisher found
    in its state. *)
Definition calmOn {S A} (proj : S -> Publisher) (c : St S A) : Prop :=
  forall s o s', c s = (o, s') -> calm (proj s) (proj s').

Definition quietDb {A} (c : Db A) : Prop :=
  forall s o s', c s = (o, s') -> quiet s s'.

(** The rows an invocation still holds for dispatch are pairwise distinct
    and none of them is published in the table. *)
Definition claimsUnpublished (p : Publisher) : Prop :=
  forall i pending,
    ticks p !! i = Some (TickDispatch pending) ->
    List.NoDup (List.map id pending)
    /\ forall q r, In q pending -> In r (rows (prisma p)) -> id r = id q ->
                   published r = false.

Definition invariant (p : Publisher) : Prop :=
  wfStore (prisma p) /\ singleFlight p /\ claimsUnpublished p.

(** An event published and delivered by the default handler, and what an
    operator may try on it afterwards. *)
Definition deliveredTrace : list Action :=
  [DoPublish (sampleEvent "evt-1") None 100; Resume 0 100; Resume 0 100].

Definition recoveryTrace : list Action :=
  [DoCancelScheduledEvent "evt-1"; DoRetryFailedEvents (Some ["evt-1"]) 300;
   Resume 1 300; DoStart; TimerFires; Resume 2 5300].


(** *** Notions used by the further properties *)

(** The row a dispatch of [q] writes: published when the delivery resolves,
    rescheduled with one more retry when it rejects. *)
Definition dispatched (config : PublisherConfig) (handlers : gmap string Handler) (now : Z)
    (q : OutboxEvent) : OutboxEvent :=
  match deliveryOutcome handlers (eventData q) with
  | None =>
      applyUpdate now
        {| ud_published := Some true; ud_publishedAt := Some (Some now);
           ud_retryCount := None; ud_scheduledFor := None; ud_lastError := None |} q
  | Some error =>
      applyUpdate now
        {| ud_published := None; ud_publishedAt := None;
           ud_retryCount := Some (retryCount q + 1);
           ud_scheduledFor := Some (now + backoffDelay config (retryCount q));
           ud_lastError := Some (Some (errorMessage "Unknown error" error)) |} q
  end.

(** A store whose next call fails and whose call after that answers. *)
Definition oneHiccup : Store :=
  {| rows := [pendingRow]; nextId := 1; faults := [Some (ErrorObj "Connection reset")] |}.

(** A store that answers the poll's query and fails on the call after it. *)
Definition failsAfterQuery : Store :=
  {| rows := [pendingRow]; nextId := 1; faults := [None; Some (ErrorObj "Connection reset")] |}.

(* ===================================================================== *)
(** ** The student repository *)
(* ===================================================================== *)

(** The [students] table and the methods of [PrismaStudentRepository] that
    write it or check it: [save], [delete], [isStudentNumberUnique] and
    [isNationalIdUnique], with the mappers [save] goes through.

    Conventions.
    - The table enforces the unique constraints of the schema; the client
      reports a violation as a known request error with code [P2002] and the
      violated fields as [meta.target].
    - In the data of a write a property that is [undefined] is not written:
      an update leaves that column as it is, a create leaves it [NULL].
    - A [findFirst] without [orderBy] returns some matching row; the choice
      is a parameter of the methods.
    - The reading methods ([findById] and the like, [searchStudents]) build
      entities through the validating constructors of the value objects and
      are left out, as is [isEmailUnique], which depends on
      [String.prototype.toLowerCase]. *)

Module PrismaStudentRepository.

(** *** Thrown values *)

(** What the [catch] clauses of the repository tell apart in a thrown
    value: the two domain exceptions by their class, a known request error
    of the Prisma client by its [code] and [meta.target], and any other
    error. *)
Inductive Exception : Type :=
| Error (message : string)
| ConcurrencyError (entityType id_ : string) (expectedVersion actualVersion : Z)
| EntityNotFoundError (entityType id_ tenantId_ : string)
| PrismaClientKnownRequestError (code : string) (target : option (list string))
                                (message : string).

(** A number inside a template literal. *)
Definition showNumber (n : Z) : string := NilZero.string_of_int (Z.to_int n).

(** [error.message], as the constructors of the exceptions build it. *)
Definition messageOf (e : Exception) : string :=
  match e with
  | Error message => message
  | ConcurrencyError entityType id_ expectedVersion actualVersion =>
      "Concurrency conflict: " ++ entityType ++ " with id '" ++ id_
      ++ "' expected version " ++ showNumber expectedVersion
      ++ ", but actual version is " ++ showNumber actualVersion
  | EntityNotFoundError entityType id_ tenantId_ =>
      entityType ++ " with id '" ++ id_ ++ "'"
      ++ (if String.eqb tenantId_ "" then "" else " in tenant '" ++ tenantId_ ++ "'")
      ++ " was not found"
  | PrismaClientKnownRequestError _ _ message => message
  end.

(** [error.name]: a domain exception carries the name of its class. *)
Definition nameOf (e : Exception) : string :=
  match e with
  | Error _ => "Error"
  | ConcurrencyError _ _ _ _ => "ConcurrencyError"
  | EntityNotFoundError _ _ _ => "EntityNotFoundError"
  | PrismaClientKnownRequestError _ _ _ => "PrismaClientKnownRequestError"
  end.

(** An error inside a template literal, [`${error}`]: the name alone when
    the message is empty. *)
Definition toString (e : Exception) : string :=
  if String.eqb (messageOf e) "" then nameOf e else nameOf e ++ ": " ++ messageOf e.

Inductive Result (A : Type) : Type :=
| Ok (a : A)
| Throw (e : Exception).
Arguments Ok {A} a.
Arguments Throw {A} e.

(** *** Data *)

(** The values of [STUDENT_STATUS] and of the [gender] union of the domain,
    and the enums of the schema. *)
Inductive StudentStatus : Type :=
| active | inactive | graduated | transferred | suspended | expelled.

Inductive PrismaStudentStatus : Type :=
| ACTIVE | INACTIVE | SUSPENDED | TRANSFERRED | GRADUATED | EXPELLED.

Inductive Gender : Type := male | female | other.

Inductive PrismaGender : Type := MALE | FEMALE | OTHER.

Record Address : Type := {
  street : string;
  city : string;
  state : string;
  zipCode : string;
  country : string
}.

(** [GuardianData], the shape of a guardian in the JSON column; a guardian
    of the entity is read through the same fields, its value objects by
    their [value]. *)
Record GuardianData : Type := {
  g_firstName : string;
  g_lastName : string;
  relationship : string;
  g_email : string;
  g_phoneNumber : string;
  g_address : option Address;
  isEmergencyContact : bool;
  isPrimaryContact : bool
}.

(** The [Student] entity, by its properties; value objects by their
    [value], an absent optional property as [None], a [Date] by its time
    value. *)
Module Entity.

Record Student : Type := {
  id : string;
  tenantId : string;
  version : Z;
  studentNumber : string;
  firstName : string;
  lastName : string;
  dateOfBirth : Z;
  gender : Gender;
  email : option string;
  phoneNumber : option string;
  address : Address;
  guardians : list GuardianData;
  status : StudentStatus;
  enrollmentDate : Z;
  graduationDate : option Z;
  nationalId : option string;
  bloodType : option string;
  allergies : list string;
  medicalConditions : list string;
  notes : option string;
  createdAt : Z;
  updatedAt : Z;
  createdBy : option string;
  updatedBy : option string
}.

End Entity.

(** The columns [toPrismaModel] fills: the create input without [id],
    [version], [createdAt] and [updatedAt]. In the data of a write [None] is
    [undefined]; in a stored row it is [NULL]. *)
Record Columns : Type := {
  studentNumber : string;
  tenantId : string;
  firstName : string;
  lastName : string;
  dateOfBirth : Z;
  gender : PrismaGender;
  email : option string;
  phoneNumber : option string;
  nationalId : option string;
  addressStreet : string;
  addressCity : string;
  addressState : string;
  addressZipCode : string;
  addressCountry : string;
  bloodType : option string;
  allergies : list string;
  medicalConditions : list string;
  status : PrismaStudentStatus;
  enrollmentDate : Z;
  graduationDate : option Z;
  notes : option string;
  guardians : list GuardianData;
  createdBy : option string;
  updatedBy : option string
}.

(** A row of the [students] table (model Student of the schema): the columns
    above and the ones the database or the repository maintains. *)
Record PrismaStudent : Type := {
  id : string;
  version : Z;
  createdAt : Z;
  updatedAt : Z;
  deletedAt : option Z;
  deletedBy : option string;
  columns : Columns
}.

(** *** Mapping between the entity and the row *)

Definition mapStatusToPrisma (status_ : StudentStatus) : PrismaStudentStatus :=
  match status_ with
  | active => ACTIVE
  | inactive => INACTIVE
  | suspended => SUSPENDED
  | transferred => TRANSFERRED
  | graduated => GRADUATED
  | expelled => EXPELLED
  end.

(** [statusMap[status] || STUDENT_STATUS.ACTIVE]: every value of the enum is
    a key of the map. *)
Definition mapStatusFromPrisma (status_ : PrismaStudentStatus) : StudentStatus :=
  match status_ with
  | ACTIVE => active
  | INACTIVE => inactive
  | SUSPENDED => suspended
  | TRANSFERRED => transferred
  | GRADUATED => graduated
  | EXPELLED => expelled
  end.

Definition mapGenderToPrisma (gender_ : Gender) : PrismaGender :=
  match gender_ with
  | male => MALE
  | female => FEMALE
  | other => OTHER
  end.

Definition mapGenderFromPrisma (gender_ : PrismaGender) : Gender :=
  match gender_ with
  | MALE => male
  | FEMALE => female
  | OTHER => other
  end.

Definition toPrismaModel (student : Entity.Student) : Columns :=
  let guardiansData :=
    List.map (fun guardian =>
                {| g_firstName := g_firstName guardian;
                   g_lastName := g_lastName guardian;
                   relationship := relationship guardian;
                   g_email := g_email guardian;
                   g_phoneNumber := g_phoneNumber guardian;
                   g_address :=
                     match g_address guardian with
                     | Some a => Some {| street := street a; city := city a; state := state a;
                                         zipCode := zipCode a; country := country a |}
                     | None => None
                     end;
                   isEmergencyContact := isEmergencyContact guardian;
                   isPrimaryContact := isPrimaryContact guardian |})
             (Entity.guardians student) in
  {| studentNumber := Entity.studentNumber student;
     tenantId := Entity.tenantId student;
     firstName := Entity.firstName student;
     lastName := Entity.lastName student;
     dateOfBirth := Entity.dateOfBirth student;
     gender := mapGenderToPrisma (Entity.gender student);
     email := Entity.email student;
     phoneNumber := Entity.phoneNumber student;
     nationalId := Entity.nationalId student;
     addressStreet := street (Entity.address student);
     addressCity := city (Entity.address student);
     addressState := state (Entity.address student);
     addressZipCode := zipCode (Entity.address student);
     addressCountry := country (Entity.address student);
     bloodType := Entity.bloodType student;
     allergies := Entity.allergies student;
     medicalConditions := Entity.medicalConditions student;
     status := mapStatusToPrisma (Entity.status student);
     enrollmentDate := Entity.enrollmentDate student;
     graduationDate := Entity.graduationDate student;
     notes := Entity.notes student;
     guardians := guardiansData;
     createdBy := Entity.createdBy student;
     updatedBy := Entity.updatedBy student |}.

(** *** The table behind the Prisma client *)

Record Database : Type := {
  students : list PrismaStudent;     (* the table, in insertion order *)
  faults : list (option Exception)   (* outcomes of the coming calls: [Some e]
                                        makes the call reject with [e] *)
}.

(** A computation of the repository: it resolves or rejects, and leaves the
    database in a new state. *)
Definition Repo (A : Type) : Type := Database -> Result A * Database.

#[global] Instance Repo_ret : MRet Repo :=
  fun A a s => (Ok a, s).

#[global] Instance Repo_bind : MBind Repo :=
  fun A B k c s =>
    match c s with
    | (Ok a, s') => k a s'
    | (Throw e, s') => (Throw e, s')
    end.

Definition raise {A} (e : Exception) : Repo A :=
  fun s => (Throw e, s).

(** [try { body } catch (error) { handler }] *)
Definition catch {A} (body : Repo A) (handler : Exception -> Repo A) : Repo A :=
  fun s =>
    match body s with
    | (Ok a, s') => (Ok a, s')
    | (Throw e, s') => handler e s'
    end.

Definition query {A} (f : Database -> Result A * Database) : Repo A := f.

(** Every round trip to the database first consumes one entry of the fault
    script; an empty script means the database answers. *)
Definition roundTrip : Repo unit :=
  fun s =>
    match faults s with
    | [] => (Ok tt, s)
    | None :: fs => (Ok tt, {| students := students s; faults := fs |})
    | Some e :: fs => (Throw e, {| students := students s; faults := fs |})
    end.

(** The unique constraints of the table, against the rows [others]: the
    primary key, [studentNumber] and [email] ([NULL]s never collide). The
    constraint on ([studentNumber], [tenantId]) is implied by the one on
    [studentNumber]. When several constraints are violated at once the
    database reports one of them; here it is the first in the order of the
    schema. *)
Definition violatedConstraint (r : PrismaStudent) (others : list PrismaStudent)
    : option (list string) :=
  if existsb (fun x => String.eqb (id x) (id r)) others then Some ["id"]
  else if existsb (fun x => String.eqb (studentNumber (columns x)) (studentNumber (columns r)))
            others
       then Some ["studentNumber"]
  else if existsb (fun x => match email (columns x), email (columns r) with
                            | Some a, Some b => String.eqb a b
                            | _, _ => false
                            end) others
       then Some ["email"]
  else None.

Definition uniqueConstraintFailed (target : list string) : Exception :=
  PrismaClientKnownRequestError "P2002" (Some target) "Unique constraint failed".

Definition recordNotFound : Exception :=
  PrismaClientKnownRequestError "P2025" None "Record to update not found.".

(** A column of the data of an update: [undefined] leaves the stored value. *)
Definition orKeep {A} (given stored : option A) : option A :=
  match given with
  | Some v => Some v
  | None => stored
  end.

(** The columns of a row after an update with [data]. *)
Definition writeColumns (data stored : Columns) : Columns :=
  {| studentNumber := studentNumber data;
     tenantId := tenantId data;
     firstName := firstName data;
     lastName := lastName data;
     dateOfBirth := dateOfBirth data;
     gender := gender data;
     email := orKeep (email data) (email stored);
     phoneNumber := orKeep (phoneNumber data) (phoneNumber stored);
     nationalId := orKeep (nationalId data) (nationalId stored);
     addressStreet := addressStreet data;
     addressCity := addressCity data;
     addressState := addressState data;
     addressZipCode := addressZipCode data;
     addressCountry := addressCountry data;
     bloodType := orKeep (bloodType data) (bloodType stored);
     allergies := allergies data;
     medicalConditions := medicalConditions data;
     status := status data;
     enrollmentDate := enrollmentDate data;
     graduationDate := orKeep (graduationDate data) (graduationDate stored);
     notes := orKeep (notes data) (notes stored);
     guardians := guardians data;
     createdBy := orKeep (createdBy data) (createdBy stored);
     updatedBy := orKeep (updatedBy data) (updatedBy stored) |}.

Definition hasKey (key : string) (r : PrismaStudent) : bool := String.eqb (id r) key.

Section Client.

(** A [findFirst] without [orderBy] returns one of the matching rows, which
    one is up to the database: [pick] is its choice. *)
Variable pick : list PrismaStudent -> option PrismaStudent.

(** [student.findFirst({ where })] *)
Definition findFirst (where_ : PrismaStudent -> bool) : Repo (option PrismaStudent) :=
  roundTrip ;;
  query (fun s => (Ok (pick (List.filter where_ (students s))), s)).

(** [student.count({ where })] *)
Definition count (where_ : PrismaStudent -> bool) : Repo Z :=
  roundTrip ;;
  query (fun s => (Ok (Z.of_nat (length (List.filter where_ (students s)))), s)).

(** [student.create({ data })]: [createdAt] and [updatedAt] are set by the
    database, [deletedAt] and [deletedBy] are [NULL]. *)
Definition create (now : Z) (id_ : string) (version_ : Z) (data : Columns) : Repo unit :=
  roundTrip ;;
  query (fun s =>
    let r := {| id := id_; version := version_; createdAt := now; updatedAt := now;
                deletedAt := None; deletedBy := None; columns := data |} in
    match violatedConstraint r (students s) with
    | Some target => (Throw (uniqueConstraintFailed target), s)
    | None => (Ok tt, {| students := students s ++ [r]; faults := faults s |})
    end).

(** [student.update({ where: { id }, data })]; [write] is the effect of
    [data] on the row. *)
Definition update (key : string) (write : PrismaStudent -> PrismaStudent) : Repo unit :=
  roundTrip ;;
  query (fun s =>
    match List.find (hasKey key) (students s) with
    | None => (Throw recordNotFound, s)
    | Some stored =>
        match violatedConstraint (write stored)
                (List.filter (fun x => negb (hasKey key x)) (students s)) with
        | Some target => (Throw (uniqueConstraintFailed target), s)
        | None =>
            (Ok tt,
             {| students := List.map (fun x => if hasKey key x then write x else x) (students s);
                faults := faults s |})
        end
    end).

(** *** Methods *)

(** [deletedAt: null] *)
Definition live (r : PrismaStudent) : bool :=
  match deletedAt r with
  | None => true
  | Some _ => false
  end.

(** [target?.includes(field)] *)
Definition includes (field : string) (target : option (list string)) : bool :=
  match target with
  | Some fields => existsb (String.eqb field) fields
  | None => false
  end.

(** The [catch] of [save]. *)
Definition saveFailed (student : Entity.Student) (error_ : Exception) : Repo unit :=
  match error_ with
  | ConcurrencyError _ _ _ _ => raise error_
  | PrismaClientKnownRequestError code target _ =>
      if String.eqb code "P2002" && includes "studentNumber" target
      then raise (Error ("Student number " ++ Entity.studentNumber student ++ " already exists"))
      else if String.eqb code "P2002" && includes "email" target
      then raise (Error ("Email " ++ default "undefined" (Entity.email student)
                         ++ " already exists"))
      else raise (Error ("Failed to save student: " ++ toString error_))
  | _ => raise (Error ("Failed to save student: " ++ toString error_))
  end.

Definition save (student : Entity.Student) (now : Z) : Repo unit :=
  catch
    (let data := toPrismaModel student in
     (* Check if this is an update by looking for existing record *)
     existingStudent ← findFirst (fun r => String.eqb (id r) (Entity.id student)
                                           && String.eqb (tenantId (columns r))
                                                         (Entity.tenantId student)
                                           && live r);
     match existingStudent with
     | Some existing =>
         (* Update existing student with optimistic locking *)
         (if negb (version existing =? Entity.version student)
          then raise (ConcurrencyError "Student" (Entity.id student)
                        (Entity.version student) (version existing))
          else mret tt) ;;
         update (Entity.id student)
           (fun r => {| id := id r;
                        version := Entity.version student + 1;   (* Increment version *)
                        createdAt := createdAt r;
                        updatedAt := now;
                        deletedAt := deletedAt r;
                        deletedBy := deletedBy r;
                        columns := writeColumns data (columns r) |})
     | None =>
         (* Create new student *)
         create now (Entity.id student) 1 data
     end)
    (saveFailed student).

(** The [where] of [delete]:
    [OR: [{ id, tenantId }, { studentNumber: id, tenantId }], deletedAt: null] *)
Definition deleteWhere (id_ tenantId_ : string) (r : PrismaStudent) : bool :=
  ((String.eqb (id r) id_ && String.eqb (tenantId (columns r)) tenantId_)
   || (String.eqb (studentNumber (columns r)) id_
       && String.eqb (tenantId (columns r)) tenantId_))
  && live r.

Definition delete (id_ tenantId_ : string) (now : Z) : Repo unit :=
  catch
    (student ← findFirst (deleteWhere id_ tenantId_);
     match student with
     | None => raise (EntityNotFoundError "Student" id_ tenantId_)
     | Some student =>
         update (id student)
           (fun r => {| id := id r;
                        (* Also update the version to maintain consistency *)
                        version := version student + 1;
                        createdAt := createdAt r;
                        updatedAt := now;
                        deletedAt := Some now;
                        deletedBy := deletedBy r;
                        columns := columns r |})
     end)
    (fun error_ =>
       match error_ with
       | EntityNotFoundError _ _ _ => raise error_
       | _ => raise (Error ("Failed to delete student: " ++ toString error_))
       end).

Definition isStudentNumberUnique (studentNumber_ tenantId_ : string) : Repo bool :=
  catch
    (count_ ← count (fun r => String.eqb (studentNumber (columns r)) studentNumber_
                              && String.eqb (tenantId (columns r)) tenantId_
                              && live r);
     mret (count_ =? 0))
    (fun error_ =>
       raise (Error ("Failed to check student number uniqueness: " ++ toString error_))).

(** [if (excludeStudentId)]: an empty string is falsy. *)
Definition excluding (excludeStudentId : option string) (r : PrismaStudent) : bool :=
  match excludeStudentId with
  | Some key => if String.eqb key "" then true else negb (String.eqb (id r) key)
  | None => true
  end.

Definition isNationalIdUnique (nationalId_ tenantId_ : string)
    (excludeStudentId : option string) : Repo bool :=
  catch
    (count_ ← count (fun r => match nationalId (columns r) with
                              | Some n => String.eqb n nationalId_
                              | None => false
                              end
                              && String.eqb (tenantId (columns r)) tenantId_
                              && live r
                              && excluding excludeStudentId r);
     mret (count_ =? 0))
    (fun error_ =>
       raise (Error ("Failed to check national ID uniqueness: " ++ toString error_))).

End Client.

(** *** Notions used by the statements *)

(** What is known of the database's choice in a [findFirst]: a matching row
    when there is one. *)
Definition fairChoice (pick : list PrismaStudent -> option PrismaStudent) : Prop :=
  forall l, match pick l with
            | Some r => In r l
            | None => l = []
            end.

(** The table satisfies its unique constraints. *)
Definition wfTable (l : list PrismaStudent) : Prop :=
  List.NoDup (List.map id l)
  /\ forall r, In r l ->
                violatedConstraint r (List.filter (fun x => negb (hasKey (id r) x)) l) = None.

(** The row [save] writes over [stored] for [student]. *)
Definition savedOver (student : Entity.Student) (now : Z) (stored : PrismaStudent)
    : PrismaStudent :=
  {| id := id stored;
     version := Entity.version student + 1;
     createdAt := createdAt stored;
     updatedAt := now;
     deletedAt := deletedAt stored;
     deletedBy := deletedBy stored;
     columns := writeColumns (toPrismaModel student) (columns stored) |}.

(** The row [delete] leaves of [stored]. *)
Definition softDeleted (now : Z) (stored : PrismaStudent) : PrismaStudent :=
  {| id := id stored;
     version := version stored + 1;
     createdAt := createdAt stored;
     updatedAt := now;
     deletedAt := Some now;
     deletedBy := deletedBy stored;
     columns := columns stored |}.

(** Sample data for the concrete runs. *)
Definition sampleGuardian : GuardianData :=
  {| g_firstName := "Ana"; g_lastName := "Silva"; relationship := "mother";
     g_email := "ana@example.com"; g_phoneNumber := "+5511999990000"; g_address := None;
     isEmergencyContact := true; isPrimaryContact := true |}.

Definition sampleStudent (key number : string) (version_ : Z) (email_ : option string)
    : Entity.Student :=
  {| Entity.id := key; Entity.tenantId := "tenant-1"; Entity.version := version_;
     Entity.studentNumber := number; Entity.firstName := "Rui"; Entity.lastName := "Silva";
     Entity.dateOfBirth := 1262304000000; Entity.gender := male;
     Entity.email := email_; Entity.phoneNumber := None;
     Entity.address := {| street := "Rua A 1"; city := "Lisboa"; state := "LX";
                          zipCode := "1000-001"; country := "PT" |};
     Entity.guardians := [sampleGuardian]; Entity.status := active;
     Entity.enrollmentDate := 1693526400000; Entity.graduationDate := None;
     Entity.nationalId := None; Entity.bloodType := None; Entity.allergies := [];
     Entity.medicalConditions := []; Entity.notes := None;
     Entity.createdAt := 100; Entity.updatedAt := 100;
     Entity.createdBy := None; Entity.updatedBy := None |}.

(** The row of a sample student as [save] first stores it. *)
Definition sampleRow (key number : string) (version_ : Z) (email_ : option string)
    (deletedAt_ : option Z) : PrismaStudent :=
  {| id := key; version := version_; createdAt := 100; updatedAt := 100;
     deletedAt := deletedAt_; deletedBy := None;
     columns := toPrismaModel (sampleStudent key number version_ email_) |}.

Definition withNationalId (nationalId_ : string) (student : Entity.Student)
    : Entity.Student :=
  {| Entity.id := Entity.id student; Entity.tenantId := Entity.tenantId student;
     Entity.version := Entity.version student;
     Entity.studentNumber := Entity.studentNumber student;
     Entity.firstName := Entity.firstName student;
     Entity.lastName := Entity.lastName student;
     Entity.dateOfBirth := Entity.dateOfBirth student;
     Entity.gender := Entity.gender student;
     Entity.email := Entity.email student;
     Entity.phoneNumber := Entity.phoneNumber student;
     Entity.address := Entity.address student;
     Entity.guardians := Entity.guardians student;
     Entity.status := Entity.status student;
     Entity.enrollmentDate := Entity.enrollmentDate student;
     Entity.graduationDate := Entity.graduationDate student;
     Entity.nationalId := Some nationalId_;
     Entity.bloodType := Entity.bloodType student;
     Entity.allergies := Entity.allergies student;
     Entity.medicalConditions := Entity.medicalConditions student;
     Entity.notes := Entity.notes student;
     Entity.createdAt := Entity.createdAt student;
     Entity.updatedAt := Entity.updatedAt student;
     Entity.createdBy := Entity.createdBy student;
     Entity.updatedBy := Entity.updatedBy student |}.

(** The row of a student as [save] first stores it. *)
Definition rowOf (student : Entity.Student) : PrismaStudent :=
  {| id := Entity.id student; version := 1; createdAt := 100; updatedAt := 100;
     deletedAt := None; deletedBy := None; columns := toPrismaModel student |}.

Definition table (rows_ : list PrismaStudent) : Database :=
  {| students := rows_; faults := [] |}.

End PrismaStudentRepository.


(* ===================================================================== *)
(** ** The student specifications *)
(* ===================================================================== *)

(** The specification classes over [Student] and [calculateAge].

    Conventions.
    - A [Date] is its time value in milliseconds; its calendar fields are
      functions of the instant, given by the local calendar of the runtime.
      A check reads the clock once: the instant is the argument [now] of
      [isSatisfiedBy].
    - [StudentBirthdayThisMonthSpecification], whose constructor reads the
      clock, is left out. *)

Module StudentSpecifications.

Import PrismaStudentRepository.

Section Runtime.

(** The local calendar of the runtime: the year, the month (from 0) and the
    day of the month of an instant, and [String.prototype.trim]. *)
Variables getFullYear getMonth getDate : Z -> Z.
Variable trim : string -> string.

(** [calculateAge(birthDate)], with [today] the instant of the call. *)
Definition calculateAge (today birthDate : Z) : Z :=
  let age := getFullYear today - getFullYear birthDate in
  let monthDiff := getMonth today - getMonth birthDate in
  (* Subtract a year if the birthday hasn't occurred yet this year *)
  if (monthDiff <? 0) || ((monthDiff =? 0) && (getDate today <? getDate birthDate))
  then age - 1
  else age.

(** Getters of the entity. *)
Definition age (today : Z) (student : Entity.Student) : Z :=
  calculateAge today (Entity.dateOfBirth student).

Definition hasStatus (status_ : StudentStatus) (student : Entity.Student) : bool :=
  match Entity.status student, status_ with
  | active, active | inactive, inactive | graduated, graduated
  | transferred, transferred | suspended, suspended | expelled, expelled => true
  | _, _ => false
  end.

Definition isActive (student : Entity.Student) : bool := hasStatus active student.

Definition emergencyContacts (student : Entity.Student) : list GuardianData :=
  List.filter isEmergencyContact (Entity.guardians student).

Definition primaryGuardian (student : Entity.Student) : option GuardianData :=
  List.find isPrimaryContact (Entity.guardians student).

(** A specification, by its [isSatisfiedBy]; the first argument is the
    clock, which some specifications read during the call. *)
Definition Specification (T : Type) : Type := Z -> T -> bool.

Definition isSatisfiedBy {T} (spec : Specification T) (now : Z) (entity : T) : bool :=
  spec now entity.

Definition AndSpecification {T} (left right : Specification T) : Specification T :=
  fun now entity => isSatisfiedBy left now entity && isSatisfiedBy right now entity.

Definition OrSpecification {T} (left right : Specification T) : Specification T :=
  fun now entity => isSatisfiedBy left now entity || isSatisfiedBy right now entity.

Definition NotSpecification {T} (spec : Specification T) : Specification T :=
  fun now entity => negb (isSatisfiedBy spec now entity).

Definition ActiveStudentSpecification : Specification Entity.Student :=
  fun _ student => hasStatus active student.

Definition GraduatedStudentSpecification : Specification Entity.Student :=
  fun _ student => hasStatus graduated student.

Definition MinorStudentSpecification : Specification Entity.Student :=
  fun now student => age now student <? 18.

Definition AdultStudentSpecification : Specification Entity.Student :=
  fun now student => 18 <=? age now student.

Definition StudentWithAllergiesSpecification : Specification Entity.Student :=
  fun _ student => (0 <? length (Entity.allergies student))%nat.

Definition StudentWithMedicalConditionsSpecification : Specification Entity.Student :=
  fun _ student => (0 <? length (Entity.medicalConditions student))%nat.

Definition StudentAgeRangeSpecification (minAge maxAge : Z) : Specification Entity.Student :=
  fun now student =>
    let age_ := age now student in
    (minAge <=? age_) && (age_ <=? maxAge).

Definition StudentEnrolledInYearSpecification (year : Z) : Specification Entity.Student :=
  fun _ student => getFullYear (Entity.enrollmentDate student) =? year.

Definition StudentGraduatedInYearSpecification (year : Z) : Specification Entity.Student :=
  fun _ student =>
    match Entity.graduationDate student with
    | Some d => getFullYear d =? year
    | None => false
    end.

Definition StudentWithEmergencyContactSpecification : Specification Entity.Student :=
  fun _ student => (0 <? length (emergencyContacts student))%nat.

(** The quotients are floating-point numbers in the source and rationals
    here. *)
Definition LongTermStudentSpecification (minimumYears : Q) : Specification Entity.Student :=
  fun now student =>
    let enrollmentTime := now - Entity.enrollmentDate student in
    let enrollmentYears := (inject_Z enrollmentTime / inject_Z (1000 * 60 * 60 * 24 * 365))%Q in
    Qle_bool minimumYears enrollmentYears.

Definition StudentEligibleForGraduationSpecification : Specification Entity.Student :=
  fun now student =>
    (* Must be active *)
    if negb (isActive student) then false
    else
      (* Must be enrolled for at least 1 year *)
      let enrollmentTime := now - Entity.enrollmentDate student in
      let enrollmentDays := (inject_Z enrollmentTime / inject_Z (1000 * 60 * 60 * 24))%Q in
      if negb (Qle_bool (inject_Z 365) enrollmentDays) then false
      else
        (* Must be at least 16 years old *)
        if age now student <? 16 then false
        else true.

Definition StudentRequiresParentalConsentSpecification : Specification Entity.Student :=
  fun now student => age now student <? 18.

Definition StudentWithValidContactInfoSpecification : Specification Entity.Student :=
  fun _ student =>
    (* Must have at least one emergency contact *)
    if (length (emergencyContacts student) =? 0)%nat then false
    else
      (* Must have a primary guardian contact *)
      match primaryGuardian student with
      | None => false
      | Some primaryGuardian_ =>
          (* Primary guardian must have valid email and phone *)
          negb (String.eqb (trim (g_email primaryGuardian_)) "")
          && negb (String.eqb (trim (g_phoneNumber primaryGuardian_)) "")
      end.

Definition StudentNeedsDocumentationUpdateSpecification (maxDaysSinceUpdate : Q)
    : Specification Entity.Student :=
  fun now student =>
    let daysSinceUpdate :=
      (inject_Z (now - Entity.updatedAt student) / inject_Z (1000 * 60 * 60 * 24))%Q in
    negb (Qle_bool daysSinceUpdate maxDaysSinceUpdate).

(** Composite specifications for common business scenarios. *)
Definition EligibleForAdvancementSpecification : Specification Entity.Student :=
  fun now student =>
    let activeSpec := ActiveStudentSpecification in
    let validContactSpec := StudentWithValidContactInfoSpecification in
    let longTermSpec := LongTermStudentSpecification (inject_Z 1) in
    isSatisfiedBy (AndSpecification (AndSpecification activeSpec validContactSpec) longTermSpec)
      now student.

Definition RequiresSpecialAttentionSpecification : Specification Entity.Student :=
  fun now student =>
    let hasAllergies := StudentWithAllergiesSpecification in
    let hasMedicalConditions := StudentWithMedicalConditionsSpecification in
    let isMinor := MinorStudentSpecification in
    let needsDocumentUpdate := StudentNeedsDocumentationUpdateSpecification (inject_Z 180) in
    isSatisfiedBy
      (OrSpecification (OrSpecification hasAllergies hasMedicalConditions)
         (AndSpecification isMinor needsDocumentUpdate))
      now student.

End Runtime.

(** *** Notions used by the statements *)

(** The [n]-th anniversary of an instant falls on or before another
    instant, by the calendar: the year of the first plus [n], then its month
    and its day, compared with those of the second. *)
Definition anniversaryReached (getFullYear getMonth getDate : Z -> Z) (n birthDate today : Z)
    : Prop :=
  getFullYear birthDate + n < getFullYear today
  \/ (getFullYear birthDate + n = getFullYear today
      /\ (getMonth birthDate < getMonth today
          \/ (getMonth birthDate = getMonth today /\ getDate birthDate <= getDate today))).

End StudentSpecifications.


(* ===================================================================== *)
(** ** Properties *)
(* ===================================================================== *)

(** Unfolds the monadic plumbing of a method down to the state it computes. *)
Ltac run_monad :=
  repeat (cbn [mbind mret St_bind St_ret tryCatch tryFinally zoom step db throw getState
               modifyState fst snd] in *;
          unfold mbind, mret, St_bind, St_ret, tryCatch, tryFinally, zoom, step, db, throw,
                 getState, modifyState in * ).

(** *** Round trips *)

Lemma roundTrip_cases s :
  (nextFault s = None /\ exists s', roundTrip s = (Resolved tt, s')
     /\ rows s' = rows s /\ nextId s' = nextId s)
  \/ (exists error s', nextFault s = Some error /\ roundTrip s = (Rejected error, s')
     /\ rows s' = rows s /\ nextId s' = nextId s).
Proof.
  unfold roundTrip, nextFault. destruct s as [rs k [|[e|] fs]]; cbn.
  - left. eauto.
  - right. eauto 8.
  - left. eauto.
Qed.

(** *** Health check *)

(** C10. When one of the four store queries of [healthCheck] fails,
    [healthCheck] still resolves: with [healthy = false], the sentinels
    [pendingEvents = -1] and [errorRate = -1], and the message of the error
    in [details]; the table is left as it was. A caller thus reads negative
    numbers where counts are expected. *)
Theorem healthCheck_store_failure config now p error :
  firstFault 4 (faults (prisma p)) = Some error ->
  exists status p',
    healthCheck config now p = (Resolved status, p')
    /\ healthy status = false
    /\ pendingEvents status = -1
    /\ errorRate status = inject_Z (-1)
    /\ lastPublishTime status = None
    /\ health_details status = HealthError (errorMessage "Unknown error" error)
    /\ rows (prisma p') = rows (prisma p).
Proof.
  destruct p as [[rs k fs] hs ip tm ts]. cbn [prisma faults rows].
  intros H.
  unfold healthCheck, outboxEvent.count, outboxEvent.findFirst, roundTrip.
  run_monad. cbn [prisma faults rows setPrisma setFaults].
  do 4 (destruct fs as [|[e|] fs]; cbn in H; try discriminate;
        try (injection H as <-; do 2 eexists; repeat split; reflexivity); cbn).
Qed.

Lemma healthCheck_store_failure_witness :
  exists status p',
    healthCheck defaultConfig 100 (newPublisher storeDown) = (Resolved status, p')
    /\ pendingEvents status = -1
    /\ errorRate status = inject_Z (-1)
    /\ health_details status = HealthError "Can't reach database server".
Proof.
  destruct (healthCheck_store_failure defaultConfig 100 (newPublisher storeDown)
              (ErrorObj "Can't reach database server") eq_refl)
    as (status & p' & H1 & _ & H2 & H3 & _ & H4 & _).
  exists status, p'. repeat split; assumption.
Defined.

(** *** Lists of rows *)

Lemma filter_length_pos {A} (f : A -> bool) (l : list A) :
  (0 <? Z.of_nat (length (List.filter f l))) = true <-> exists x, In x l /\ f x = true.
Proof.
  rewrite Z.ltb_lt. split.
  - intros H. destruct (List.filter f l) as [|x l'] eqn:E; [cbn in H; lia|].
    exists x. apply filter_In. rewrite E. by left.
  - intros (x & Hx & Hf).
    assert (In x (List.filter f l)) as Hin by (apply filter_In; done).
    destruct (List.filter f l); [destruct Hin | cbn; lia].
Qed.

Lemma filter_negb_all {A} (f : A -> bool) (l : list A) :
  (forall x, In x l -> f x = false) -> List.filter (fun x => negb (f x)) l = l.
Proof.
  induction l as [|a l IH]; intros H; [done|].
  cbn. rewrite (H a) by (by left). cbn. f_equal. apply IH. intros x Hx. apply H. by right.
Qed.

Lemma filter_length_zero {A} (f : A -> bool) (l : list A) :
  (0 <? Z.of_nat (length (List.filter f l))) = false -> forall x, In x l -> f x = false.
Proof.
  intros H x Hx. destruct (f x) eqn:E; [|done].
  assert ((0 <? Z.of_nat (length (List.filter f l))) = true) as H'
    by (apply filter_length_pos; eauto).
  congruence.
Qed.

(** *** Cancelling a scheduled event *)

Lemma cancelWhere_true eventId_ r :
  cancelWhere eventId_ r = true <-> eventId r = eventId_ /\ published r = false.
Proof.
  unfold cancelWhere. rewrite andb_true_iff, String.eqb_eq, negb_true_iff. done.
Qed.

(** C8. [cancelScheduledEvent] never rejects. When the store answers, it
    deletes exactly the rows with the given [eventId] and [published = false]
    and reports [success = true] if and only if there was such a row;
    otherwise (unknown id, or row already published) nothing is deleted and
    the result is [success = false] with the message
    ["Event not found or already published"]. When the store call fails the
    result is [success = false] with the error's message and nothing is
    deleted. In every case the published rows are all still there. *)
Theorem cancelScheduledEvent_spec eventId_ p :
  exists res p',
    cancelScheduledEvent eventId_ p = (Resolved res, p')
    /\ match nextFault (prisma p) with
       | Some error =>
           cancel_success res = false
           /\ cancel_error res = Some (errorMessage "Unknown error occurred" error)
           /\ rows (prisma p') = rows (prisma p)
       | None =>
           (forall r, In r (rows (prisma p')) <->
                      In r (rows (prisma p)) /\ ~ (eventId r = eventId_ /\ published r = false))
           /\ (cancel_success res = true <->
               exists r, In r (rows (prisma p)) /\ eventId r = eventId_ /\ published r = false)
           /\ (cancel_success res = true -> cancel_error res = None)
           /\ (cancel_success res = false ->
               cancel_error res = Some "Event not found or already published"
               /\ rows (prisma p') = rows (prisma p))
       end
    /\ (forall r, In r (rows (prisma p)) -> published r = true -> In r (rows (prisma p'))).
Proof.
  destruct p as [d hs ip tm ts].
  unfold cancelScheduledEvent, outboxEvent.deleteMany. run_monad. cbn [prisma].
  destruct (roundTrip_cases d) as [(Hn & d' & -> & Hr & _)|(e & d' & Hn & -> & Hr & _)];
    rewrite Hn; cbn [prisma rows setPrisma setRows].
  - do 2 eexists. split; [reflexivity|]. cbn [cancel_success cancel_error prisma rows setPrisma setRows].
    rewrite Hr. split; [split; [|split; [|split]]|].
    + intros r. rewrite filter_In, negb_true_iff, <- cancelWhere_true.
      destruct (cancelWhere eventId_ r); intuition congruence.
    + rewrite filter_length_pos. by setoid_rewrite cancelWhere_true.
    + by intros ->.
    + intros H. rewrite H. split; [done|].
      apply filter_negb_all. by apply filter_length_zero.
    + intros r Hin Hp. apply filter_In. split; [done|].
      unfold cancelWhere. rewrite Hp. by rewrite andb_false_r.
  - do 2 eexists. split; [reflexivity|]. cbn [cancel_success cancel_error prisma rows setPrisma setRows].
    by rewrite Hr.
Qed.

(** *** Publishing one event *)

Lemma existsb_eventId rs name :
  existsb (fun r => String.eqb (eventId r) name) rs = true <->
  exists r, In r rs /\ eventId r = name.
Proof.
  rewrite existsb_exists. by setoid_rewrite String.eqb_eq.
Qed.

(** C6, as stated, fails for a ceiling of 0: with
    [retryPolicy = { maxRetries: 0 }] the stored row gets the configured
    default (3), because [maxRetries || default] treats 0 as absent. *)
Lemma publish_zero_ceiling_counterexample :
  ~ publishStoresSpecifiedCeiling defaultConfig (sampleEvent "evt-1") zeroRetries 100
      (newPublisher emptyStore).
Proof.
  intros H.
  destruct (H _ _ eq_refl eq_refl) as (row & Hrows & Hceiling).
  cbn in Hrows. injection Hrows as <-. cbn in Hceiling. discriminate.
Qed.

(** C6, amended. [publish] never rejects. Either the store accepts the row:
    then exactly one row is appended, with [published = false],
    [retryCount = 0], [maxRetries] equal to [options.retryPolicy.maxRetries]
    when that is given and not 0 and to the configured default otherwise,
    and [scheduledFor = now] unless [options.immediate] is [false]; the
    result is a success carrying the event's id and the instant of storage.
    Or the store refuses (the call fails, or the [eventId] is already
    there): then no row is added and the result is a failure carrying the
    event's id and the message of the error. *)
Theorem publish_spec config event options now p :
  exists res p',
    publish config event options now p = (Resolved res, p')
    /\ res_eventId res = ev_eventId event
    /\ res_publishedAt res = now
    /\ ((success res = true /\ error res = None
         /\ nextFault (prisma p) = None
         /\ exists row,
              rows (prisma p') = rows (prisma p) ++ [row]
              /\ eventId row = ev_eventId event
              /\ eventType row = ev_eventType event
              /\ eventData row = event
              /\ published row = false /\ publishedAt row = None
              /\ retryCount row = 0
              /\ (forall m, optMaxRetries options = Some m -> m <> 0 -> maxRetries row = m)
              /\ (optMaxRetries options = None \/ optMaxRetries options = Some 0 ->
                  maxRetries row = cfg_maxRetries config)
              /\ (immediateIsFalse options = false -> scheduledFor row = now))
        \/ (success res = false
            /\ rows (prisma p') = rows (prisma p)
            /\ exists e,
                 error res = Some (errorMessage "Unknown error occurred" e)
                 /\ (nextFault (prisma p) = Some e
                     \/ (e = uniqueViolation
                         /\ exists r, In r (rows (prisma p))
                                      /\ eventId r = ev_eventId event)))).
Proof.
  destruct p as [d hs ip tm ts].
  unfold publish, outboxEvent.create, spawnProcessOutboxEventsAsync. run_monad. cbn [prisma].
  destruct (roundTrip_cases d) as [(Hn & d' & -> & Hr & Hk)|(e & d' & Hn & -> & Hr & _)].
  - destruct (existsb _ (rows d')) eqn:Hdup.
    + do 2 eexists. split; [reflexivity|]. cbn. do 2 (split; [done|]).
      right. split; [done|]. split; [done|]. exists uniqueViolation. split; [done|].
      right. split; [done|]. rewrite <- Hr. by apply existsb_eventId.
    + destruct (immediateIsFalse options) eqn:Him, ip; cbn [negb]; run_monad.
      all: cbn [isProcessing setPrisma].
      all: do 2 eexists; (split; [reflexivity|]); cbn; do 2 (split; [done|]).
      all: left; do 3 (split; [done|]); eexists; rewrite Hr; (split; [reflexivity|]).
      all: cbn; unfold scheduleOf; rewrite ?Him; repeat split; try done.
      all: try (intros m -> Hm; cbn; apply Z.eqb_neq in Hm; by rewrite Hm).
      all: intros [-> | ->]; done.
  - do 2 eexists. split; [reflexivity|]. cbn. do 2 (split; [done|]).
    right. split; [done|]. split; [done|]. exists e. eauto.
Qed.

(** *** Writes to the table *)

Lemma writeRows_In now where_ data rs r' :
  In r' (writeRows now where_ data rs) <->
  exists r, In r rs /\ r' = (if where_ r then applyUpdate now data r else r).
Proof.
  unfold writeRows. rewrite in_map_iff. split; intros (r & ? & ?); eauto.
Qed.

Lemma writeRows_ids now where_ data rs :
  List.map id (writeRows now where_ data rs) = List.map id rs.
Proof.
  unfold writeRows. rewrite List.map_map. apply List.map_ext. intros r. by destruct (where_ r).
Qed.

Lemma writeRows_length now where_ data rs :
  length (writeRows now where_ data rs) = length rs.
Proof. unfold writeRows. apply List.length_map. Qed.

Lemma writeRows_other now where_ data rs r :
  In r rs -> where_ r = false -> In r (writeRows now where_ data rs).
Proof.
  intros Hin Hw. apply writeRows_In. exists r. by rewrite Hw.
Qed.

Lemma hasId_true key r : hasId key r = true <-> id r = key.
Proof. unfold hasId. apply Nat.eqb_eq. Qed.

Lemma hasId_false key r : hasId key r = false <-> id r <> key.
Proof. unfold hasId. apply Nat.eqb_neq. Qed.

(** The outcomes of [outboxEvent.update]. *)
Lemma update_cases now key data s :
  exists o s',
    outboxEvent.update now key data s = (o, s')
    /\ nextId s' = nextId s
    /\ ((o = Resolved tt /\ nextFault s = None
         /\ (exists r, In r (rows s) /\ id r = key)
         /\ rows s' = writeRows now (hasId key) data (rows s))
        \/ (exists e, o = Rejected e /\ rows s' = rows s
            /\ (nextFault s = Some e
                \/ (nextFault s = None /\ e = recordNotFound
                    /\ forall r, In r (rows s) -> id r <> key)))).
Proof.
  unfold outboxEvent.update. run_monad.
  destruct (roundTrip_cases s) as [(Hn & s' & -> & Hr & Hk)|(e & s' & Hn & -> & Hr & Hk)].
  - destruct (existsb (hasId key) (rows s')) eqn:E.
    + do 2 eexists. split; [reflexivity|]. split; [done|]. left.
      apply existsb_exists in E as (r & Hin & Hid). apply hasId_true in Hid.
      rewrite Hr in *. cbn. eauto 10.
    + do 2 eexists. split; [reflexivity|]. split; [done|]. right.
      exists recordNotFound. split; [done|]. split; [done|]. right.
      split; [done|]. split; [done|]. intros r Hin. apply hasId_false.
      rewrite <- Hr in Hin.
      destruct (hasId key r) eqn:E'; [|done].
      assert (existsb (hasId key) (rows s') = true) by (apply existsb_exists; eauto).
      congruence.
  - do 2 eexists. split; [reflexivity|]. split; [done|]. right. eauto 10.
Qed.

Lemma update_ok now key data s r :
  nextFault s = None -> In r (rows s) -> id r = key ->
  exists s',
    outboxEvent.update now key data s = (Resolved tt, s')
    /\ nextId s' = nextId s
    /\ rows s' = writeRows now (hasId key) data (rows s).
Proof.
  intros Hn Hin Hid.
  destruct (update_cases now key data s) as (o & s' & -> & Hk & H).
  destruct H as [(-> & _ & _ & Hr)|(e & -> & _ & [H|(_ & _ & H)])].
  - eauto.
  - congruence.
  - by destruct (H r Hin).
Qed.

(** *** The poll query *)

Lemma pendingWhere_true config now r :
  pendingWhere config now r = true <->
  published r = false /\ scheduledFor r <= now /\ retryCount r < cfg_maxRetries config.
Proof.
  unfold pendingWhere.
  rewrite !andb_true_iff, negb_true_iff, Z.leb_le, Z.ltb_lt. tauto.
Qed.

(** The outcomes of the [findMany] of the poll: the table is only read. *)
Lemma findPendingEvents_cases config now s :
  exists o s',
    findPendingEvents config now s = (o, s')
    /\ rows s' = rows s /\ nextId s' = nextId s
    /\ ((nextFault s = None
         /\ o = Resolved (take (batchSize config)
                            (merge_sort byScheduledForAsc
                               (List.filter (pendingWhere config now) (rows s)))))
        \/ (exists e, nextFault s = Some e /\ o = Rejected e)).
Proof.
  unfold findPendingEvents, outboxEvent.findMany. run_monad.
  destruct (roundTrip_cases s) as [(Hn & s' & -> & Hr & Hk)|(e & s' & Hn & -> & Hr & Hk)].
  - do 2 eexists. split; [reflexivity|]. rewrite Hr. cbn [drop]. eauto 10.
  - do 2 eexists. split; [reflexivity|]. eauto 10.
Qed.

Lemma In_take {A} (x : A) n l : In x (take n l) -> In x l.
Proof.
  rewrite <- !list_elem_of_In. apply subseteq_take.
Qed.

Lemma In_merge_sort {A} (R : A -> A -> Prop) `{!forall x y, Decision (R x y)} x l :
  In x (merge_sort R l) <-> In x l.
Proof.
  split; apply Permutation_in; [|symmetry]; apply merge_sort_Permutation.
Qed.

(** Every selected row is in the table and satisfies the poll's [where]. *)
Lemma findPendingEvents_In config now s pendingEvents_ s' q :
  findPendingEvents config now s = (Resolved pendingEvents_, s') ->
  In q pendingEvents_ ->
  In q (rows s) /\ pendingWhere config now q = true.
Proof.
  intros H Hq.
  destruct (findPendingEvents_cases config now s) as (o & s'' & E & _ & _ & Hcase).
  rewrite E in H. injection H as -> ->.
  destruct Hcase as [(_ & [= ->])|(e & _ & [=])].
  apply In_take, In_merge_sort, filter_In in Hq. done.
Qed.

#[global] Instance byScheduledForAsc_transitive : Transitive byScheduledForAsc.
Proof. intros x y z. unfold byScheduledForAsc. lia. Qed.

#[global] Instance byScheduledForAsc_total : Total byScheduledForAsc.
Proof. intros x y. unfold byScheduledForAsc. lia. Qed.

(** What a poll selects: unpublished rows that are due and whose
    [retryCount] is below the publisher's configured ceiling, in ascending
    order of [scheduledFor], at most [batchSize] of them, the earliest
    first; all of them when they are fewer than [batchSize]. *)
Lemma findPendingEvents_selected config now s pendingEvents_ s' :
  findPendingEvents config now s = (Resolved pendingEvents_, s') ->
  (forall q, In q pendingEvents_ ->
             In q (rows s) /\ published q = false /\ scheduledFor q <= now
             /\ retryCount q < cfg_maxRetries config)
  /\ StronglySorted byScheduledForAsc pendingEvents_
  /\ (length pendingEvents_ <= batchSize config)%nat
  /\ (forall q r, In q pendingEvents_ -> In r (rows s) -> pendingWhere config now r = true ->
                  ~ In r pendingEvents_ -> scheduledFor q <= scheduledFor r)
  /\ ((length pendingEvents_ < batchSize config)%nat ->
      forall r, In r (rows s) -> pendingWhere config now r = true -> In r pendingEvents_).
Proof.
  intros H.
  assert (forall q, In q pendingEvents_ ->
                    In q (rows s) /\ pendingWhere config now q = true) as Hin
    by (intros q; by eapply findPendingEvents_In).
  destruct (findPendingEvents_cases config now s) as (o & s'' & E & _ & _ & Hcase).
  rewrite E in H. injection H as -> ->.
  destruct Hcase as [(_ & [= Hl])|(e & _ & [=])].
  set (sorted := merge_sort byScheduledForAsc (List.filter (pendingWhere config now) (rows s)))
    in Hl.
  assert (StronglySorted byScheduledForAsc sorted) as Hsorted
    by (apply StronglySorted_merge_sort; apply _).
  rewrite <- (take_drop (batchSize config) sorted), <- Hl in Hsorted.
  split; [|split; [|split; [|split]]].
  - intros q Hq. destruct (Hin q Hq) as [? Hw]. apply pendingWhere_true in Hw. tauto.
  - by apply StronglySorted_app_1_l in Hsorted.
  - rewrite Hl, length_take. lia.
  - intros q r Hq Hr Hw Hnot.
    assert (In r sorted) as Hrs by (apply In_merge_sort, filter_In; done).
    rewrite <- (take_drop (batchSize config) sorted), <- Hl in Hrs.
    apply in_app_iff in Hrs as [?|Hrs]; [done|].
    apply (StronglySorted_app_1_elem_of _ _ _ q r Hsorted); by apply list_elem_of_In.
  - intros Hlt r Hr Hw. rewrite Hl. rewrite Hl, length_take in Hlt.
    rewrite take_ge by lia. apply In_merge_sort, filter_In. done.
Qed.

(** *** Dispatching one row *)

(** C7. A row of the table whose event type has no registered handler is
    delivered by the default (log-only) handler, and the delivery counts as
    a success: when the store answers, [processOutboxEvent] resolves, the
    row is written with [published = true] and [publishedAt = now] (its
    retry bookkeeping untouched), and no later poll selects it. *)
Theorem unrouted_event_is_published config handlers now outboxEvent s :
  handlers !! ev_eventType (eventData outboxEvent) = None ->
  In outboxEvent (rows s) ->
  nextFault s = None ->
  exists s',
    processOutboxEvent config handlers now outboxEvent s = (Resolved tt, s')
    /\ (exists r', In r' (rows s') /\ id r' = id outboxEvent
                   /\ eventId r' = eventId outboxEvent
                   /\ published r' = true /\ publishedAt r' = Some now
                   /\ retryCount r' = retryCount outboxEvent
                   /\ scheduledFor r' = scheduledFor outboxEvent
                   /\ lastError r' = lastError outboxEvent)
    /\ (forall r', In r' (rows s') -> id r' = id outboxEvent ->
                   published r' = true /\ publishedAt r' = Some now)
    /\ (forall r, In r (rows s) -> id r <> id outboxEvent -> In r (rows s'))
    /\ length (rows s') = length (rows s)
    /\ (forall now' pendingEvents_ s'',
          findPendingEvents config now' s' = (Resolved pendingEvents_, s'') ->
          forall q, In q pendingEvents_ -> id q <> id outboxEvent).
Proof.
  intros Hh Hin Hn.
  unfold processOutboxEvent, invokeHandler. rewrite Hh. cbn [default defaultEventHandler].
  run_monad.
  edestruct (update_ok now (id outboxEvent)) as (s' & -> & _ & Hr); [done..|].
  exists s'. split; [done|].
  assert (forall r', In r' (rows s') -> id r' = id outboxEvent ->
                     published r' = true /\ publishedAt r' = Some now) as Hall.
  { intros r' Hr' Hid. rewrite Hr in Hr'. apply writeRows_In in Hr' as (r & _ & ->).
    destruct (hasId (id outboxEvent) r) eqn:E; [done|].
    apply hasId_false in E. done. }
  split; [|split; [done|split; [|split]]].
  - exists (applyUpdate now
              {| ud_published := Some true; ud_publishedAt := Some (Some now);
                 ud_retryCount := None; ud_scheduledFor := None; ud_lastError := None |}
              outboxEvent).
    split; [|done]. rewrite Hr. apply writeRows_In. exists outboxEvent.
    split; [done|]. unfold hasId. by rewrite Nat.eqb_refl.
  - intros r Hr' Hid. rewrite Hr. apply writeRows_other; [done|]. by apply hasId_false.
  - by rewrite Hr, writeRows_length.
  - intros now' pendingEvents_ s'' Hfind q Hq Hid.
    destruct (findPendingEvents_In _ _ _ _ _ _ Hfind Hq) as [Hq' Hw].
    apply pendingWhere_true in Hw as (Hp & _).
    destruct (Hall q Hq' Hid). congruence.
Qed.

Lemma unrouted_event_is_published_witness :
  exists s',
    processOutboxEvent defaultConfig ∅ 200 pendingRow oneRowStore = (Resolved tt, s')
    /\ (forall r', In r' (rows s') -> id r' = id pendingRow ->
                   published r' = true /\ publishedAt r' = Some 200).
Proof.
  destruct (unrouted_event_is_published defaultConfig ∅ 200 pendingRow oneRowStore)
    as (s' & H1 & _ & H2 & _).
  - reflexivity.
  - left. reflexivity.
  - reflexivity.
  - exists s'. split; [exact H1 | exact H2].
Defined.





(** *** Publishing a batch *)

(** The callback of the transaction never rejects: each event leaves one
    entry in [results], a success or the failure of its own insert. *)
Lemma storeBatchEvent_resolves config options now event l p :
  exists l' p' r,
    storeBatchEvent config options now event (l, p) = (Resolved tt, (l', p'))
    /\ l_results l' = l_results l ++ [r].
Proof.
  unfold storeBatchEvent, this, locals. run_monad.
  destruct (outboxEvent.create _ _ _) as [[r|e] d]; cbn [fst snd];
    do 3 eexists; (split; [reflexivity|]); reflexivity.
Qed.

Lemma storeBatch_resolves config events options now :
  forall l p,
    exists l' p',
      storeBatch config events options now (l, p) = (Resolved tt, (l', p'))
      /\ exists rs, l_results l' = l_results l ++ rs /\ length rs = length events.
Proof.
  unfold storeBatch.
  induction events as [|event events IH]; intros l p; cbn [forEach].
  - do 2 eexists. split; [reflexivity|]. exists []. by rewrite app_nil_r.
  - unfold mbind, St_bind.
    destruct (storeBatchEvent_resolves config options now event l p)
      as (l1 & p1 & r & -> & Hr).
    destruct (IH l1 p1) as (l' & p' & -> & rs & Hrs & Hlen).
    do 2 eexists. split; [reflexivity|]. exists (r :: rs).
    rewrite Hrs, Hr, <- app_assoc. split; [done|]. cbn. by rewrite Hlen.
Qed.

(** The loop of the outer [catch]: one failure entry per event, appended to
    what [results] holds already. *)
Lemma markAllFailed events now message :
  forall l (p : Publisher),
    forEach events
      (fun event => locals (modifyState (pushResult (failedResult event now message))))
      (l, p)
    = (Resolved tt,
       ({| l_results := l_results l
                         ++ List.map (fun event => failedResult event now message) events;
           l_successCount := l_successCount l;
           l_failureCount := l_failureCount l |}, p)).
Proof.
  induction events as [|event events IH]; intros l p; cbn [forEach List.map].
  - rewrite app_nil_r. by destruct l.
  - run_monad. unfold locals at 1. run_monad. cbn [fst snd].
    rewrite IH. unfold pushResult. cbn [l_results l_successCount l_failureCount].
    by rewrite <- app_assoc.
Qed.

(** X9. When the transaction of [publishBatch] fails, no row is persisted, the
    counters report [N] failures and no success, and [results] ends with
    [N] failures carrying the error's message. When the transaction could
    not even begin these are all the entries; when it failed after its
    callback ran, the [N] entries the callback recorded come first. *)
Lemma publishBatch_failed_transaction config events options now p e l1 p1 :
  batchTransaction config events options now (noLocals, p) = (Rejected e, (l1, p1)) ->
  rows (prisma p1) = rows (prisma p)
  /\ exists res,
       publishBatch config events options now p = (Resolved res, p1)
       /\ totalEvents res = Z.of_nat (length events)
       /\ successCount res = 0
       /\ failureCount res = Z.of_nat (length events)
       /\ results res =
            l_results l1
            ++ List.map (fun event =>
                           failedResult event now (errorMessage "Transaction failed" e))
                        events
       /\ ((nextFault (prisma p) = Some e /\ l_results l1 = [])
           \/ (nextFault (prisma p) = None /\ length (l_results l1) = length events)).
Proof.
  intros H.
  assert (exists res,
            publishBatch config events options now p = (Resolved res, p1)
            /\ totalEvents res = Z.of_nat (length events)
            /\ successCount res = 0
            /\ failureCount res = Z.of_nat (length events)
            /\ results res =
                 l_results l1
                 ++ List.map (fun event =>
                                failedResult event now (errorMessage "Transaction failed" e))
                             events) as Hres.
  { unfold publishBatch, tryCatch, mbind, St_bind. rewrite H.
    unfold locals at 1, zoom, modifyState at 1. cbn [fst snd].
    rewrite markAllFailed. eexists. split; [reflexivity|]. done. }
  unfold batchTransaction, transaction in H. cbn [fst snd] in H.
  destruct (roundTrip_cases (prisma p)) as [(Hn & d0 & E & Hr0 & _)|(e0 & d0 & Hn & E & Hr0 & _)];
    rewrite E in H.
  - destruct (storeBatch_resolves config events options now noLocals (setPrisma d0 p))
      as (l' & p' & Eb & rs & Hrs & Hlen).
    rewrite Eb in H. cbn [fst snd] in H.
    destruct (roundTrip (prisma p')) as [[[]|e2] d2]; [done|].
    injection H as <- <- <-. cbn [prisma setPrisma rows setRows].
    split; [done|]. destruct Hres as (res & ?). exists res.
    repeat split; try tauto. right. split; [done|]. by rewrite Hrs.
  - injection H as <- <- <-. cbn [prisma setPrisma].
    split; [done|]. destruct Hres as (res & ?). exists res.
    repeat split; tauto.
Qed.

(** *** Concrete runs *)

(** C1, at a failing input. One event, a transaction whose commit is
    refused: no row is persisted and the counters say one failure, but
    [results] holds two entries, the first of them the success recorded
    inside the callback before the rollback. The [catch] resets the two
    counters and not the array. *)
Theorem publishBatch_commit_failure_keeps_stale_results :
  exists res p',
    publishBatch defaultConfig [sampleEvent "evt-1"] None 100 (newPublisher commitFails)
      = (Resolved res, p')
    /\ rows (prisma p') = []
    /\ totalEvents res = 1 /\ successCount res = 0 /\ failureCount res = 1
    /\ results res =
         [storedResult (sampleEvent "evt-1") 100;
          failedResult (sampleEvent "evt-1") 100 "Transaction already closed"]
    /\ length (results res) = 2%nat
    /\ (exists r, In r (results res) /\ success r = true).
Proof.
  do 2 eexists. split; [reflexivity|]. cbn.
  repeat split; try reflexivity. eexists. split; [left; reflexivity | reflexivity].
Qed.

(** C2, at a failing input. A row stored with its own ceiling
    [maxRetries = 1] has failed once, so its [retryCount] has reached its
    ceiling; the publisher is configured with [maxRetries = 3]. A later poll
    still selects the row: the poll compares [retryCount] with the
    publisher's configured ceiling, never with the row's. *)
Theorem poll_ignores_the_row_ceiling :
  exists r,
    rows (prisma afterOneFailure) = [r]
    /\ published r = false
    /\ maxRetries r = 1 /\ retryCount r = 1
    /\ scheduledFor r = 1100
    /\ fst (findPendingEvents defaultConfig 5000 (prisma afterOneFailure)) = Resolved [r].
Proof.
  eexists. split; [reflexivity|]. cbn. repeat split; reflexivity.
Qed.

(** C3, at a failing input. A row that exhausted its retries
    ([retryCount = maxRetries = 3], unpublished) is listed by
    [getFailedEvents], but [retryFailedEvents] does not touch it, whether
    called for all rows or with its id: it reports 0 rows, and the poll it
    triggers selects nothing. Its [where] asks for
    [retryCount < maxRetries], the opposite of the dead-letter condition
    [getFailedEvents] uses. *)
Theorem retryFailedEvents_skips_dead_letters :
  exists r,
    rows (prisma deadLettered) = [r]
    /\ published r = false /\ retryCount r = 3 /\ maxRetries r = 3
    /\ isProcessing deadLettered = false
    /\ (exists listed, fst (getFailedEvents defaultConfig 50 0 deadLettered)
                         = Resolved (listed, 1))
    /\ (forall eventIds, eventIds = None \/ eventIds = Some ["evt-1"] ->
        exists res p',
          retryFailedEvents defaultConfig eventIds 20000 deadLettered = (Resolved res, p')
          /\ totalEvents res = 0
          /\ rows (prisma p') = [r]
          /\ rows (prisma (run defaultConfig [Resume 3 20000] p')) = [r]
          /\ fst (findPendingEvents defaultConfig 20000 (prisma p')) = Resolved [])
    /\ rows (prisma (run defaultConfig
                       [DoRetryFailedEvents None 20000; Resume 3 20000; Resume 3 20000]
                       deadLettered)) = [r].
Proof.
  eexists. split; [reflexivity|]. cbn [published retryCount maxRetries].
  repeat split; try reflexivity.
  - eexists. vm_compute. reflexivity.
  - intros eventIds [-> | ->]; do 2 eexists; (split; [vm_compute; reflexivity|]);
      vm_compute; repeat split; reflexivity.
Qed.

(** *** Quiet changes of the table *)

Lemma wfStore_same d d' :
  rows d' = rows d -> nextId d' = nextId d -> wfStore d -> wfStore d'.
Proof. unfold wfStore. intros -> ->. done. Qed.

Lemma quiet_refl d : quiet d d.
Proof. unfold quiet. split; [lia|]. split; done. Qed.

Lemma quiet_trans d1 d2 d3 : quiet d1 d2 -> quiet d2 d3 -> quiet d1 d3.
Proof.
  intros (Hk1 & Hw1 & Hp1) (Hk2 & Hw2 & Hp2). split; [lia|]. split; [tauto|].
  intros r Hr. rewrite (Hp1 r Hr). by apply Hp2.
Qed.

Lemma quiet_same d d' : rows d' = rows d -> nextId d' = nextId d -> quiet d d'.
Proof.
  intros Hr Hk. split; [lia|]. split; [by apply wfStore_same|].
  intros r _. by rewrite Hr.
Qed.

Lemma NoDup_map_filter {A B} (f : A -> B) (g : A -> bool) (l : list A) :
  List.NoDup (List.map f l) -> List.NoDup (List.map f (List.filter g l)).
Proof.
  induction l as [|a l IH]; cbn [List.map List.filter]; intros H; [done|].
  inversion H as [|? ? Hnotin Hnd]; subst.
  destruct (g a); cbn [List.map]; [|by apply IH].
  constructor; [|by apply IH].
  rewrite in_map_iff in *. intros (x & Hx & Hin). apply Hnotin. exists x.
  apply filter_In in Hin. tauto.
Qed.

Lemma quietDb_roundTrip : quietDb roundTrip.
Proof.
  intros s o s' H.
  destruct (roundTrip_cases s) as [(_ & s1 & E & ? & ?)|(e & s1 & _ & E & ? & ?)];
    rewrite E in H; injection H as <- <-; by apply quiet_same.
Qed.

Lemma quietDb_bind {A B} (c : Db A) (k : A -> Db B) :
  quietDb c -> (forall a, quietDb (k a)) -> quietDb (mbind k c).
Proof.
  intros Hc Hk s o s' H. run_monad.
  destruct (c s) as [[a|e] s1] eqn:E.
  - eapply quiet_trans; [by eapply Hc | by eapply Hk].
  - injection H as <- <-. by eapply Hc.
Qed.

Lemma quietDb_read {A} (f : Store -> A) : quietDb (step (fun s => (Resolved (f s), s))).
Proof. intros s o s' [= <- <-]. apply quiet_refl. Qed.

Lemma quietDb_count where_ : quietDb (outboxEvent.count where_).
Proof.
  apply quietDb_bind; [apply quietDb_roundTrip|]. intros _.
  apply (quietDb_read (fun s => Z.of_nat (length (List.filter where_ (rows s))))).
Qed.

Lemma quietDb_findMany where_ orderBy `{!forall x y, Decision (orderBy x y)} skip take_ :
  quietDb (outboxEvent.findMany where_ orderBy skip take_).
Proof.
  apply quietDb_bind; [apply quietDb_roundTrip|]. intros _.
  apply (quietDb_read
           (fun s => take take_ (drop skip (merge_sort orderBy (List.filter where_ (rows s)))))).
Qed.

Lemma quietDb_findFirst where_ orderBy `{!forall x y, Decision (orderBy x y)} :
  quietDb (outboxEvent.findFirst where_ orderBy).
Proof.
  apply quietDb_bind; [apply quietDb_roundTrip|]. intros _.
  apply (quietDb_read (fun s => head (merge_sort orderBy (List.filter where_ (rows s))))).
Qed.

(** Inserting an unpublished row is quiet. *)
Lemma quietDb_create now data :
  cd_published data = false -> quietDb (outboxEvent.create now data).
Proof.
  intros Hp. apply quietDb_bind; [apply quietDb_roundTrip|]. intros _.
  intros s o s' H. unfold step in H.
  destruct (existsb _ (rows s)); injection H as <- <-; [apply quiet_refl|].
  split; [cbn; lia|]. split.
  - intros (Hnd & Hfresh & Hpub). repeat split; cbn [rows nextId].
    + rewrite List.map_app. cbn [List.map]. apply List.NoDup_app.
      * done.
      * repeat constructor. intros [].
      * intros k (r & Hid & Hin)%in_map_iff [<-|[]]. cbn in Hid.
        apply Hfresh in Hin. lia.
    + intros r [Hin|[<-|[]]]%in_app_iff; [apply Hfresh in Hin; lia | cbn; lia].
    + intros r [Hin|[<-|[]]]%in_app_iff; [by apply Hpub|]. cbn. congruence.
  - intros r Hr. cbn [rows]. rewrite in_app_iff. split; [by left|].
    intros [?|[<-|[]]]; [done|]. cbn in Hr. congruence.
Qed.

(** Rewriting unpublished rows without touching [published] or
    [publishedAt] is quiet. *)
Lemma quietDb_updateMany now where_ data :
  (forall r, where_ r = true -> published r = false) ->
  ud_published data = None -> ud_publishedAt data = None ->
  quietDb (outboxEvent.updateMany now where_ data).
Proof.
  intros Hw Hd1 Hd2. apply quietDb_bind; [apply quietDb_roundTrip|]. intros _.
  intros s o s' [= <- <-]. split; [cbn; lia|]. split.
  - intros (Hnd & Hfresh & Hpub). repeat split; cbn [rows nextId setRows].
    + by rewrite writeRows_ids.
    + intros r' (r & Hin & ->)%writeRows_In. apply Hfresh in Hin.
      by destruct (where_ r).
    + intros r' (r & Hin & ->)%writeRows_In. destruct (where_ r); [|by apply Hpub].
      cbn. rewrite Hd1, Hd2. cbn. by apply Hpub.
  - intros r Hr. cbn [rows setRows]. split.
    + intros Hin. apply writeRows_other; [done|].
      destruct (where_ r) eqn:E; [|done]. apply Hw in E. congruence.
    + intros (r0 & Hin & ->)%writeRows_In. destruct (where_ r0) eqn:E; [|done].
      apply Hw in E. cbn in Hr. rewrite Hd1 in Hr. cbn in Hr. congruence.
Qed.

(** Deleting unpublished rows is quiet. *)
Lemma quietDb_deleteMany where_ :
  (forall r, where_ r = true -> published r = false) ->
  quietDb (outboxEvent.deleteMany where_).
Proof.
  intros Hw. apply quietDb_bind; [apply quietDb_roundTrip|]. intros _.
  intros s o s' [= <- <-]. split; [cbn; lia|]. split.
  - intros (Hnd & Hfresh & Hpub). repeat split; cbn [rows nextId setRows].
    + by apply NoDup_map_filter.
    + intros r [Hin _]%filter_In. by apply Hfresh.
    + intros r [Hin _]%filter_In. by apply Hpub.
  - intros r Hr. cbn [rows setRows]. rewrite filter_In. split; [|tauto].
    intros Hin. split; [done|]. destruct (where_ r) eqn:E; [|done].
    apply Hw in E. congruence.
Qed.

Lemma quiet_rollback d d' :
  rows d' = rows d -> (nextId d <= nextId d')%nat -> quiet d d'.
Proof.
  intros Hr Hk. split; [done|]. split.
  - unfold wfStore. rewrite Hr. intros (? & Hfresh & ?). repeat split; [done| |done].
    intros r Hin. apply Hfresh in Hin. lia.
  - intros r _. by rewrite Hr.
Qed.

(** *** Calm changes of the publisher *)

Lemma onlySpawns_ext p1 p2 q1 q2 :
  isProcessing q1 = isProcessing p1 -> ticks q1 = ticks p1 ->
  isProcessing q2 = isProcessing p2 -> ticks q2 = ticks p2 ->
  onlySpawns p1 p2 -> onlySpawns q1 q2.
Proof.
  unfold onlySpawns, singleFlight, activeTicks. by intros -> -> -> ->.
Qed.

Lemma onlySpawns_refl p : onlySpawns p p.
Proof. split; [done|]. exists []. by rewrite app_nil_r. Qed.

Lemma onlySpawns_ticks p p' :
  onlySpawns p p' -> exists extra, ticks p' = ticks p ++ extra /\ Forall notDispatching extra.
Proof. intros (_ & extra & ? & ? & _). eauto. Qed.

Lemma onlySpawns_same p p' :
  isProcessing p' = isProcessing p -> ticks p' = ticks p -> onlySpawns p p'.
Proof.
  intros H1 H2. eapply onlySpawns_ext; [..|apply (onlySpawns_refl p)]; done.
Qed.

Lemma onlySpawns_trans p1 p2 p3 : onlySpawns p1 p2 -> onlySpawns p2 p3 -> onlySpawns p1 p3.
Proof.
  intros (Hs1 & x1 & E1 & F1 & B1) (Hs2 & x2 & E2 & F2 & B2). split; [tauto|].
  exists (x1 ++ x2). rewrite E2, E1, <- app_assoc. split; [done|].
  split; [by apply Forall_app|].
  intros Hb. destruct (B1 Hb) as [Hb' ?]. destruct (B2 Hb'). split; [done|].
  by apply Forall_app.
Qed.

Lemma calm_refl p : calm p p.
Proof. split; [apply quiet_refl | apply onlySpawns_refl]. Qed.

Lemma calm_trans p1 p2 p3 : calm p1 p2 -> calm p2 p3 -> calm p1 p3.
Proof.
  intros [] []. split; [by eapply quiet_trans | by eapply onlySpawns_trans].
Qed.

Lemma calmOn_ret {S A} (proj : S -> Publisher) (a : A) : calmOn proj (mret a : St S A).
Proof. intros s o s' [= <- <-]. apply calm_refl. Qed.

Lemma calmOn_bind {S A B} (proj : S -> Publisher) (c : St S A) (k : A -> St S B) :
  calmOn proj c -> (forall a, calmOn proj (k a)) -> calmOn proj (mbind k c).
Proof.
  intros Hc Hk s o s' H. run_monad.
  destruct (c s) as [[a|e] s1] eqn:E.
  - eapply calm_trans; [by eapply Hc | by eapply Hk].
  - injection H as <- <-. by eapply Hc.
Qed.

Lemma calmOn_tryCatch {S A} (proj : S -> Publisher) (body : St S A) handler :
  calmOn proj body -> (forall e, calmOn proj (handler e)) ->
  calmOn proj (tryCatch body handler).
Proof.
  intros Hb Hh s o s' H. run_monad.
  destruct (body s) as [[a|e] s1] eqn:E.
  - injection H as <- <-. by eapply Hb.
  - eapply calm_trans; [by eapply Hb | by eapply Hh].
Qed.

Lemma calmOn_forEach {S A} (proj : S -> Publisher) (xs : list A) (f : A -> St S unit) :
  (forall x, calmOn proj (f x)) -> calmOn proj (forEach xs f).
Proof.
  intros Hf. induction xs as [|x xs IH]; cbn [forEach].
  - apply calmOn_ret.
  - apply calmOn_bind; [apply Hf | by intros _].
Qed.

Lemma calmOn_db {A} (c : Db A) : quietDb c -> calmOn (fun p => p) (db c).
Proof.
  intros Hc p o p' H. run_monad. destruct (c (prisma p)) as [o' d] eqn:E.
  injection H as <- <-. split; [by eapply Hc | by apply onlySpawns_same].
Qed.

Lemma calmOn_getState : calmOn (fun p => p) getState.
Proof. intros p o p' [= <- <-]. apply calm_refl. Qed.

Lemma singleFlight_spawn p :
  singleFlight p -> singleFlight (snd (spawnProcessOutboxEventsAsync p)).
Proof.
  unfold singleFlight, activeTicks, spawnProcessOutboxEventsAsync. run_monad.
  destruct (isProcessing p) eqn:E; cbn; rewrite List.filter_app, List.length_app; cbn.
  - rewrite E. lia.
  - lia.
Qed.

Lemma calmOn_spawn : calmOn (fun p => p) spawnProcessOutboxEventsAsync.
Proof.
  intros p o p' H. split.
  - replace p' with (snd (spawnProcessOutboxEventsAsync p)) by (by rewrite H).
    unfold spawnProcessOutboxEventsAsync. run_monad.
    destruct (isProcessing p); apply quiet_refl.
  - split.
    + intros Hs. replace p' with (snd (spawnProcessOutboxEventsAsync p)) by (by rewrite H).
      by apply singleFlight_spawn.
    + unfold spawnProcessOutboxEventsAsync in H. run_monad. injection H as <- <-.
      destruct (isProcessing p) eqn:E; eexists; (split; [reflexivity|]);
        (split; [by repeat constructor|]); [|done].
      intros _. cbn. rewrite E. by repeat constructor.
Qed.

Lemma calmOn_setProcessingTimer b : calmOn (fun p => p) (modifyState (setProcessingTimer b)).
Proof. intros p o p' [= <- <-]. split; [apply quiet_refl | by apply onlySpawns_same]. Qed.

Lemma calmOn_setDeliveryHandlers (f : Publisher -> gmap string Handler) :
  calmOn (fun p => p) (modifyState (fun p => setDeliveryHandlers (f p) p)).
Proof. intros p o p' [= <- <-]. split; [apply quiet_refl | by apply onlySpawns_same]. Qed.

Lemma calmOn_this {A} (c : Pub A) :
  calmOn (fun p => p) c -> calmOn snd (this c).
Proof.
  intros Hc [l p] o s' H. unfold this in H. run_monad.
  destruct (c p) as [o' p1] eqn:E. injection H as <- <-. by eapply Hc.
Qed.

Lemma calmOn_locals {A} (c : St BatchLocals A) : calmOn snd (locals c).
Proof.
  intros [l p] o s' H. unfold locals in H. run_monad.
  destruct (c l) as [o' l1]. injection H as <- <-. apply calm_refl.
Qed.

Lemma calmOn_transaction {L A} (body : St (L * Publisher) A) :
  calmOn snd body ->
  calmOn snd (transaction (fun s => prisma (snd s))
                          (fun d s => (fst s, setPrisma d (snd s))) body).
Proof.
  intros Hb [l p] o s' H. unfold transaction in H. cbn [fst snd] in H.
  destruct (roundTrip_cases (prisma p)) as [(_ & d0 & E & Hr0 & Hk0)|(e & d0 & _ & E & Hr0 & Hk0)];
    rewrite E in H.
  2: { injection H as <- <-. split; [by apply quiet_same | by apply onlySpawns_same]. }
  destruct (body (l, setPrisma d0 p)) as [[a|e] [l1 p1]] eqn:Eb.
  all: pose proof (Hb _ _ _ Eb) as [(Hk1 & Hw1 & Hp1) Hs1]; cbn [fst snd prisma setPrisma] in *.
  - destruct (roundTrip_cases (prisma p1))
      as [(_ & d2 & E2 & Hr2 & Hk2)|(e & d2 & _ & E2 & Hr2 & Hk2)];
      rewrite E2 in H; injection H as <- <-; cbn [snd prisma setPrisma]; split.
    + apply quiet_trans with d0; [by apply quiet_same|].
      apply quiet_trans with (prisma p1); [done | by apply quiet_same].
    + by eapply onlySpawns_ext; [..|exact Hs1].
    + apply quiet_rollback; cbn; [done | lia].
    + by eapply onlySpawns_ext; [..|exact Hs1].
  - injection H as <- <-; cbn [snd prisma setPrisma]; split.
    + apply quiet_rollback; cbn; [done | lia].
    + by eapply onlySpawns_ext; [..|exact Hs1].
Qed.

Create HintDb calm.

#[local] Hint Resolve calmOn_ret calmOn_getState calmOn_spawn calmOn_setProcessingTimer
  calmOn_setDeliveryHandlers calmOn_locals quietDb_count quietDb_findMany quietDb_findFirst
  : calm.

#[local] Hint Extern 2 (calmOn _ (mbind _ _)) =>
  apply calmOn_bind; [|intros ?; cbv beta zeta] : calm.
#[local] Hint Extern 2 (calmOn _ (tryCatch _ _)) =>
  apply calmOn_tryCatch; [|intros ?; cbv beta zeta] : calm.
#[local] Hint Extern 2 (calmOn _ (forEach _ _)) =>
  apply calmOn_forEach; intros ?; cbv beta zeta : calm.
#[local] Hint Extern 2 (calmOn _ (db _)) => apply calmOn_db : calm.
#[local] Hint Extern 2 (calmOn _ (this _)) => apply calmOn_this : calm.
#[local] Hint Extern 2 (calmOn _ (transaction _ _ _)) => apply calmOn_transaction : calm.
#[local] Hint Extern 2 (calmOn _ (if ?b then _ else _)) => destruct b : calm.
#[local] Hint Extern 2 (quietDb (outboxEvent.create _ _)) =>
  apply quietDb_create; reflexivity : calm.

Lemma cancelWhere_unpublished eventId_ r : cancelWhere eventId_ r = true -> published r = false.
Proof. by intros [_ ?]%cancelWhere_true. Qed.

Lemma retryWhere_unpublished config eventIds r :
  retryWhere config eventIds r = true -> published r = false.
Proof.
  unfold retryWhere. rewrite !andb_true_iff, negb_true_iff. tauto.
Qed.

(** [retryFailedEvents] leaves every row whose [retryCount] has reached the
    configured ceiling as it is. *)
Lemma retryFailedEvents_keeps_dead_letters config eventIds now p r :
  In r (rows (prisma p)) -> cfg_maxRetries config <= retryCount r ->
  In r (rows (prisma (snd (retryFailedEvents config eventIds now p)))).
Proof.
  intros Hin Hdead.
  unfold retryFailedEvents, outboxEvent.updateMany, spawnProcessOutboxEventsAsync. run_monad.
  destruct (roundTrip_cases (prisma p)) as [(_ & d & -> & Hr & _)|(e & d & _ & -> & Hr & _)];
    cbn [fst snd prisma rows setPrisma setRows].
  - assert (In r (writeRows now (retryWhere config eventIds)
                    {| ud_published := None; ud_publishedAt := None; ud_retryCount := Some 0;
                       ud_scheduledFor := Some now; ud_lastError := Some None |} (rows d))).
    { apply writeRows_other; [by rewrite Hr|]. unfold retryWhere.
      replace (retryCount r <? cfg_maxRetries config) with false by (symmetry; lia).
      by rewrite andb_false_r. }
    cbn [isProcessing setPrisma].
    by destruct (isProcessing p).
  - by rewrite Hr.
Qed.

Lemma publish_calm config event options now :
  calmOn (fun p => p) (publish config event options now).
Proof. unfold publish. eauto 40 with calm. Qed.

Lemma publishBatch_calm config events options now :
  calmOn (fun p => p) (publishBatch config events options now).
Proof.
  intros p o p' H. unfold publishBatch, batchTransaction, storeBatch, storeBatchEvent in H.
  destruct (tryCatch _ _ _) as [o1 [l1 p1]] eqn:E in H.
  lazymatch type of E with
  | ?c ?s = _ => assert (calmOn snd c) as Hb by eauto 40 with calm
  end.
  injection H as <- <-. apply (Hb _ _ _ E).
Qed.

Lemma publishAndWait_calm config event timeoutMs options now :
  calmOn (fun p => p) (publishAndWait config event timeoutMs options now).
Proof.
  unfold publishAndWait. apply calmOn_bind; [apply publish_calm | auto with calm].
Qed.

Lemma scheduleEvent_calm config event scheduleTime options now :
  calmOn (fun p => p) (scheduleEvent config event scheduleTime options now).
Proof. unfold scheduleEvent. eauto 40 with calm. Qed.

Lemma cancelScheduledEvent_calm eventId_ :
  calmOn (fun p => p) (cancelScheduledEvent eventId_).
Proof.
  unfold cancelScheduledEvent.
  apply calmOn_tryCatch; [|auto with calm].
  apply calmOn_bind; [|auto with calm].
  apply calmOn_db, quietDb_deleteMany, cancelWhere_unpublished.
Qed.

Lemma healthCheck_calm config now : calmOn (fun p => p) (healthCheck config now).
Proof. unfold healthCheck. eauto 40 with calm. Qed.

Lemma getFailedEvents_calm config limit offset :
  calmOn (fun p => p) (getFailedEvents config limit offset).
Proof. unfold getFailedEvents. eauto 40 with calm. Qed.

Lemma retryFailedEvents_calm config eventIds now :
  calmOn (fun p => p) (retryFailedEvents config eventIds now).
Proof.
  unfold retryFailedEvents.
  apply calmOn_tryCatch; [|auto with calm].
  apply calmOn_bind; [|eauto 40 with calm].
  apply calmOn_db, quietDb_updateMany; [|done..].
  apply retryWhere_unpublished.
Qed.

Lemma start_calm : calmOn (fun p => p) start.
Proof. unfold start. eauto 40 with calm. Qed.

Lemma stop_calm : calmOn (fun p => p) stop.
Proof. unfold stop. auto with calm. Qed.

Lemma registerDeliveryHandler_calm eventType_ handler :
  calmOn (fun p => p) (registerDeliveryHandler eventType_ handler).
Proof.
  unfold registerDeliveryHandler.
  apply (calmOn_setDeliveryHandlers (fun p => <[eventType_ := handler]> (deliveryHandlers p))).
Qed.

(** Every action other than the resumption of an invocation is calm. *)
Lemma exec_calm config a p :
  (forall i now, a <> Resume i now) -> calm p (exec config a p).
Proof.
  intros Ha.
  destruct a; cbn [exec];
    try match goal with
        | |- calm _ (snd (?c ?q)) =>
            let H := fresh in
            assert (calmOn (fun p => p) c) as H
              by first [ apply publish_calm | apply publishBatch_calm | apply publishAndWait_calm
                       | apply scheduleEvent_calm | apply cancelScheduledEvent_calm
                       | apply healthCheck_calm | apply getFailedEvents_calm
                       | apply retryFailedEvents_calm | apply start_calm | apply stop_calm
                       | apply registerDeliveryHandler_calm ];
            destruct (c q) as [? ?] eqn:E; exact (H _ _ _ E)
        end.
  - destruct (processingTimer p); [|apply calm_refl].
    destruct (spawnProcessOutboxEventsAsync p) as [? ?] eqn:E. exact (calmOn_spawn _ _ _ E).
  - by destruct (Ha i now).
Qed.

(** *** Single flight *)

Lemma setPrisma_same p : setPrisma (prisma p) p = p.
Proof. by destruct p. Qed.

Lemma setIsProcessing_same p : setIsProcessing (isProcessing p) p = p.
Proof. by destruct p. Qed.

Lemma classic_resume a : (exists i now, a = Resume i now) \/ (forall i now, a <> Resume i now).
Proof. destruct a; try (right; discriminate). left. eauto. Qed.

Lemma filter_lookup_pos {A} (f : A -> bool) (l : list A) i a :
  l !! i = Some a -> f a = true -> (1 <= length (List.filter f l))%nat.
Proof.
  revert i. induction l as [|x l IH]; intros [|i] H Hf; try done.
  - injection H as ->. cbn [List.filter]. rewrite Hf. cbn [length]. lia.
  - specialize (IH _ H Hf). cbn [List.filter]. destruct (f x); cbn [length]; lia.
Qed.

Lemma filter_lookup_unique {A} (f : A -> bool) (l : list A) i j a b :
  (length (List.filter f l) <= 1)%nat ->
  l !! i = Some a -> f a = true -> l !! j = Some b -> f b = true -> i = j.
Proof.
  revert i j. induction l as [|x l IH]; intros [|i] [|j] Hlen Hi Ha Hj Hb; try done.
  - injection Hi as ->. cbn [List.filter] in Hlen. rewrite Ha in Hlen. cbn [length] in Hlen.
    pose proof (filter_lookup_pos f l j b Hj Hb). lia.
  - injection Hj as ->. cbn [List.filter] in Hlen. rewrite Hb in Hlen. cbn [length] in Hlen.
    pose proof (filter_lookup_pos f l i a Hi Ha). lia.
  - f_equal. apply (IH i j); try done.
    cbn [List.filter] in Hlen. destruct (f x); cbn [length] in Hlen; lia.
Qed.

Lemma filter_insert_length {A} (f : A -> bool) (l : list A) i a b :
  l !! i = Some a ->
  (length (List.filter f (<[i := b]> l)) + (if f a then 1 else 0)
   = length (List.filter f l) + (if f b then 1 else 0))%nat.
Proof.
  revert i. induction l as [|x l IH]; intros [|i] H; try done.
  - injection H as ->. cbn [insert list_insert List.filter].
    destruct (f a), (f b); cbn [length]; lia.
  - specialize (IH _ H). change (<[S i := b]> (x :: l)) with (x :: <[i := b]> l).
    cbn [List.filter]. destruct (f x); cbn [length]; lia.
Qed.

Lemma singleFlight_flag p i t :
  singleFlight p -> ticks p !! i = Some t -> tickActive t = true ->
  isProcessing p = true /\ activeTicks p = 1%nat.
Proof.
  unfold singleFlight, activeTicks. intros Hs Hi Ht.
  pose proof (filter_lookup_pos tickActive _ _ _ Hi Ht).
  destruct (isProcessing p); [done | lia].
Qed.

Lemma singleFlight_unique p i j ti tj :
  singleFlight p ->
  ticks p !! i = Some ti -> tickActive ti = true ->
  ticks p !! j = Some tj -> tickActive tj = true -> i = j.
Proof.
  intros Hs Hi Hti Hj Htj. eapply filter_lookup_unique; try done.
  unfold singleFlight, activeTicks in Hs. rewrite Hs. destruct (isProcessing p); lia.
Qed.

Lemma singleFlight_finish p i t d :
  singleFlight p -> ticks p !! i = Some t -> tickActive t = true ->
  singleFlight (finishTick i (setPrisma d p)).
Proof.
  intros Hs Hi Ht. destruct (singleFlight_flag _ _ _ Hs Hi Ht) as [_ Hone].
  unfold singleFlight, activeTicks, finishTick in *. cbn.
  pose proof (filter_insert_length tickActive (ticks p) i t TickDone Hi) as H.
  rewrite Ht in H. cbn in H. lia.
Qed.

Lemma singleFlight_continue p i t d pending :
  singleFlight p -> ticks p !! i = Some t -> tickActive t = true ->
  singleFlight (setTicks (<[i := TickDispatch pending]> (ticks p)) (setPrisma d p)).
Proof.
  intros Hs Hi Ht. destruct (singleFlight_flag _ _ _ Hs Hi Ht) as [Hflag Hone].
  unfold singleFlight, activeTicks in *. cbn. rewrite Hflag.
  pose proof (filter_insert_length tickActive (ticks p) i t (TickDispatch pending) Hi) as H.
  rewrite Ht in H. cbn in H. lia.
Qed.

Lemma resumeTick_singleFlight config i now p :
  singleFlight p -> singleFlight (resumeTick config i now p).
Proof.
  intros Hs. unfold resumeTick.
  destruct (ticks p !! i) as [[| |[|q rest]|]|] eqn:E; try done.
  - destruct (findPendingEvents config now (prisma p)) as [[[|q rest]|e] d].
    + by eapply singleFlight_finish.
    + by eapply singleFlight_continue.
    + by eapply singleFlight_finish.
  - rewrite <- (setPrisma_same p). by eapply singleFlight_finish.
  - destruct (processOutboxEvent _ _ _ _ _) as [[[]|e] d].
    + destruct rest; [by eapply singleFlight_finish | by eapply singleFlight_continue].
    + by eapply singleFlight_finish.
Qed.

Lemma exec_singleFlight config a p : singleFlight p -> singleFlight (exec config a p).
Proof.
  intros Hs.
  destruct (classic_resume a) as [(i & now & ->)|Ha].
  - by apply resumeTick_singleFlight.
  - by apply (exec_calm config a p Ha).
Qed.

Lemma run_singleFlight config trace p : singleFlight p -> singleFlight (run config trace p).
Proof.
  revert p. induction trace as [|a trace IH]; intros p Hs; cbn; [done|].
  apply IH. by apply exec_singleFlight.
Qed.

(** An invocation that is not in flight stays as it is. *)
Lemma exec_inactive_final config a p i t :
  ticks p !! i = Some t -> tickActive t = false -> ticks (exec config a p) !! i = Some t.
Proof.
  intros Hi Ht. destruct (classic_resume a) as [(j & now & ->)|Ha].
  - cbn [exec]. unfold resumeTick, finishTick.
    destruct (decide (j = i)) as [->|Hne].
    + rewrite Hi. by destruct t.
    + repeat (match goal with
              | |- context [match ?x with _ => _ end] => destruct x
              end; cbn [ticks setTicks setPrisma setIsProcessing]);
        try done; by rewrite list_lookup_insert_ne.
  - destruct (exec_calm config a p Ha) as [_ [_ (extra & -> & _)]].
    by apply lookup_app_l_Some.
Qed.

Lemma run_inactive_final config trace p i t :
  ticks p !! i = Some t -> tickActive t = false -> ticks (run config trace p) !! i = Some t.
Proof.
  revert p. induction trace as [|a trace IH]; intros p Hi Ht; cbn; [done|].
  apply IH; [|done]. by apply exec_inactive_final.
Qed.

Lemma singleFlight_new d : singleFlight (newPublisher d).
Proof. reflexivity. Qed.

(** C5. In every state a publisher reaches from its construction, through
    any interleaving of method calls, timer firings and resumptions of
    suspended invocations of [processOutboxEventsAsync]: [isProcessing] is
    set exactly when one invocation is in flight and no two invocations are
    ever in flight together, so no two of them hold rows for dispatch at the
    same time. While [isProcessing] is set, a request (the call the timer,
    [publish], [publishBatch] and [retryFailedEvents] all make) returns at
    the guard, leaving the table and the flag as they were, and that
    invocation never queries or dispatches afterwards; whatever method is
    called or whenever the timer fires in such a state, the flag stays set
    and only skipped invocations are added. *)
Theorem poll_is_single_flight config d trace :
  let p := run config trace (newPublisher d) in
  singleFlight p
  /\ (forall i j ti tj,
        ticks p !! i = Some ti -> ticks p !! j = Some tj ->
        tickActive ti = true -> tickActive tj = true -> i = j)
  /\ (forall i j claimed_i claimed_j,
        ticks p !! i = Some (TickDispatch claimed_i) ->
        ticks p !! j = Some (TickDispatch claimed_j) -> i = j)
  /\ (isProcessing p = true ->
      let p' := snd (spawnProcessOutboxEventsAsync p) in
      prisma p' = prisma p
      /\ isProcessing p' = true
      /\ ticks p' = ticks p ++ [TickSkipped]
      /\ forall trace', ticks (run config trace' p') !! length (ticks p) = Some TickSkipped)
  /\ (isProcessing p = true ->
      forall a, (forall i now, a <> Resume i now) ->
        isProcessing (exec config a p) = true
        /\ exists skipped,
             ticks (exec config a p) = ticks p ++ skipped
             /\ Forall (fun t => t = TickSkipped) skipped)
  /\ (forall i now t,
        ticks p !! i = Some t -> tickActive t = false -> resumeTick config i now p = p).
Proof.
  intros p.
  assert (singleFlight p) as Hs by apply run_singleFlight, singleFlight_new.
  split; [done|]. split; [|split; [|split; [|split]]].
  - intros i j ti tj Hi Hj Hti Htj. by eapply singleFlight_unique.
  - intros i j ci cj Hi Hj. by eapply singleFlight_unique.
  - intros Hflag. unfold spawnProcessOutboxEventsAsync. run_monad. rewrite Hflag.
    cbn. split; [done|]. split; [done|]. split; [done|].
    intros trace'. apply run_inactive_final; [|done].
    cbn. by rewrite lookup_app_r, Nat.sub_diag.
  - intros Hflag a Ha.
    destruct (exec_calm config a p Ha) as [_ (_ & extra & Ht & _ & Hbusy)].
    destruct (Hbusy Hflag). eauto.
  - intros i now t Hi Ht. unfold resumeTick. rewrite Hi. by destruct t.
Qed.

(** *** Published rows are frozen *)

Lemma calm_published p p' r :
  calm p p' -> In r (rows (prisma p)) -> published r = true -> In r (rows (prisma p')).
Proof. intros [(_ & _ & Hp) _] Hin Hr. by apply Hp. Qed.

Lemma calm_invariant p p' : calm p p' -> invariant p -> invariant p'.
Proof.
  intros [(_ & Hw & Hp) (Hs & extra & Ht & Hx & _)] (Iw & Is & Ic).
  split; [tauto|]. split; [tauto|].
  intros i pending Hi. rewrite Ht in Hi. apply lookup_app_Some in Hi as [Hi|[_ Hi]].
  - destruct (Ic i pending Hi) as [Hnd Hun]. split; [done|].
    intros q r Hq Hr Hid. destruct (published r) eqn:E; [|done].
    apply Hp in Hr; [|done]. rewrite <- E. by eapply Hun.
  - rewrite Forall_lookup in Hx. by destruct (Hx _ _ Hi).
Qed.

(** What a dispatch does to the table: nothing, or one write to the rows
    with the key of the dispatched row, which either publishes them with
    their [publishedAt] or leaves both columns alone. *)
Lemma processOutboxEvent_effect config handlers now q s o s' :
  processOutboxEvent config handlers now q s = (o, s') ->
  nextId s' = nextId s
  /\ (rows s' = rows s
      \/ exists data,
           rows s' = writeRows now (hasId (id q)) data (rows s)
           /\ ((ud_published data = Some true /\ ud_publishedAt data = Some (Some now))
               \/ (ud_published data = None /\ ud_publishedAt data = None))).
Proof.
  unfold processOutboxEvent, invokeHandler. intros H. run_monad.
  destruct (default defaultEventHandler _ _) as [e|]; run_monad.
  - match type of H with
    | outboxEvent.update ?n ?k ?data ?s = _ =>
        destruct (update_cases n k data s) as (o1 & s1 & E & Hk & Hcase)
    end.
    rewrite E in H. injection H as <- <-. split; [done|].
    destruct Hcase as [(_ & _ & _ & Hr)|(e' & _ & Hr & _)]; [|by left].
    right. eexists. split; [exact Hr|]. right. done.
  - match type of H with
    | match outboxEvent.update ?n ?k ?data ?s with _ => _ end = _ =>
        destruct (update_cases n k data s) as (o1 & s1 & E & Hk & Hcase)
    end.
    rewrite E in H.
    destruct Hcase as [(-> & _ & _ & Hr)|(e' & -> & Hr & _)].
    + injection H as <- <-. split; [done|]. right. eexists. split; [exact Hr|]. left. done.
    + match type of H with
      | outboxEvent.update ?n ?k ?data ?s = _ =>
          destruct (update_cases n k data s) as (o2 & s2 & E2 & Hk2 & Hcase2)
      end.
      rewrite E2 in H. injection H as <- <-. split; [lia|].
      destruct Hcase2 as [(_ & _ & _ & Hr2)|(e2 & _ & Hr2 & _)].
      * right. eexists. rewrite Hr2, Hr. split; [reflexivity|]. right. done.
      * left. by rewrite Hr2.
Qed.

(** A dispatch of a row whose key only unpublished rows carry keeps the
    table well formed and leaves every row with another key, and so every
    published row, as it is. *)
Lemma processOutboxEvent_frame config handlers now q s o s' :
  processOutboxEvent config handlers now q s = (o, s') ->
  wfStore s ->
  (forall r, In r (rows s) -> id r = id q -> published r = false) ->
  wfStore s'
  /\ (forall r, In r (rows s) -> published r = true -> In r (rows s'))
  /\ (forall r', In r' (rows s') -> id r' <> id q -> In r' (rows s)).
Proof.
  intros H (Hnd & Hfresh & Hpub) Hun.
  destruct (processOutboxEvent_effect _ _ _ _ _ _ _ H) as [Hk [Hr|(data & Hr & Hdata)]].
  { unfold wfStore. rewrite Hr, Hk. repeat split; done. }
  split; [|split].
  - unfold wfStore. rewrite Hr, Hk, writeRows_ids. repeat split; [done|..].
    + intros r' (r & Hin & ->)%writeRows_In. apply Hfresh in Hin.
      by destruct (hasId (id q) r).
    + intros r' (r & Hin & ->)%writeRows_In.
      destruct (hasId (id q) r) eqn:E; [|by apply Hpub].
      destruct Hdata as [[Hd1 Hd2]|[Hd1 Hd2]]; cbn; rewrite Hd1, Hd2; cbn; [by eauto|].
      intros Hp. apply hasId_true in E. rewrite (Hun r Hin E) in Hp. done.
  - intros r Hin Hp. rewrite Hr. apply writeRows_other; [done|].
    apply hasId_false. intros Hid. rewrite (Hun r Hin Hid) in Hp. done.
  - intros r' Hin Hid. rewrite Hr in Hin. apply writeRows_In in Hin as (r & Hin & ->).
    destruct (hasId (id q) r) eqn:E; [|done].
    apply hasId_true in E. by destruct Hid.
Qed.

Lemma NoDup_map_inj {A B} (f : A -> B) (l : list A) x y :
  List.NoDup (List.map f l) -> In x l -> In y l -> f x = f y -> x = y.
Proof.
  induction l as [|a l IH]; cbn [List.map]; intros Hnd Hx Hy Hf; [destruct Hx|].
  inversion Hnd as [|? ? Hnotin Hnd']; subst.
  destruct Hx as [->|Hx], Hy as [->|Hy]; try done.
  - destruct Hnotin. rewrite Hf. by apply in_map.
  - destruct Hnotin. rewrite <- Hf. by apply in_map.
  - by apply IH.
Qed.

Lemma NoDup_take {A} (l : list A) n : List.NoDup l -> List.NoDup (take n l).
Proof.
  intros H. rewrite <- (firstn_skipn n l) in H. by apply List.NoDup_app_remove_r in H.
Qed.

(** The rows a poll selects have pairwise distinct keys when the table
    has. *)
Lemma findPendingEvents_NoDup config now s pendingEvents_ s' :
  findPendingEvents config now s = (Resolved pendingEvents_, s') ->
  List.NoDup (List.map id (rows s)) ->
  List.NoDup (List.map id pendingEvents_).
Proof.
  intros H Hnd.
  destruct (findPendingEvents_cases config now s) as (o & s'' & E & _ & _ & Hcase).
  rewrite E in H. injection H as -> ->.
  destruct Hcase as [(_ & [= ->])|(e & _ & [=])].
  rewrite <- firstn_map. apply NoDup_take.
  eapply Permutation_NoDup.
  - symmetry. apply Permutation_map, merge_sort_Permutation.
  - by apply NoDup_map_filter.
Qed.

Lemma claims_insert p i t d :
  claimsUnpublished p ->
  (forall j tj, j <> i -> ticks p !! j = Some tj -> notDispatching tj
                \/ forall pending, tj = TickDispatch pending ->
                     forall q r, In q pending -> In r (rows d) -> id r = id q ->
                                 published r = false) ->
  (forall pending, t = TickDispatch pending ->
     List.NoDup (List.map id pending)
     /\ forall q r, In q pending -> In r (rows d) -> id r = id q -> published r = false) ->
  forall b, claimsUnpublished
              (setTicks (<[i := t]> (ticks p)) (setIsProcessing b (setPrisma d p))).
Proof.
  intros Hc Hother Hnew b j pending Hj. cbn [ticks setTicks prisma setPrisma setIsProcessing] in *.
  destruct (decide (j = i)) as [->|Hne].
  - apply list_lookup_insert_Some in Hj as [(_ & Heq & _)|[? _]]; [|done]. by apply Hnew.
  - rewrite list_lookup_insert_ne in Hj by done.
    destruct (Hc j pending Hj) as [Hnd _]. split; [done|].
    destruct (Hother j _ Hne Hj) as [[]|H]. by apply H.
Qed.

(** Resuming an invocation keeps the invariant and every published row. *)
Lemma resumeTick_invariant config i now p :
  invariant p ->
  invariant (resumeTick config i now p)
  /\ (forall r, In r (rows (prisma p)) -> published r = true ->
                In r (rows (prisma (resumeTick config i now p)))).
Proof.
  intros (Iw & Is & Ic).
  assert (singleFlight (resumeTick config i now p)) as Is'
    by (by apply resumeTick_singleFlight).
  revert Is'. unfold resumeTick.
  destruct (ticks p !! i) as [t|] eqn:Hi; [|by intros _; split].
  (* the other invocations hold no rows: only one is in flight *)
  assert (tickActive t = true ->
          forall j tj, j <> i -> ticks p !! j = Some tj -> notDispatching tj) as Hothers.
  { intros Ht j tj Hne Hj. destruct tj; try done.
    destruct Hne. by eapply (singleFlight_unique p j i). }
  destruct t as [| |[|q rest]|]; try (by intros _; split).
  - (* the query answers *)
    destruct (findPendingEvents_cases config now (prisma p))
      as (o & d & E & Hr & Hk & Hcase). rewrite E.
    assert (wfStore d) as Iw' by (by apply (wfStore_same (prisma p))).
    assert (forall b t', notDispatching t' ->
              claimsUnpublished
                (setTicks (<[i := t']> (ticks p)) (setIsProcessing b (setPrisma d p)))) as Hfin.
    { intros b t' Ht'. apply claims_insert; [done| |by intros ? ->].
      intros j tj Hne Hj. left. by eapply Hothers. }
    destruct o as [[|q rest]|e]; intros Is'.
    + split; [|by unfold finishTick; cbn; rewrite Hr].
      split; [done|]. split; [done|]. by apply Hfin.
    + split; [|by cbn; rewrite Hr]. split; [done|]. split; [done|].
      rewrite <- (setIsProcessing_same (setPrisma d p)).
      apply claims_insert; [done| |].
      * intros j tj Hne Hj. left. by eapply Hothers.
      * intros pending [= <-]. destruct Iw as (Hnd & _).
        split; [by eapply findPendingEvents_NoDup|].
        intros q' r Hq' Hin Hid. rewrite Hr in Hin.
        destruct (findPendingEvents_In _ _ _ _ _ _ E Hq') as [Hq'in Hw].
        apply pendingWhere_true in Hw as [Hp _].
        by rewrite (NoDup_map_inj id (rows (prisma p)) r q' Hnd Hin Hq'in Hid).
    + split; [|by unfold finishTick; cbn; rewrite Hr].
      split; [done|]. split; [done|]. by apply Hfin.
  - (* an empty claim: the invocation ends *)
    intros Is'. split; [|done]. split; [done|]. split; [done|].
    replace (finishTick i p) with (finishTick i (setPrisma (prisma p) p))
      by (by rewrite setPrisma_same).
    apply (claims_insert p i TickDone (prisma p)); [done| |by intros ? [=]].
    intros j tj Hne Hj. left. by eapply Hothers.
  - (* the next row is dispatched *)
    destruct (Ic i _ Hi) as [Hnd Hun].
    destruct (processOutboxEvent config (deliveryHandlers p) now q (prisma p))
      as [o d] eqn:E.
    destruct (processOutboxEvent_frame _ _ _ _ _ _ _ E Iw) as (Iw' & Hkeep & Hback).
    { intros r Hin Hid. eapply Hun; [by left|done..]. }
    assert (forall b t',
              (forall pending, t' = TickDispatch pending -> pending = rest) ->
              claimsUnpublished
                (setTicks (<[i := t']> (ticks p)) (setIsProcessing b (setPrisma d p)))) as Hfin.
    { intros b t' Ht'. apply claims_insert; [done| |].
      - intros j tj Hne Hj. left. by eapply Hothers.
      - intros pending ->%Ht'. cbn [List.map] in Hnd.
        inversion Hnd as [|? ? Hnotin Hnd']; subst. split; [done|].
        intros q' r Hq' Hin Hid. eapply Hun; [by right | | done].
        apply Hback; [done|]. rewrite Hid. intros Heq. apply Hnotin.
        rewrite <- Heq. by apply in_map. }
    assert (invariant (finishTick i (setPrisma d p))) as Hdone.
    { split; [done|]. split; [by eapply singleFlight_finish|].
      apply Hfin. by intros ? [=]. }
    destruct o as [[]|e]; [destruct rest as [|q' rest]|]; intros Is'.
    + split; [done|]. exact Hkeep.
    + split; [|exact Hkeep]. split; [done|]. split; [done|].
      rewrite <- (setIsProcessing_same (setPrisma d p)). apply Hfin. by intros ? [= <-].
    + split; [done|]. exact Hkeep.
Qed.

Lemma exec_invariant config a p :
  invariant p ->
  invariant (exec config a p)
  /\ (forall r, In r (rows (prisma p)) -> published r = true ->
                In r (rows (prisma (exec config a p)))).
Proof.
  intros Hinv. destruct (classic_resume a) as [(i & now & ->)|Ha].
  - by apply resumeTick_invariant.
  - pose proof (exec_calm config a p Ha) as Hcalm. split.
    + by eapply calm_invariant.
    + intros r. by apply calm_published.
Qed.

Lemma run_invariant config trace p :
  invariant p ->
  invariant (run config trace p)
  /\ (forall r, In r (rows (prisma p)) -> published r = true ->
                In r (rows (prisma (run config trace p)))).
Proof.
  revert p. induction trace as [|a trace IH]; intros p Hinv; cbn; [done|].
  destruct (exec_invariant config a p Hinv) as [Hinv' Hkeep].
  destruct (IH _ Hinv') as [Hinv'' Hkeep']. split; [done|].
  intros r Hin Hp. apply Hkeep'; [|done]. by apply Hkeep.
Qed.

Lemma invariant_new d : wfStore d -> invariant (newPublisher d).
Proof.
  intros Hw. split; [done|]. split; [reflexivity|]. intros i pending Hi. done.
Qed.

(** C9. Starting from a well-formed table, along every run of the
    publisher (method calls, among them [retryFailedEvents] and
    [cancelScheduledEvent], timer firings and the steps of the poll, in any
    interleaving): a row that is published at some point is still in the
    table, with every column as it was, at every later point; and at every
    point each row is either unpublished or published with its
    [publishedAt] set. *)
Theorem published_rows_are_frozen config d before after :
  wfStore d ->
  let p1 := run config before (newPublisher d) in
  let p2 := run config after p1 in
  (forall r, In r (rows (prisma p1)) -> published r = true -> In r (rows (prisma p2)))
  /\ (forall a r, In r (rows (prisma p1)) -> published r = true ->
                  In r (rows (prisma (exec config a p1))))
  /\ (forall r, In r (rows (prisma p2)) ->
                published r = false
                \/ (published r = true /\ exists t, publishedAt r = Some t)).
Proof.
  intros Hw p1 p2.
  destruct (run_invariant config before (newPublisher d) (invariant_new d Hw)) as [Hinv1 _].
  destruct (run_invariant config after p1 Hinv1) as [((_ & _ & Hpub) & _) Hkeep].
  split; [exact Hkeep|]. split.
  - intros a. by apply exec_invariant.
  - intros r Hin. destruct (published r) eqn:E; [right | by left].
    split; [done|]. by apply Hpub.
Qed.

Lemma wfStore_empty : wfStore emptyStore.
Proof. repeat split; [constructor | intros ? [] | intros ? []]. Defined.

Lemma published_rows_are_frozen_witness :
  wfStore emptyStore
  /\ (exists r, rows (prisma (run defaultConfig deliveredTrace (newPublisher emptyStore))) = [r]
                /\ published r = true)
  /\ forall r,
       In r (rows (prisma (run defaultConfig deliveredTrace (newPublisher emptyStore)))) ->
       published r = true ->
       In r (rows (prisma (run defaultConfig recoveryTrace
                             (run defaultConfig deliveredTrace (newPublisher emptyStore))))).
Proof.
  split; [exact wfStore_empty|]. split.
  - eexists. split; reflexivity.
  - exact (proj1 (published_rows_are_frozen defaultConfig emptyStore deliveredTrace
                    recoveryTrace wfStore_empty)).
Defined.

(** *** A poll that is not interrupted *)

Lemma run_cons config a trace p :
  run config (a :: trace) p = run config trace (exec config a p).
Proof. reflexivity. Qed.

Lemma resume_finished config i now n p :
  ticks p !! i = Some TickDone -> run config (replicate n (Resume i now)) p = p.
Proof.
  intros Hi. induction n as [|n IH]; [done|].
  cbn [replicate]. rewrite run_cons. cbn [exec]. unfold resumeTick. by rewrite Hi.
Qed.

Lemma finishTick_lookup i p t :
  ticks p !! i = Some t -> ticks (finishTick i p) !! i = Some TickDone.
Proof.
  intros Hi. unfold finishTick. cbn [ticks setTicks].
  apply list_lookup_insert_eq. by eapply lookup_lt_Some.
Qed.

(** Resuming an invocation that holds the rows [pending], with nothing else
    happening in between, runs the loop of [processOutboxEvents] over
    them. *)
Lemma resume_dispatch_loop config i now pending :
  forall p n,
    pending <> [] ->
    ticks p !! i = Some (TickDispatch pending) ->
    (length pending <= n)%nat ->
    let p' := run config (replicate n (Resume i now)) p in
    prisma p' = snd (forEach pending (processOutboxEvent config (deliveryHandlers p) now)
                       (prisma p))
    /\ ticks p' = <[i := TickDone]> (ticks p)
    /\ isProcessing p' = false
    /\ deliveryHandlers p' = deliveryHandlers p
    /\ processingTimer p' = processingTimer p.
Proof.
  induction pending as [|q rest IH]; intros p n Hne Hi Hn; [done|].
  destruct n as [|n]; [cbn in Hn; lia|].
  cbn [replicate forEach]. rewrite run_cons. cbn [exec]. run_monad.
  unfold resumeTick. rewrite Hi.
  destruct (processOutboxEvent config (deliveryHandlers p) now q (prisma p)) as [[[]|e] d].
  - destruct rest as [|q' rest].
    + rewrite resume_finished by (by eapply (finishTick_lookup i (setPrisma d p))). done.
    + match goal with
      | |- context [run _ _ ?p1] =>
          destruct (IH p1 n) as (H1 & H2 & H3 & H4 & H5);
            [done | | cbn in Hn |- *; lia |]
      end.
      { cbn [ticks setTicks]. apply list_lookup_insert_eq. by eapply lookup_lt_Some. }
      cbn [prisma ticks deliveryHandlers processingTimer setTicks setPrisma] in *.
      rewrite H1, H2, H3, H4, H5, list_insert_insert_eq. done.
  - rewrite resume_finished by (by eapply (finishTick_lookup i (setPrisma d p))). done.
Qed.

(** Resuming a fresh invocation until it ends, with nothing else happening
    in between, computes [processOutboxEvents]: the step-wise poll and the
    method agree. *)
Lemma uninterrupted_poll config i now p n :
  ticks p !! i = Some TickQuery ->
  (batchSize config < n)%nat ->
  let p' := run config (replicate n (Resume i now)) p in
  prisma p' = snd (processOutboxEvents config (deliveryHandlers p) now (prisma p))
  /\ ticks p' = <[i := TickDone]> (ticks p)
  /\ isProcessing p' = false.
Proof.
  intros Hi Hn. destruct n as [|n]; [lia|].
  cbn [replicate]. rewrite run_cons. cbn [exec]. unfold resumeTick. rewrite Hi.
  unfold processOutboxEvents. run_monad.
  destruct (findPendingEvents config now (prisma p)) as [[pendingEvents_|e] d] eqn:E.
  - destruct pendingEvents_ as [|q rest].
    + rewrite resume_finished by (by eapply (finishTick_lookup i (setPrisma d p))). done.
    + destruct (findPendingEvents_selected _ _ _ _ _ E) as (_ & _ & Hlen & _).
      match goal with
      | |- context [run _ _ ?p1] =>
          destruct (resume_dispatch_loop config i now (q :: rest) p1 n)
            as (H1 & H2 & H3 & _); [done | | lia |]
      end.
      { cbn [ticks setTicks]. apply list_lookup_insert_eq. by eapply lookup_lt_Some. }
      cbn [prisma ticks deliveryHandlers setTicks setPrisma] in *.
      rewrite H1, H2, H3, list_insert_insert_eq. cbn [length Nat.eqb].
      split; [|done].
      by destruct (forEach (q :: rest) _ d) as [[[]|?] ?].
  - rewrite resume_finished by (by eapply (finishTick_lookup i (setPrisma d p))). done.
Qed.

(** A call of [processOutboxEventsAsync] that finds the flag down and runs
    to its end without interruption does what the method does. *)
Lemma uninterrupted_processOutboxEventsAsync config now p n :
  isProcessing p = false ->
  (batchSize config < n)%nat ->
  let p' := run config (replicate n (Resume (length (ticks p)) now))
                (snd (spawnProcessOutboxEventsAsync p)) in
  prisma p' = prisma (snd (processOutboxEventsAsync config now p))
  /\ isProcessing p' = isProcessing (snd (processOutboxEventsAsync config now p))
  /\ isProcessing p' = false
  /\ ticks p' = ticks p ++ [TickDone].
Proof.
  intros Hflag Hn.
  destruct (uninterrupted_poll config (length (ticks p)) now
              (snd (spawnProcessOutboxEventsAsync p)) n) as (H1 & H2 & H3); [|done|].
  { unfold spawnProcessOutboxEventsAsync. run_monad. rewrite Hflag. cbn [ticks setTicks].
    by rewrite lookup_app_r, Nat.sub_diag. }
  cbn zeta. rewrite H1, H2, H3.
  unfold processOutboxEventsAsync, spawnProcessOutboxEventsAsync. run_monad. rewrite Hflag.
  cbn [prisma ticks deliveryHandlers isProcessing setTicks setIsProcessing setPrisma].
  destruct (processOutboxEvents config (deliveryHandlers p) now (prisma p)) as [o d].
  cbn [fst snd prisma isProcessing setIsProcessing setPrisma].
  repeat split.
  rewrite insert_app_r_alt by done. by rewrite Nat.sub_diag.
Qed.

(* ===================================================================== *)
(** ** Further properties of the publisher *)
(* ===================================================================== *)

(** *** The poll *)

(** X1. When the store answers, the query of a poll leaves the table as it
    is and returns unpublished rows that are due ([scheduledFor <= now])
    with [retryCount] below the configured ceiling, sorted by ascending
    [scheduledFor], at most [batchSize] of them; every due row it leaves
    out is scheduled no earlier than every row it returns, and when it
    returns fewer than [batchSize] rows it returns every due row. *)
Theorem poll_selects_earliest_due_rows config now s :
  nextFault s = None ->
  exists pendingEvents_ s',
    findPendingEvents config now s = (Resolved pendingEvents_, s')
    /\ rows s' = rows s
    /\ (forall q, In q pendingEvents_ ->
                  In q (rows s) /\ published q = false /\ scheduledFor q <= now
                  /\ retryCount q < cfg_maxRetries config)
    /\ StronglySorted byScheduledForAsc pendingEvents_
    /\ (length pendingEvents_ <= batchSize config)%nat
    /\ (forall q r, In q pendingEvents_ -> In r (rows s) ->
                    pendingWhere config now r = true -> ~ In r pendingEvents_ ->
                    scheduledFor q <= scheduledFor r)
    /\ ((length pendingEvents_ < batchSize config)%nat ->
        forall r, In r (rows s) -> published r = false -> scheduledFor r <= now ->
                  retryCount r < cfg_maxRetries config -> In r pendingEvents_).
Proof.
  intros Hn.
  destruct (findPendingEvents_cases config now s) as (o & s' & E & Hr & _ & Hcase).
  destruct Hcase as [(_ & ->)|(e & He & _)]; [|congruence].
  destruct (findPendingEvents_selected _ _ _ _ _ E) as (H1 & H2 & H3 & H4 & H5).
  do 2 eexists. split; [exact E|]. repeat split; try done; try (by apply H1).
  intros Hlt r Hin Hp Hs Hc. apply H5; [done..|]. by apply pendingWhere_true.
Qed.

Lemma poll_selects_earliest_due_rows_witness :
  exists s',
    findPendingEvents defaultConfig 200 oneRowStore = (Resolved [pendingRow], s')
    /\ rows s' = [pendingRow].
Proof.
  destruct (poll_selects_earliest_due_rows defaultConfig 200 oneRowStore eq_refl)
    as (l & s' & E & Hr & _).
  exists s'. split; [|exact Hr].
  rewrite E. f_equal. f_equal.
  assert (l = match fst (findPendingEvents defaultConfig 200 oneRowStore) with
              | Resolved x => x | Rejected _ => [] end) as -> by (by rewrite E).
  reflexivity.
Defined.

Lemma processOutboxEvents_resolves config handlers now s :
  exists s', processOutboxEvents config handlers now s = (Resolved tt, s').
Proof.
  unfold processOutboxEvents, tryCatch. unfold mbind at 1, St_bind.
  destruct (findPendingEvents config now s) as [[l|e] s1]; [|by eexists].
  destruct (length l =? 0)%nat; [by eexists|].
  destruct (forEach l _ s1) as [[[]|e] s2]; by eexists.
Qed.

(** X2. [processOutboxEventsAsync], run to its end, never rejects, whatever
    the store or the handlers do. Called while [isProcessing] is set it
    changes nothing at all; otherwise it ends with [isProcessing] down
    again, having touched only the table. *)
Theorem poll_never_rejects_and_releases_the_flag config now p :
  exists p',
    processOutboxEventsAsync config now p = (Resolved tt, p')
    /\ (isProcessing p = true -> p' = p)
    /\ (isProcessing p = false ->
        isProcessing p' = false
        /\ prisma p' = snd (processOutboxEvents config (deliveryHandlers p) now (prisma p)))
    /\ deliveryHandlers p' = deliveryHandlers p
    /\ processingTimer p' = processingTimer p
    /\ ticks p' = ticks p.
Proof.
  unfold processOutboxEventsAsync. run_monad.
  destruct (isProcessing p) eqn:Hflag.
  - eexists. split; [reflexivity|]. repeat split; done.
  - cbn [prisma deliveryHandlers setIsProcessing].
    destruct (processOutboxEvents_resolves config (deliveryHandlers p) now (prisma p))
      as (d & ->).
    eexists. split; [reflexivity|]. cbn. repeat split; done.
Qed.

Lemma update_healthy now key data s r :
  faults s = [] -> In r (rows s) -> id r = key ->
  outboxEvent.update now key data s
  = (Resolved tt, setRows (writeRows now (hasId key) data (rows s)) s).
Proof.
  intros Hf Hin Hid. unfold outboxEvent.update, roundTrip. run_monad. rewrite Hf.
  replace (existsb (hasId key) (rows s)) with true; [done|].
  symmetry. apply existsb_exists. exists r. by rewrite hasId_true.
Qed.

(** On a store that answers, a dispatch writes the rows with the key of the
    dispatched row and nothing else. *)
Lemma processOutboxEvent_healthy config handlers now q s :
  faults s = [] -> In q (rows s) ->
  exists s',
    processOutboxEvent config handlers now q s = (Resolved tt, s')
    /\ faults s' = [] /\ nextId s' = nextId s
    /\ In (dispatched config handlers now q) (rows s')
    /\ length (rows s') = length (rows s)
    /\ (forall r, In r (rows s) -> id r <> id q -> In r (rows s'))
    /\ (forall r', In r' (rows s') -> id r' <> id q -> In r' (rows s)).
Proof.
  intros Hf Hin. unfold processOutboxEvent, invokeHandler, dispatched, deliveryOutcome.
  destruct (default defaultEventHandler _ _) as [e|]; run_monad;
    erewrite update_healthy by done.
  all: eexists; split; [reflexivity|]; cbn [rows faults nextId setRows].
  all: split; [done|]; split; [done|]; split; [|split; [|split]].
  all: try (apply writeRows_In; exists q; split; [done|];
            unfold hasId; by rewrite Nat.eqb_refl).
  all: try apply writeRows_length.
  all: try (intros r Hr Hid; apply writeRows_other; [done|]; by apply hasId_false).
  all: intros r' (r & Hr & ->)%writeRows_In Hid;
    destruct (hasId (id q) r) eqn:E; [|done];
    apply hasId_true in E; by destruct Hid.
Qed.

Lemma forEach_dispatch_healthy config handlers now pending :
  forall s,
    faults s = [] ->
    List.NoDup (List.map id pending) ->
    (forall q, In q pending -> In q (rows s)) ->
    exists s',
      forEach pending (processOutboxEvent config handlers now) s = (Resolved tt, s')
      /\ faults s' = [] /\ nextId s' = nextId s
      /\ length (rows s') = length (rows s)
      /\ (forall q, In q pending -> In (dispatched config handlers now q) (rows s'))
      /\ (forall r, In r (rows s) -> ~ In (id r) (List.map id pending) -> In r (rows s'))
      /\ (forall r', In r' (rows s') -> ~ In (id r') (List.map id pending) -> In r' (rows s)).
Proof.
  induction pending as [|q rest IH]; intros s Hf Hnd Hin; cbn [forEach].
  - exists s. repeat split; try done.
  - cbn [List.map] in Hnd. inversion Hnd as [|? ? Hnotin Hnd']; subst.
    destruct (processOutboxEvent_healthy config handlers now q s Hf)
      as (s1 & E1 & Hf1 & Hk1 & Hq1 & Hlen1 & Hkeep1 & Hback1); [apply Hin; by left|].
    assert (forall r, In r rest -> id r <> id q) as Hne.
    { intros r Hr Heq. apply Hnotin. rewrite <- Heq. by apply in_map. }
    destruct (IH s1 Hf1 Hnd') as (s' & E & Hf' & Hk' & Hlen' & Hdone & Hkeep & Hback).
    { intros r Hr. apply Hkeep1; [apply Hin; by right | by apply Hne]. }
    exists s'. unfold mbind, St_bind. rewrite E1, E.
    split; [done|]. split; [done|]. split; [lia|]. split; [lia|].
    split; [|split].
    + intros r [<-|Hr]; [|by apply Hdone]. apply Hkeep; [done|].
      replace (id (dispatched config handlers now q)) with (id q); [done|].
      unfold dispatched. by destruct (deliveryOutcome _ _).
    + intros r Hr Hid. cbn [List.map] in Hid. apply Hkeep.
      * apply Hkeep1; [done|]. intros Heq. apply Hid. by left.
      * intros ?. apply Hid. by right.
    + intros r' Hr' Hid. cbn [List.map] in Hid. apply Hback1.
      * apply Hback; [done|]. intros ?. apply Hid. by right.
      * intros Heq. apply Hid. by left.
Qed.

(** X3. On a table with unique keys and a store that answers, a poll run to
    its end treats every selected row on its own: a row whose delivery
    resolves ends published with [publishedAt = now], a row whose delivery
    rejects ends unpublished with one more retry, rescheduled by the
    backoff of its old count and carrying the failure's message, and the
    failure of one delivery does not keep the rows after it from being
    dispatched. The rows the poll did not select, the dead-lettered ones
    among them, are left exactly as they were. *)
Theorem poll_isolates_delivery_failures config handlers now s :
  faults s = [] ->
  List.NoDup (List.map id (rows s)) ->
  exists pendingEvents_ s1 s',
    findPendingEvents config now s = (Resolved pendingEvents_, s1)
    /\ processOutboxEvents config handlers now s = (Resolved tt, s')
    /\ length (rows s') = length (rows s)
    /\ (forall q, In q pendingEvents_ ->
          exists r', In r' (rows s') /\ id r' = id q /\ eventId r' = eventId q
            /\ match deliveryOutcome handlers (eventData q) with
               | None =>
                   published r' = true /\ publishedAt r' = Some now
                   /\ retryCount r' = retryCount q /\ lastError r' = lastError q
               | Some error =>
                   published r' = false
                   /\ retryCount r' = retryCount q + 1
                   /\ scheduledFor r' = now + backoffDelay config (retryCount q)
                   /\ lastError r' = Some (errorMessage "Unknown error" error)
               end)
    /\ (forall r, In r (rows s) -> ~ In r pendingEvents_ -> In r (rows s'))
    /\ (forall r, In r (rows s) -> cfg_maxRetries config <= retryCount r -> In r (rows s')).
Proof.
  intros Hf Hnd.
  destruct (findPendingEvents_cases config now s) as (o & s1 & E & Hr1 & Hk1 & Hcase).
  assert (nextFault s = None) as Hn by (unfold nextFault; by rewrite Hf).
  destruct Hcase as [(_ & ->)|(e & He & _)]; [|congruence].
  set (pendingEvents_ := take _ _) in E.
  assert (faults s1 = []) as Hf1.
  { unfold findPendingEvents, outboxEvent.findMany, roundTrip in E. run_monad.
    rewrite Hf in E. by injection E as <-. }
  assert (forall q, In q pendingEvents_ -> In q (rows s1)) as Hin.
  { intros q Hq. rewrite Hr1. by eapply findPendingEvents_In. }
  assert (List.NoDup (List.map id pendingEvents_)) as Hndp
    by (by eapply findPendingEvents_NoDup).
  destruct (forEach_dispatch_healthy config handlers now pendingEvents_ s1 Hf1 Hndp Hin)
    as (s' & El & _ & _ & Hlen & Hdone & Hkeep & _).
  assert (forall r, In r (rows s) -> ~ In r pendingEvents_ -> In r (rows s')) as Hrest.
  { intros r Hr Hnot. apply Hkeep; [by rewrite Hr1|].
    intros (q & Hid & Hq)%in_map_iff. apply Hnot.
    replace r with q; [done|].
    apply (NoDup_map_inj id (rows s)); try done. rewrite <- Hr1. by apply Hin. }
  exists pendingEvents_, s1. 
  assert (exists s2, processOutboxEvents config handlers now s = (Resolved tt, s2)
                     /\ rows s2 = rows s') as (s2 & E2 & Hr2).
  { unfold processOutboxEvents, tryCatch. unfold mbind at 1, St_bind. rewrite E.
    destruct pendingEvents_ as [|q rest] eqn:Ep.
    - cbn. eexists. split; [reflexivity|]. cbn [forEach] in El. by injection El as <-.
    - cbn [length Nat.eqb]. rewrite El. by eexists. }
  exists s2. split; [done|]. split; [done|]. rewrite Hr2.
  split; [by rewrite Hlen, Hr1|]. split; [|split; [done|]].
  - intros q Hq. exists (dispatched config handlers now q). split; [by apply Hdone|].
    unfold dispatched. destruct (deliveryOutcome handlers (eventData q)); cbn; repeat split.
    destruct (findPendingEvents_In _ _ _ _ _ _ E Hq) as [_ Hw].
    by apply pendingWhere_true in Hw as [-> _].
  - intros r Hr Hdead. apply Hrest; [done|]. intros Hq.
    destruct (findPendingEvents_In _ _ _ _ _ _ E Hq) as [_ Hw].
    apply pendingWhere_true in Hw. lia.
Qed.

Lemma poll_isolates_delivery_failures_witness :
  exists s' r',
    processOutboxEvents defaultConfig {["student.enrolled" := failingHandler]} 200 oneRowStore
      = (Resolved tt, s')
    /\ In r' (rows s') /\ id r' = id pendingRow
    /\ published r' = false /\ retryCount r' = 1.
Proof.
  destruct (poll_isolates_delivery_failures defaultConfig
              {["student.enrolled" := failingHandler]} 200 oneRowStore)
    as (l & s1 & s' & E1 & E2 & _ & Hsel & _).
  - reflexivity.
  - repeat constructor. intros [].
  - destruct (Hsel pendingRow) as (r' & Hin & Hid & _ & Hout).
    + assert (l = match fst (findPendingEvents defaultConfig 200 oneRowStore) with
                  | Resolved x => x | Rejected _ => [] end) as -> by (by rewrite E1).
      left. reflexivity.
    + exists s', r'. split; [exact E2|]. split; [exact Hin|]. split; [exact Hid|].
      change (deliveryOutcome {["student.enrolled" := failingHandler]} (eventData pendingRow))
        with (Some (ErrorObj "webhook unreachable")) in Hout.
      destruct Hout as (H1 & H2 & _). split; [exact H1|]. exact H2.
Defined.

(** X4. When the handler of the first selected row rejects and the write
    of the retry bookkeeping then fails at the store, the dispatch itself
    rejects; the poll swallows the rejection and ends there: it resolves
    with the table exactly as it was, so the rows selected after the failing
    one are not dispatched in this poll. *)
Theorem poll_stops_when_retry_write_fails config handlers now s s1 q rest error e :
  findPendingEvents config now s = (Resolved (q :: rest), s1) ->
  deliveryOutcome handlers (eventData q) = Some error ->
  nextFault s1 = Some e ->
  (exists s2, processOutboxEvent config handlers now q s1 = (Rejected e, s2))
  /\ exists s', processOutboxEvents config handlers now s = (Resolved tt, s')
                /\ rows s' = rows s.
Proof.
  intros E Hh Hn.
  destruct (findPendingEvents_cases config now s) as (o & s1' & E' & Hr1 & _ & _).
  rewrite E in E'. injection E' as <- <-.
  assert (exists s2, processOutboxEvent config handlers now q s1 = (Rejected e, s2)
                     /\ rows s2 = rows s1) as (s2 & Eq & Hr2).
  { unfold processOutboxEvent, invokeHandler. unfold deliveryOutcome in Hh. rewrite Hh.
    run_monad. unfold outboxEvent.update. run_monad.
    destruct (roundTrip_cases s1) as [(Hn' & _)|(e' & s2 & Hn' & -> & Hr & _)];
      [congruence|].
    replace e' with e by congruence. by eexists. }
  split; [by eexists|].
  unfold processOutboxEvents, tryCatch. unfold mbind at 1, St_bind. rewrite E.
  cbn [length Nat.eqb forEach]. unfold mbind, St_bind. rewrite Eq.
  eexists. split; [reflexivity|]. by rewrite Hr2.
Qed.

Lemma poll_stops_when_retry_write_fails_witness :
  exists s',
    processOutboxEvents defaultConfig {["student.enrolled" := failingHandler]} 200
      failsAfterQuery = (Resolved tt, s')
    /\ rows s' = [pendingRow].
Proof.
  destruct (poll_stops_when_retry_write_fails defaultConfig
              {["student.enrolled" := failingHandler]} 200 failsAfterQuery
              {| rows := [pendingRow]; nextId := 1;
                 faults := [Some (ErrorObj "Connection reset")] |}
              pendingRow [] (ErrorObj "webhook unreachable") (ErrorObj "Connection reset"))
    as (_ & s' & H1 & H2).
  - reflexivity.
  - reflexivity.
  - reflexivity.
  - exists s'. split; [exact H1 | exact H2].
Defined.

(** X5. When a handler has delivered the event but the write that marks the
    row published fails at the store, and the store answers the next call,
    the dispatch resolves and books the event as a failed delivery: the row
    stays unpublished, gets one more retry, is rescheduled by the backoff
    and carries the store's error as [lastError]. A later poll will
    deliver the same event again. *)
Theorem delivered_event_is_redelivered_when_mark_fails config handlers now q s e fs :
  deliveryOutcome handlers (eventData q) = None ->
  In q (rows s) ->
  published q = false ->
  faults s = Some e :: fs ->
  firstFault 1 fs = None ->
  exists s' r',
    processOutboxEvent config handlers now q s = (Resolved tt, s')
    /\ In r' (rows s') /\ id r' = id q
    /\ published r' = false /\ publishedAt r' = publishedAt q
    /\ retryCount r' = retryCount q + 1
    /\ scheduledFor r' = now + backoffDelay config (retryCount q)
    /\ lastError r' = Some (errorMessage "Unknown error" e)
    /\ (retryCount q + 1 < cfg_maxRetries config ->
        pendingWhere config (now + backoffDelay config (retryCount q)) r' = true).
Proof.
  intros Hh Hin Hp Hf Hfs.
  unfold processOutboxEvent, invokeHandler. unfold deliveryOutcome in Hh. rewrite Hh.
  run_monad. unfold outboxEvent.update at 1. run_monad.
  unfold roundTrip at 1. rewrite Hf.
  edestruct (update_ok now (id q)) as (s' & -> & _ & Hr); [| |reflexivity|].
  { unfold nextFault. cbn [faults setFaults]. by destruct fs as [|[?|] ?]. }
  { exact Hin. }
  do 2 eexists. split; [reflexivity|]. split.
  - rewrite Hr. apply writeRows_In. exists q. split; [done|].
    unfold hasId. rewrite Nat.eqb_refl. reflexivity.
  - cbn. rewrite Hp. repeat split.
    intros Hlt. unfold pendingWhere. cbn. rewrite Hp. cbn.
    apply andb_true_iff. split; [apply Z.leb_le; lia | apply Z.ltb_lt; lia].
Qed.

Lemma delivered_event_is_redelivered_when_mark_fails_witness :
  exists s' r',
    processOutboxEvent defaultConfig ∅ 200 pendingRow oneHiccup = (Resolved tt, s')
    /\ In r' (rows s') /\ published r' = false /\ retryCount r' = 1
    /\ lastError r' = Some "Connection reset".
Proof.
  destruct (delivered_event_is_redelivered_when_mark_fails defaultConfig ∅ 200 pendingRow
              oneHiccup (ErrorObj "Connection reset") [])
    as (s' & r' & H1 & H2 & _ & H3 & _ & H4 & _ & H5 & _).
  - reflexivity.
  - left. reflexivity.
  - reflexivity.
  - reflexivity.
  - reflexivity.
  - exists s', r'. repeat split; assumption.
Defined.

(** *** Scheduling *)

(** X6. [scheduleEvent] never rejects and never triggers a poll, even for a
    schedule time in the past. When the store accepts the row it is
    appended with [scheduledFor = scheduleTime], unpublished and with no
    retries; no poll before [scheduleTime] selects it, and a poll at or
    after [scheduleTime] that is not filled up to [batchSize] does (for a
    positive configured ceiling). When the store refuses, nothing is stored
    and the result is a failure with the error's message. Both results
    carry [scheduleTime] back. *)
Theorem scheduleEvent_spec config event scheduleTime options now p :
  exists res p',
    scheduleEvent config event scheduleTime options now p = (Resolved (res, scheduleTime), p')
    /\ isProcessing p' = isProcessing p /\ ticks p' = ticks p
    /\ res_eventId res = ev_eventId event
    /\ ((success res = true
         /\ exists row,
              rows (prisma p') = rows (prisma p) ++ [row]
              /\ eventId row = ev_eventId event /\ eventData row = event
              /\ published row = false /\ retryCount row = 0
              /\ scheduledFor row = scheduleTime
              /\ (forall now' pendingEvents_ s',
                    now' < scheduleTime ->
                    findPendingEvents config now' (prisma p') = (Resolved pendingEvents_, s') ->
                    ~ In row pendingEvents_)
              /\ (forall now' pendingEvents_ s',
                    scheduleTime <= now' -> 0 < cfg_maxRetries config ->
                    findPendingEvents config now' (prisma p') = (Resolved pendingEvents_, s') ->
                    (length pendingEvents_ < batchSize config)%nat ->
                    In row pendingEvents_))
        \/ (success res = false
            /\ rows (prisma p') = rows (prisma p)
            /\ exists e,
                 error res = Some (errorMessage "Unknown error occurred" e)
                 /\ (nextFault (prisma p) = Some e
                     \/ (e = uniqueViolation
                         /\ exists r, In r (rows (prisma p))
                                      /\ eventId r = ev_eventId event)))).
Proof.
  destruct p as [d hs ip tm ts].
  unfold scheduleEvent, outboxEvent.create. run_monad. cbn [prisma].
  destruct (roundTrip_cases d) as [(Hn & d' & -> & Hr & Hk)|(e & d' & Hn & -> & Hr & _)].
  - destruct (existsb _ (rows d')) eqn:Hdup.
    + do 2 eexists. split; [reflexivity|]. cbn. do 3 (split; [done|]).
      right. split; [done|]. split; [done|]. exists uniqueViolation. split; [done|].
      right. split; [done|]. rewrite <- Hr. by apply existsb_eventId.
    + do 2 eexists. split; [reflexivity|]. cbn [isProcessing ticks setPrisma prisma rows].
      do 3 (split; [done|]). left. split; [done|].
      eexists. rewrite Hr. split; [reflexivity|]. cbn. do 5 (split; [done|]). split.
      * intros now' l s' Hlt Hfind Hin.
        destruct (findPendingEvents_In _ _ _ _ _ _ Hfind Hin) as [_ Hw].
        apply pendingWhere_true in Hw. cbn in Hw. lia.
      * intros now' l s' Hle Hpos Hfind Hlen.
        destruct (findPendingEvents_selected _ _ _ _ _ Hfind) as (_ & _ & _ & _ & Hall).
        apply Hall; [done| |].
        -- cbn [prisma rows]. apply in_app_iff. right. by left.
        -- apply pendingWhere_true. cbn. done.
  - do 2 eexists. split; [reflexivity|]. cbn. do 3 (split; [done|]).
    right. split; [done|]. split; [done|]. exists e. eauto.
Qed.

(** *** Inspecting and retrying failed events *)

Lemma In_drop {A} (x : A) n l : In x (drop n l) -> In x l.
Proof. rewrite <- !list_elem_of_In. apply subseteq_drop. Qed.

Lemma failedWhere_true config r :
  failedWhere config r = true <-> cfg_maxRetries config <= retryCount r /\ published r = false.
Proof.
  unfold failedWhere. rewrite andb_true_iff, Z.leb_le, negb_true_iff. done.
Qed.

(** X7. [getFailedEvents] never rejects and only reads. When the store
    answers both of its queries, [total] is the number of unpublished rows
    whose [retryCount] has reached the configured ceiling, and the listed
    entries, at most [limit] of them and never more than [total], each
    describe such a row: its event, retry count, last update and last error
    (["Unknown error"] when it has none). With [offset = 0] and [limit]
    at least [total] every such row is listed. When either query fails the
    result is an empty list with [total = 0], the same as when nothing has
    failed. *)
Theorem getFailedEvents_spec config limit offset p :
  exists events total p',
    getFailedEvents config limit offset p = (Resolved (events, total), p')
    /\ rows (prisma p') = rows (prisma p)
    /\ isProcessing p' = isProcessing p /\ ticks p' = ticks p
    /\ (length events <= limit)%nat
    /\ match firstFault 2 (faults (prisma p)) with
       | Some _ => events = [] /\ total = 0
       | None =>
           total = Z.of_nat (length (List.filter (failedWhere config) (rows (prisma p))))
           /\ Z.of_nat (length events) <= total
           /\ (offset = 0%nat -> total <= Z.of_nat limit -> Z.of_nat (length events) = total)
           /\ forall fe, In fe events ->
                exists r, In r (rows (prisma p))
                  /\ published r = false /\ cfg_maxRetries config <= retryCount r
                  /\ fe_event fe = eventData r /\ fe_retryCount fe = retryCount r
                  /\ failureTime fe = updatedAt r
                  /\ failureReason fe = orString (lastError r) "Unknown error"
       end.
Proof.
  destruct p as [[rs k fs] hs ip tm ts].
  unfold getFailedEvents, outboxEvent.findMany, outboxEvent.count, roundTrip. run_monad.
  cbn [prisma faults rows setPrisma setFaults].
  set (sorted := merge_sort byUpdatedAtDesc (List.filter (failedWhere config) rs)).
  assert (length sorted = length (List.filter (failedWhere config) rs)) as Hlen
    by apply Permutation_length, merge_sort_Permutation.
  assert (forall fe,
            In fe (List.map (fun event =>
                               {| fe_event := eventData event;
                                  failureReason := orString (lastError event) "Unknown error";
                                  failureTime := updatedAt event;
                                  fe_retryCount := retryCount event |})
                            (take limit (drop offset sorted))) ->
            exists r, In r rs
              /\ published r = false /\ cfg_maxRetries config <= retryCount r
              /\ fe_event fe = eventData r /\ fe_retryCount fe = retryCount r
              /\ failureTime fe = updatedAt r
              /\ failureReason fe = orString (lastError r) "Unknown error") as Hlisted.
  { intros fe (r & <- & Hr)%in_map_iff.
    apply In_take, In_drop, In_merge_sort, filter_In in Hr as [Hr Hw].
    apply failedWhere_true in Hw. exists r. cbn. tauto. }
  assert (length (take limit (drop offset sorted)) <= limit)%nat as Hlim
    by (rewrite length_take; lia).
  assert (length (take limit (drop offset sorted)) <= length sorted)%nat as Htot
    by (rewrite length_take, length_drop; lia).
  assert (offset = 0%nat -> (length sorted <= limit)%nat ->
          length (take limit (drop offset sorted)) = length sorted) as Hall
    by (intros -> ?; rewrite length_take, length_drop; lia).
  destruct fs as [|[e|] [|[e'|] fs]]; cbn [firstFault rows prisma isProcessing ticks].
  all: do 3 eexists; (split; [reflexivity|]);
    cbn [rows prisma isProcessing ticks length setPrisma setFaults].
  all: do 3 (split; [done|]).
  all: try (split; [lia|]; done).
  all: rewrite List.length_map; (split; [done|]); (split; [done|]).
  all: subst sorted.
  all: split; [lia|].
  all: split; [|exact Hlisted].
  all: intros Ho Ht; rewrite Hall; [lia | done | lia].
Qed.

Lemma writeRows_Forall2 now (where_ : OutboxEvent -> bool) data rs :
  Forall2 (fun r r' => r' = if where_ r then applyUpdate now data r else r)
          rs (writeRows now where_ data rs).
Proof.
  unfold writeRows. induction rs as [|r rs IH]; cbn [List.map]; by constructor.
Qed.

(** X8. [retryFailedEvents] always resolves, with an empty [results]. When
    the store answers, the call reports as total and as successes the
    number of unpublished rows below the configured ceiling (among
    [eventIds] when given); exactly those rows are reset (retry count 0, due
    at the instant of the call, last error cleared; key, event and ceiling
    kept), every other row and the order of the table are as before, and
    one poll is triggered. When the store rejects the write, the call
    reports one failure and no event, the table is unchanged and no poll is
    triggered. *)
Theorem retryFailedEvents_spec config eventIds now p :
  exists result p',
    retryFailedEvents config eventIds now p = (Resolved result, p')
    /\ results result = []
    /\ match nextFault (prisma p) with
       | Some _ =>
           totalEvents result = 0 /\ successCount result = 0 /\ failureCount result = 1
           /\ rows (prisma p') = rows (prisma p)
           /\ ticks p' = ticks p /\ isProcessing p' = isProcessing p
       | None =>
           totalEvents result
           = Z.of_nat (length (List.filter (retryWhere config eventIds) (rows (prisma p))))
           /\ successCount result = totalEvents result
           /\ failureCount result = 0
           /\ Forall2 (fun r r' =>
                         if retryWhere config eventIds r
                         then id r' = id r /\ eventId r' = eventId r
                              /\ eventData r' = eventData r /\ maxRetries r' = maxRetries r
                              /\ published r' = false /\ retryCount r' = 0
                              /\ scheduledFor r' = now /\ lastError r' = None
                         else r' = r)
                      (rows (prisma p)) (rows (prisma p'))
           /\ ticks p' = ticks p ++ [if isProcessing p then TickSkipped else TickQuery]
           /\ isProcessing p' = true
       end.
Proof.
  destruct p as [[rs k fs] hs ip tm ts].
  assert (Forall2 (fun r r' =>
                     if retryWhere config eventIds r
                     then id r' = id r /\ eventId r' = eventId r
                          /\ eventData r' = eventData r /\ maxRetries r' = maxRetries r
                          /\ published r' = false /\ retryCount r' = 0
                          /\ scheduledFor r' = now /\ lastError r' = None
                     else r' = r)
                  rs
                  (writeRows now (retryWhere config eventIds)
                     {| ud_published := None; ud_publishedAt := None; ud_retryCount := Some 0;
                        ud_scheduledFor := Some now; ud_lastError := Some None |} rs)) as Hrows.
  { eapply Forall2_impl; [apply writeRows_Forall2|].
    intros r r' ->. cbn beta.
    destruct (retryWhere config eventIds r) eqn:E; [|done].
    apply retryWhere_unpublished in E. cbn. by rewrite E. }
  unfold retryFailedEvents, outboxEvent.updateMany, spawnProcessOutboxEventsAsync, roundTrip,
    nextFault.
  run_monad.
  destruct fs as [|[e|] fs];
    cbn [faults prisma rows setFaults setRows setPrisma fst snd isProcessing ticks];
    destruct ip;
    do 2 eexists; (split; [reflexivity|]);
    cbn [results totalEvents successCount failureCount prisma rows ticks isProcessing
         setTicks setIsProcessing setPrisma setRows setFaults];
    repeat split; done.
Qed.

(** *** Publishing a batch, continued *)

Lemma publishBatch_failed_transaction_witness :
  exists res p1,
    publishBatch defaultConfig [sampleEvent "evt-1"] None 100 (newPublisher commitFails)
      = (Resolved res, p1)
    /\ rows (prisma p1) = [] /\ successCount res = 0 /\ failureCount res = 1.
Proof.
  destruct (publishBatch_failed_transaction defaultConfig [sampleEvent "evt-1"] None 100
              (newPublisher commitFails) (ErrorObj "Transaction already closed")
              (fst (snd (batchTransaction defaultConfig [sampleEvent "evt-1"] None 100
                           (noLocals, newPublisher commitFails))))
              (snd (snd (batchTransaction defaultConfig [sampleEvent "evt-1"] None 100
                           (noLocals, newPublisher commitFails)))))
    as (Hr & res & H1 & _ & H2 & H3 & _).
  - reflexivity.
  - exists res. eexists. split; [exact H1|]. split; [exact Hr|]. split; [exact H2 | exact H3].
Defined.

Lemma create_fresh now data s :
  faults s = [] ->
  (forall r, In r (rows s) -> eventId r <> cd_eventId data) ->
  outboxEvent.create now data s
  = (Resolved (newRow (nextId s) now data),
     {| rows := rows s ++ [newRow (nextId s) now data]; nextId := S (nextId s);
        faults := [] |}).
Proof.
  intros Hf Hfresh. unfold outboxEvent.create, roundTrip. run_monad. rewrite Hf.
  destruct (existsb _ (rows s)) eqn:Hdup; [|by rewrite Hf].
  apply existsb_eventId in Hdup as (r & Hin & Heq). by destruct (Hfresh r Hin).
Qed.

(** The callback of the transaction on a store that answers, for events
    whose ids are new to the table and distinct: every insert goes through. *)
Lemma storeBatch_fresh config options now events :
  forall l p,
    faults (prisma p) = [] ->
    List.NoDup (List.map ev_eventId events) ->
    (forall e r, In e events -> In r (rows (prisma p)) -> eventId r <> ev_eventId e) ->
    exists d added,
      storeBatch config events options now (l, p)
      = (Resolved tt,
         ({| l_results := l_results l ++ List.map (fun e => storedResult e now) events;
             l_successCount := l_successCount l + Z.of_nat (length events);
             l_failureCount := l_failureCount l |}, setPrisma d p))
      /\ faults d = []
      /\ rows d = rows (prisma p) ++ added
      /\ Forall2 (fun e r =>
                    r = newRow (id r) now
                          (outboxData config e options (scheduleOf options now now)))
                 events added.
Proof.
  unfold storeBatch.
  induction events as [|event events IH]; intros l p Hf Hnd Hfresh; cbn [forEach List.map].
  - exists (prisma p), []. rewrite !app_nil_r, Z.add_0_r, setPrisma_same.
    destruct l. split; [done|]. split; [done|]. split; [done|]. constructor.
  - apply List.NoDup_cons_iff in Hnd as [Hnotin Hnd].
    unfold mbind at 1, St_bind. unfold storeBatchEvent at 1, this, locals.
    run_monad.
    rewrite create_fresh; [|done|]; cycle 1.
    { intros r Hin. apply Hfresh; [by left | done]. }
    cbn [fst snd].
    set (row := newRow (nextId (prisma p)) now
                  (outboxData config event options (scheduleOf options now now))).
    set (d1 := {| rows := rows (prisma p) ++ [row]; nextId := S (nextId (prisma p));
                  faults := [] |}).
    destruct (IH {| l_results := l_results l ++ [storedResult event now];
                    l_successCount := l_successCount l + 1;
                    l_failureCount := l_failureCount l |} (setPrisma d1 p))
      as (d & added & E & Hfd & Hrd & Hall).
    + done.
    + done.
    + intros e r He [Hin| [<- | []]]%in_app_or.
      * apply Hfresh; [by right | done].
      * cbn. intros Heq. apply Hnotin. rewrite Heq. by apply in_map.
    + exists d, (row :: added).
      fold (storeBatchEvent config options now) in E |- *.
      change (forEach events (storeBatchEvent config options now)) with
        (forEach events (storeBatchEvent config options now)) in E.
      rewrite E. cbn [l_results l_successCount l_failureCount prisma setPrisma rows] in *.
      split.
      * rewrite <- app_assoc.
        replace (l_successCount l + 1 + Z.of_nat (length events))
          with (l_successCount l + Z.of_nat (length (event :: events)))
          by (cbn [length]; lia).
        reflexivity.
      * split; [done|].
        split; [rewrite Hrd; subst d1; cbn [rows]; by rewrite <- app_assoc|].
        constructor; [reflexivity | done].
Qed.

(** X10. On a store that answers, a batch of events whose ids are new to the
    table and distinct is stored completely: one success entry per event in
    the order given, [N] successes and no failure, one new unpublished row
    per event appended in that order with retry count 0, and one poll
    triggered unless [options.immediate] is [false]. *)
Theorem publishBatch_stores_fresh_events config events options now p :
  faults (prisma p) = [] ->
  List.NoDup (List.map ev_eventId events) ->
  (forall e r, In e events -> In r (rows (prisma p)) -> eventId r <> ev_eventId e) ->
  exists res p' added,
    publishBatch config events options now p = (Resolved res, p')
    /\ totalEvents res = Z.of_nat (length events)
    /\ successCount res = Z.of_nat (length events)
    /\ failureCount res = 0
    /\ results res = List.map (fun e => storedResult e now) events
    /\ rows (prisma p') = rows (prisma p) ++ added
    /\ Forall2 (fun e r =>
                  eventId r = ev_eventId e /\ eventData r = e
                  /\ published r = false /\ retryCount r = 0
                  /\ maxRetries r = orNumber (optMaxRetries options) (cfg_maxRetries config)
                  /\ scheduledFor r = scheduleOf options now now)
               events added
    /\ ticks p' = (if immediateIsFalse options then ticks p
                   else ticks p ++ [if isProcessing p then TickSkipped else TickQuery]).
Proof.
  intros Hf Hnd Hfresh.
  destruct (storeBatch_fresh config options now events noLocals p Hf Hnd Hfresh)
    as (d & added & E & Hfd & Hrd & Hall).
  assert (Forall2 (fun e r =>
                     eventId r = ev_eventId e /\ eventData r = e
                     /\ published r = false /\ retryCount r = 0
                     /\ maxRetries r = orNumber (optMaxRetries options) (cfg_maxRetries config)
                     /\ scheduledFor r = scheduleOf options now now)
                  events added) as Hcols.
  { eapply Forall2_impl; [exact Hall|]. intros e r ->. cbn. done. }
  unfold publishBatch, batchTransaction, transaction, tryCatch.
  unfold mbind at 1, St_bind. cbn [fst snd].
  unfold roundTrip at 1. rewrite Hf.
  rewrite setPrisma_same, E. cbn [fst snd prisma setPrisma].
  unfold roundTrip. rewrite Hfd.
  destruct (immediateIsFalse options); cbn [negb].
  - run_monad. do 3 eexists. split; [reflexivity|].
    cbn [totalEvents successCount failureCount results prisma setPrisma ticks noLocals
         l_results l_successCount l_failureCount app].
    repeat split; try done. 
  - unfold this, spawnProcessOutboxEventsAsync. run_monad.
    cbn [isProcessing setPrisma].
    destruct (isProcessing p); do 3 eexists; (split; [reflexivity|]);
      cbn [totalEvents successCount failureCount results prisma setPrisma ticks noLocals
           l_results l_successCount l_failureCount app setTicks setIsProcessing];
      repeat split; done.
Qed.

Lemma publishBatch_stores_fresh_events_witness :
  exists res p' added,
    publishBatch defaultConfig [sampleEvent "evt-1"; sampleEvent "evt-2"] None 100
      (newPublisher emptyStore) = (Resolved res, p')
    /\ successCount res = 2 /\ failureCount res = 0
    /\ rows (prisma p') = added
    /\ List.map eventId added = ["evt-1"; "evt-2"]
    /\ ticks p' = [TickQuery].
Proof.
  destruct (publishBatch_stores_fresh_events defaultConfig
              [sampleEvent "evt-1"; sampleEvent "evt-2"] None 100 (newPublisher emptyStore))
    as (res & p' & added & H1 & _ & H2 & H3 & _ & H4 & H5 & H6).
  - reflexivity.
  - constructor; [cbn; intros [H|[]]; discriminate H|].
    constructor; [intros []|]. constructor.
  - intros e r _ [].
  - exists res, p', added. split; [exact H1|]. split; [exact H2|]. split; [exact H3|].
    split; [exact H4|]. split; [|exact H6].
    inversion H5 as [|e1 r1 l1 l1' (Ha & _) Hrest]; subst.
    inversion Hrest as [|e2 r2 l2 l2' (Hb & _) Hnil]; subst.
    inversion Hnil; subst. cbn [List.map]. by rewrite Ha, Hb.
Defined.

(** *** Health check, continued *)

#[global] Instance byPublishedAtDesc_transitive : Transitive byPublishedAtDesc.
Proof.
  intros x y z. unfold byPublishedAtDesc.
  destruct (publishedAt x), (publishedAt y), (publishedAt z); try done. lia.
Qed.

#[global] Instance byPublishedAtDesc_total : Total byPublishedAtDesc.
Proof.
  intros x y. unfold byPublishedAtDesc.
  destruct (publishedAt x), (publishedAt y); try tauto. lia.
Qed.

Lemma filter_andb_length {A} (f g : A -> bool) (l : list A) :
  (length (List.filter (fun x => f x && g x) l) <= length (List.filter f l))%nat.
Proof.
  induction l as [|x l IH]; cbn [List.filter]; [done|].
  destruct (f x), (g x); cbn [andb length]; lia.
Qed.

Lemma filter_implies_length {A} (f g : A -> bool) (l : list A) :
  (forall x, f x = true -> g x = true) ->
  (length (List.filter f l) <= length (List.filter g l))%nat.
Proof.
  intros H. induction l as [|x l IH]; cbn [List.filter]; [done|].
  destruct (f x) eqn:E; [rewrite (H x E)|destruct (g x)]; cbn [length]; lia.
Qed.

(** The percentage of failures among [t] recent events, [f] of which
    failed. *)
Lemma errorRate_range f t :
  0 <= f <= t -> 0 < t ->
  (inject_Z 0 <= inject_Z f / inject_Z t * inject_Z 100)%Q
  /\ (inject_Z f / inject_Z t * inject_Z 100 <= inject_Z 100)%Q
  /\ (t <= 10 * f -> Qle_bool (inject_Z 10) (inject_Z f / inject_Z t * inject_Z 100) = true).
Proof.
  intros Hf Ht. destruct t as [|t|t]; try lia.
  unfold Qle_bool, Qle, Qdiv, Qmult, Qinv, inject_Z. cbn [Qnum Qden].
  rewrite ?Pos.mul_1_l, ?Pos.mul_1_r, ?Z.mul_1_r.
  split; [|split]; [| |intros ?; apply Z.leb_le]; nia.
Qed.

(** The row [findFirst] returns for the latest publication. *)
Lemma latest_published rs :
  match r ← head (merge_sort byPublishedAtDesc (List.filter (fun r => published r) rs));
        publishedAt r with
  | Some t =>
      (exists r, In r rs /\ published r = true /\ publishedAt r = Some t)
      /\ forall r', In r' rs -> published r' = true ->
                    exists t', publishedAt r' = Some t' /\ t' <= t
  | None =>
      (forall r, In r rs -> published r = false)
      \/ exists r, In r rs /\ published r = true /\ publishedAt r = None
  end.
Proof.
  set (sorted := merge_sort byPublishedAtDesc (List.filter (fun r => published r) rs)).
  assert (StronglySorted byPublishedAtDesc sorted) as Hsorted
    by (apply StronglySorted_merge_sort; apply _).
  assert (forall r, In r sorted <-> In r rs /\ published r = true) as Hin.
  { intros r. unfold sorted. by rewrite In_merge_sort, filter_In. }
  destruct sorted as [|r0 rest]; cbn [head mbind option_bind].
  - left. intros r Hr. destruct (published r) eqn:E; [|done].
    by destruct (proj2 (Hin r) (conj Hr E)).
  - destruct (proj1 (Hin r0) (or_introl eq_refl)) as [Hr0 Hp0].
    destruct (publishedAt r0) as [t|] eqn:Et.
    + split; [by exists r0|]. intros r' Hr' Hp'.
      destruct (proj2 (Hin r') (conj Hr' Hp')) as [<-|Hrest]; [exists t; split; [done|lia]|].
      apply StronglySorted_inv in Hsorted as [_ Hall].
      rewrite Forall_forall in Hall. apply list_elem_of_In, Hall in Hrest.
      unfold byPublishedAtDesc in Hrest. rewrite Et in Hrest.
      destruct (publishedAt r') as [t'|]; [by exists t' | done].
    + right. by exists r0.
Qed.

(** X11. When the four store queries of [healthCheck] are answered, it
    resolves and leaves the table as it was. [pendingEvents] is the number
    of unpublished rows that are due, whatever their retry count: it is at
    least the number of rows a poll at the same instant would consider. The
    failed recent events are among the recent ones, so the error rate lies
    between 0 and 100, and is 0 when there is no recent event. A report
    [healthy = true] implies fewer than 1000 pending events and fewer than
    one recent event in ten failed. [lastPublishTime], when present, is the
    latest [publishedAt] of the published rows. *)
Theorem healthCheck_reports_the_table config now p :
  firstFault 4 (faults (prisma p)) = None ->
  exists status p' totalRecent failedRecent,
    healthCheck config now p = (Resolved status, p')
    /\ rows (prisma p') = rows (prisma p)
    /\ health_details status = HealthCounters (isProcessing p) totalRecent failedRecent
    /\ pendingEvents status
       = Z.of_nat (length (List.filter
                             (fun r => negb (published r) && (scheduledFor r <=? now))
                             (rows (prisma p))))
    /\ Z.of_nat (length (List.filter (pendingWhere config now) (rows (prisma p))))
       <= pendingEvents status
    /\ 0 <= failedRecent <= totalRecent
    /\ (inject_Z 0 <= errorRate status)%Q /\ (errorRate status <= inject_Z 100)%Q
    /\ (totalRecent = 0 -> errorRate status = inject_Z 0)
    /\ (healthy status = true ->
        pendingEvents status < 1000 /\ (totalRecent = 0 \/ 10 * failedRecent < totalRecent))
    /\ match lastPublishTime status with
       | Some t =>
           (exists r, In r (rows (prisma p)) /\ published r = true /\ publishedAt r = Some t)
           /\ forall r', In r' (rows (prisma p)) -> published r' = true ->
                         exists t', publishedAt r' = Some t' /\ t' <= t
       | None =>
           (forall r, In r (rows (prisma p)) -> published r = false)
           \/ exists r, In r (rows (prisma p)) /\ published r = true /\ publishedAt r = None
       end.
Proof.
  destruct p as [[rs k fs] hs ip tm ts]. cbn [prisma faults rows isProcessing].
  intros H.
  set (total := Z.of_nat (length (List.filter (fun r => now - 3600000 <=? createdAt r) rs))).
  set (failed := Z.of_nat (length (List.filter
                   (fun r => (now - 3600000 <=? createdAt r)
                             && (cfg_maxRetries config <=? retryCount r)) rs))).
  assert (0 <= failed <= total) as Hft.
  { unfold failed, total. split; [lia|]. apply Nat2Z.inj_le, filter_andb_length. }
  assert (Z.of_nat (length (List.filter (pendingWhere config now) rs))
          <= Z.of_nat (length (List.filter
                                 (fun r => negb (published r) && (scheduledFor r <=? now)) rs)))
    as Hpend.
  { apply Nat2Z.inj_le, filter_implies_length. intros r. unfold pendingWhere.
    rewrite !andb_true_iff. tauto. }
  pose proof (latest_published rs) as Hlast.
  set (status :=
         {| healthy :=
              negb (Qle_bool (inject_Z 10)
                      (if 0 <? total
                       then (inject_Z failed / inject_Z total * inject_Z 100)%Q
                       else inject_Z 0))
              && (Z.of_nat (length (List.filter
                      (fun r => negb (published r) && (scheduledFor r <=? now)) rs)) <? 1000);
            lastPublishTime :=
              r ← head (merge_sort byPublishedAtDesc (List.filter (fun r => published r) rs));
              publishedAt r;
            pendingEvents :=
              Z.of_nat (length (List.filter
                                  (fun r => negb (published r) && (scheduledFor r <=? now)) rs));
            errorRate :=
              if 0 <? total then (inject_Z failed / inject_Z total * inject_Z 100)%Q
              else inject_Z 0;
            health_details := HealthCounters ip total failed |}).
  exists status.
  assert (exists d, healthCheck config now
                      {| prisma := {| rows := rs; nextId := k; faults := fs |};
                         deliveryHandlers := hs; isProcessing := ip;
                         processingTimer := tm; ticks := ts |}
                    = (Resolved status, d) /\ rows (prisma d) = rs) as (p' & -> & Hrows).
  { unfold healthCheck, outboxEvent.count, outboxEvent.findFirst, roundTrip.
    run_monad. cbn [prisma faults rows setPrisma setFaults].
    do 4 (destruct fs as [|[e|] fs]; cbn in H; try discriminate;
          try (eexists; split; reflexivity); cbn [prisma faults rows setPrisma setFaults]). }
  exists p', total, failed. split; [done|].
  subst status. cbn [healthy lastPublishTime pendingEvents errorRate health_details].
  do 5 (split; [done|]).
  destruct (0 <? total) eqn:Hpos.
  - apply Z.ltb_lt in Hpos.
    destruct (errorRate_range failed total Hft Hpos) as (H0 & H100 & H10).
    do 2 (split; [done|]). split; [lia|]. split; [|exact Hlast].
    intros [Hrate Hp]%andb_true_iff. split; [lia|]. right.
    destruct (Z_lt_le_dec (10 * failed) total) as [?|Hle]; [done|].
    rewrite (H10 Hle) in Hrate. done.
  - apply Z.ltb_ge in Hpos.
    split; [done|]. split; [done|]. split; [done|]. split; [|exact Hlast].
    intros [_ Hp]%andb_true_iff. split; lia.
Qed.

Lemma healthCheck_reports_the_table_witness :
  exists status p',
    healthCheck defaultConfig 20000 deadLettered = (Resolved status, p')
    /\ pendingEvents status = 1
    /\ rows (prisma p') = rows (prisma deadLettered).
Proof.
  destruct (healthCheck_reports_the_table defaultConfig 20000 deadLettered)
    as (status & p' & totalRecent & failedRecent & H1 & H2 & _ & H3 & _).
  - reflexivity.
  - exists status, p'. split; [exact H1|]. split; [|exact H2].
    rewrite H3. reflexivity.
Defined.

(** *** Waiting for acknowledgments, and routing *)



(** X13. There is one handler per event type: after
    [registerDeliveryHandler(eventType, handler)], an event of that type is
    delivered to [handler] alone, whatever was registered for the type
    before, and events of every other type are delivered as before. The
    registration touches neither the table, the timer nor a poll in
    flight. *)
Theorem registerDeliveryHandler_replaces eventType_ handler p :
  exists p',
    registerDeliveryHandler eventType_ handler p = (Resolved tt, p')
    /\ prisma p' = prisma p /\ ticks p' = ticks p
    /\ isProcessing p' = isProcessing p /\ processingTimer p' = processingTimer p
    /\ forall event,
         deliveryOutcome (deliveryHandlers p') event
         = if String.eqb (ev_eventType event) eventType_ then handler event
           else deliveryOutcome (deliveryHandlers p) event.
Proof.
  eexists. split; [reflexivity|]. cbn. do 4 (split; [done|]).
  intros event. unfold deliveryOutcome.
  destruct (String.eqb_spec (ev_eventType event) eventType_) as [->|Hne].
  - by rewrite lookup_insert_eq.
  - by rewrite lookup_insert_ne.
Qed.

(** *** Starting and stopping *)



(* ===================================================================== *)
(** ** Properties of the student repository *)
(* ===================================================================== *)

Import PrismaStudentRepository.

Ltac run_repo :=
  repeat (cbn [mbind mret Repo_bind Repo_ret catch raise query fst snd] in *;
          unfold mbind, mret, Repo_bind, Repo_ret, catch, raise, query in * ).

(** *** The choice of [findFirst] *)

Lemma pick_singleton pick r : fairChoice pick -> pick [r] = Some r.
Proof.
  intros H. specialize (H [r]). destruct (pick [r]) as [x|]; [|done].
  destruct H as [->|[]]. done.
Qed.

Lemma pick_nil pick : fairChoice pick -> pick [] = None.
Proof.
  intros H. specialize (H []). by destruct (pick []) as [x|].
Qed.

Lemma head_fairChoice : fairChoice head.
Proof. intros [|r l]; cbn; auto. Qed.

Lemma filter_none {A} (f : A -> bool) (l : list A) :
  (forall x, In x l -> f x = false) -> List.filter f l = [].
Proof.
  intros H. induction l as [|x l IH]; [done|].
  cbn [List.filter]. rewrite (H x (or_introl eq_refl)). apply IH.
  intros y Hy. apply H. by right.
Qed.

Lemma filter_unique_key (where_ : PrismaStudent -> bool) l r :
  List.NoDup (List.map id l) -> In r l -> where_ r = true ->
  (forall x, In x l -> where_ x = true -> id x = id r) ->
  List.filter where_ l = [r].
Proof.
  induction l as [|x l IH]; intros Hnd Hin Hr Hkey; [done|].
  cbn [List.map] in Hnd. apply List.NoDup_cons_iff in Hnd as [Hx Hnd].
  assert (forall y, In y l -> id y = id x -> False) as Hfresh.
  { intros y Hy Heq. apply Hx. rewrite <- Heq. by apply in_map. }
  cbn [List.filter]. destruct Hin as [->|Hin].
  - rewrite Hr. f_equal.
    apply filter_none. intros y Hy. destruct (where_ y) eqn:E; [|done].
    destruct (Hfresh y Hy). apply Hkey; [by right | done].
  - destruct (where_ x) eqn:E.
    + destruct (Hfresh r Hin). symmetry. apply Hkey; [by left | done].
    + apply IH; try done. intros y Hy. apply Hkey. by right.
Qed.

Lemma find_hasKey l r :
  List.NoDup (List.map id l) -> In r l -> List.find (hasKey (id r)) l = Some r.
Proof.
  induction l as [|x l IH]; intros Hnd Hin; [done|].
  cbn [List.map] in Hnd. apply List.NoDup_cons_iff in Hnd as [Hx Hnd].
  cbn [List.find]. unfold hasKey at 1. destruct Hin as [->|Hin].
  - by rewrite String.eqb_refl.
  - destruct (String.eqb_spec (id x) (id r)) as [Heq|_]; [|by apply IH].
    destruct Hx. rewrite Heq. by apply in_map.
Qed.

Lemma findFirst_unique pick where_ s r :
  fairChoice pick -> faults s = [] ->
  List.NoDup (List.map id (students s)) -> In r (students s) -> where_ r = true ->
  (forall x, In x (students s) -> where_ x = true -> id x = id r) ->
  findFirst pick where_ s = (Ok (Some r), s).
Proof.
  intros Hpick Hf Hnd Hin Hr Hkey. unfold findFirst, roundTrip. run_repo.
  rewrite Hf, (filter_unique_key where_ _ r), pick_singleton; done.
Qed.

Lemma findFirst_none pick where_ s :
  fairChoice pick -> faults s = [] ->
  (forall x, In x (students s) -> where_ x = false) ->
  findFirst pick where_ s = (Ok None, s).
Proof.
  intros Hpick Hf Hnone. unfold findFirst, roundTrip. run_repo.
  rewrite Hf, filter_none, pick_nil; done.
Qed.

(** The [where] of the [findFirst] of [save] selects by primary key. *)
Lemma save_where_key student x :
  String.eqb (id x) (Entity.id student)
  && String.eqb (tenantId (columns x)) (Entity.tenantId student) && live x = true <->
  id x = Entity.id student /\ tenantId (columns x) = Entity.tenantId student
  /\ deletedAt x = None.
Proof.
  rewrite !andb_true_iff, !String.eqb_eq. unfold live.
  destruct (deletedAt x); intuition congruence.
Qed.

(** *** Saving *)

(** X14. Optimistic locking: when the table holds a live row of the
    student's id and tenant whose version differs from the version the
    entity carries, [save] rejects with a [ConcurrencyError] naming the
    expected (entity) and the actual (stored) version, and writes nothing. *)
Theorem save_rejects_a_stale_version pick student now s stored :
  fairChoice pick ->
  faults s = [] ->
  List.NoDup (List.map id (students s)) ->
  In stored (students s) ->
  id stored = Entity.id student ->
  tenantId (columns stored) = Entity.tenantId student ->
  deletedAt stored = None ->
  version stored <> Entity.version student ->
  save pick student now s
  = (Throw (ConcurrencyError "Student" (Entity.id student) (Entity.version student)
              (version stored)), s).
Proof.
  intros Hpick Hf Hnd Hin Hid Hten Hlive Hver.
  unfold save, catch. unfold mbind at 1, Repo_bind.
  rewrite (findFirst_unique pick _ s stored); try done.
  - apply Z.eqb_neq in Hver. rewrite Hver. reflexivity.
  - by apply save_where_key.
  - intros x _ Hx%save_where_key. destruct Hx as [-> _]. done.
Qed.

Lemma save_rejects_a_stale_version_witness :
  exists e,
    save head (sampleStudent "stu-1" "S-001" 1 None) 200
      (table [sampleRow "stu-1" "S-001" 2 None None])
    = (Throw e, table [sampleRow "stu-1" "S-001" 2 None None])
    /\ e = ConcurrencyError "Student" "stu-1" 1 2.
Proof.
  eexists. split; [|reflexivity].
  apply (save_rejects_a_stale_version head (sampleStudent "stu-1" "S-001" 1 None) 200
           (table [sampleRow "stu-1" "S-001" 2 None None])
           (sampleRow "stu-1" "S-001" 2 None None)).
  - exact head_fairChoice.
  - reflexivity.
  - constructor; [intros []|constructor].
  - left. reflexivity.
  - reflexivity.
  - reflexivity.
  - reflexivity.
  - cbn. lia.
Defined.

Lemma violatedConstraint_none r others :
  (forall x, In x others ->
             id x <> id r
             /\ studentNumber (columns x) <> studentNumber (columns r)
             /\ forall e, email (columns x) = Some e -> email (columns r) <> Some e) ->
  violatedConstraint r others = None.
Proof.
  intros H. unfold violatedConstraint.
  repeat match goal with
         | |- context [existsb ?f others] =>
             let E := fresh "E" in
             destruct (existsb f others) eqn:E;
             [apply existsb_exists in E as (x & Hx & Heq); exfalso;
              destruct (H x Hx) as (Hid & Hnum & Hmail) |]
         end; [| | |done].
  - apply String.eqb_eq in Heq. done.
  - apply String.eqb_eq in Heq. done.
  - destruct (email (columns x)) as [a|] eqn:Ea; [|done].
    destruct (email (columns r)) as [b|] eqn:Eb; [|done].
    apply String.eqb_eq in Heq as ->. by destruct (Hmail b).
Qed.

Lemma hasKey_true key x : hasKey key x = true <-> id x = key.
Proof. unfold hasKey. apply String.eqb_eq. Qed.

Lemma hasKey_false key x : hasKey key x = false <-> id x <> key.
Proof. unfold hasKey. apply String.eqb_neq. Qed.

(** A write to the row of a key that keeps the key. *)
Lemma student_update_ok key write s stored :
  faults s = [] ->
  List.NoDup (List.map id (students s)) ->
  In stored (students s) -> id stored = key ->
  violatedConstraint (write stored)
    (List.filter (fun x => negb (hasKey key x)) (students s)) = None ->
  update key write s
  = (Ok tt, {| students := List.map (fun x => if hasKey key x then write x else x) (students s);
               faults := [] |}).
Proof.
  intros Hf Hnd Hin <- Hfree. unfold update, roundTrip. run_repo.
  rewrite Hf, find_hasKey by done. rewrite Hfree, Hf. done.
Qed.

Lemma replace_row_ids key (write : PrismaStudent -> PrismaStudent) l :
  (forall x, id (write x) = id x) ->
  List.map id (List.map (fun x => if hasKey key x then write x else x) l) = List.map id l.
Proof.
  intros H. rewrite List.map_map. apply List.map_ext. intros x.
  by destruct (hasKey key x).
Qed.

Lemma replace_row_In key (write : PrismaStudent -> PrismaStudent) l stored :
  In stored l -> id stored = key ->
  In (write stored) (List.map (fun x => if hasKey key x then write x else x) l).
Proof.
  intros Hin Hid. apply in_map_iff. exists stored. split; [|done].
  by rewrite (proj2 (hasKey_true key stored) Hid).
Qed.

Lemma replace_row_other key (write : PrismaStudent -> PrismaStudent) l x :
  In x l -> id x <> key ->
  In x (List.map (fun x => if hasKey key x then write x else x) l).
Proof.
  intros Hin Hid. apply in_map_iff. exists x. split; [|done].
  by rewrite (proj2 (hasKey_false key x) Hid).
Qed.

Lemma replace_row_inv key (write : PrismaStudent -> PrismaStudent) l y :
  In y (List.map (fun x => if hasKey key x then write x else x) l) ->
  (exists x, In x l /\ id x = key /\ y = write x) \/ (In y l /\ id y <> key).
Proof.
  intros (x & Hy & Hx)%in_map_iff.
  destruct (hasKey key x) eqn:E.
  - left. exists x. apply hasKey_true in E. done.
  - right. subst y. apply hasKey_false in E. done.
Qed.

(** X15. Updating through [save]: when the stored live row of the student
    carries the entity's version and the student's number and email collide
    with no other row, [save] resolves; the row keeps its id, creation date
    and place in the table, gets the entity's version plus one and the
    instant of the call as [updatedAt]; every other row is untouched. An
    optional property that is absent on the entity does not clear its
    column: the stored value stays. The entity still carries the old
    version, so saving the same entity once more is rejected with a
    [ConcurrencyError]. *)
Theorem save_updates_and_bumps_the_version pick student now s stored :
  fairChoice pick ->
  faults s = [] ->
  List.NoDup (List.map id (students s)) ->
  In stored (students s) ->
  id stored = Entity.id student ->
  tenantId (columns stored) = Entity.tenantId student ->
  deletedAt stored = None ->
  version stored = Entity.version student ->
  (forall x, In x (students s) -> id x <> Entity.id student ->
             studentNumber (columns x) <> Entity.studentNumber student
             /\ forall e, email (columns x) = Some e ->
                          orKeep (Entity.email student) (email (columns stored)) <> Some e) ->
  exists s' saved,
    save pick student now s = (Ok tt, s')
    /\ students s'
       = List.map (fun x => if hasKey (Entity.id student) x then saved else x) (students s)
    /\ In saved (students s')
    /\ id saved = id stored /\ createdAt saved = createdAt stored /\ deletedAt saved = None
    /\ version saved = version stored + 1 /\ updatedAt saved = now
    /\ studentNumber (columns saved) = Entity.studentNumber student
    /\ status (columns saved) = mapStatusToPrisma (Entity.status student)
    /\ email (columns saved) = orKeep (Entity.email student) (email (columns stored))
    /\ (Entity.email student = None -> email (columns saved) = email (columns stored))
    /\ (Entity.graduationDate student = None ->
        graduationDate (columns saved) = graduationDate (columns stored))
    /\ (forall x, In x (students s) -> id x <> Entity.id student -> In x (students s'))
    /\ forall later,
         save pick student later s'
         = (Throw (ConcurrencyError "Student" (Entity.id student) (Entity.version student)
                     (Entity.version student + 1)), s').
Proof.
  intros Hpick Hf Hnd Hin Hid Hten Hlive Hver Hfree.
  set (s' := {| students := List.map (fun x => if hasKey (Entity.id student) x
                                               then savedOver student now x else x)
                              (students s);
                faults := [] |}).
  assert (save pick student now s = (Ok tt, s')) as Esave.
  { unfold save, catch. unfold mbind at 1, Repo_bind.
    rewrite (findFirst_unique pick _ s stored); try done; cycle 1.
    { by apply save_where_key. }
    { intros x _ Hx%save_where_key. destruct Hx as [-> _]. done. }
    rewrite Hver, Z.eqb_refl. cbn [negb]. unfold mbind, Repo_bind, mret, Repo_ret.
    rewrite (student_update_ok _ _ s stored); try done.
    apply violatedConstraint_none. intros x [Hx Hk]%filter_In.
    apply negb_true_iff, hasKey_false in Hk.
    destruct (Hfree x Hx Hk) as [Hnum Hmail].
    split; [cbn [id]; congruence|]. split; [done|]. exact Hmail. }
  assert (forall x, In x (students s) -> hasKey (Entity.id student) x = true -> x = stored)
    as Hsame.
  { intros x Hx Hk%hasKey_true.
    pose proof (find_hasKey _ x Hnd Hx) as E1. pose proof (find_hasKey _ stored Hnd Hin) as E2.
    rewrite Hk in E1. rewrite Hid in E2. congruence. }
  exists s', (savedOver student now stored).
  split; [exact Esave|]. split.
  { cbn [students s']. apply List.map_ext_in. intros x Hx.
    destruct (hasKey (Entity.id student) x) eqn:E; [|done]. by rewrite (Hsame x Hx E). }
  split; [by apply (replace_row_In _ (savedOver student now))|].
  cbn [savedOver id createdAt deletedAt version updatedAt columns].
  do 2 (split; [done|]). split; [done|]. split; [lia|]. split; [done|].
  split; [done|]. split; [done|]. split; [done|].
  split; [intros E; cbn; by rewrite E|]. split; [intros E; cbn; by rewrite E|].
  split; [intros x Hx Hk; by apply (replace_row_other _ (savedOver student now))|].
  intros later. unfold save, catch. unfold mbind at 1, Repo_bind.
  rewrite (findFirst_unique pick _ s' (savedOver student now stored)); try done.
  - cbn [version savedOver].
    replace (Entity.version student + 1 =? Entity.version student) with false
      by (symmetry; lia).
    reflexivity.
  - cbn [students s']. by rewrite replace_row_ids.
  - by apply (replace_row_In _ (savedOver student now)).
  - apply save_where_key. cbn [savedOver id deletedAt columns writeColumns tenantId]. done.
  - intros x Hx Hw%save_where_key. destruct Hw as [-> _]. cbn [savedOver id]. done.
Qed.

Lemma save_updates_and_bumps_the_version_witness :
  exists s' saved,
    save head (sampleStudent "stu-1" "S-001" 1 None) 200
      (table [sampleRow "stu-1" "S-001" 1 (Some "rui@example.com") None]) = (Ok tt, s')
    /\ students s' = [saved]
    /\ version saved = 2
    /\ email (columns saved) = Some "rui@example.com".
Proof.
  destruct (save_updates_and_bumps_the_version head (sampleStudent "stu-1" "S-001" 1 None) 200
              (table [sampleRow "stu-1" "S-001" 1 (Some "rui@example.com") None])
              (sampleRow "stu-1" "S-001" 1 (Some "rui@example.com") None))
    as (s' & saved & H1 & H2 & _ & _ & _ & _ & H3 & _ & _ & _ & H4 & _).
  - exact head_fairChoice.
  - reflexivity.
  - constructor; [intros []|constructor].
  - left. reflexivity.
  - reflexivity.
  - reflexivity.
  - reflexivity.
  - reflexivity.
  - intros x [<-|[]] Hne. by destruct Hne.
  - exists s', saved. split; [exact H1|]. split; [exact H2|]. split; [exact H3|exact H4].
Defined.

Lemma create_ok now key version_ data s :
  faults s = [] ->
  (forall x, In x (students s) ->
             id x <> key
             /\ studentNumber (columns x) <> studentNumber data
             /\ forall e, email (columns x) = Some e -> email data <> Some e) ->
  create now key version_ data s
  = (Ok tt,
     {| students := students s
                    ++ [{| id := key; version := version_; createdAt := now; updatedAt := now;
                           deletedAt := None; deletedBy := None; columns := data |}];
        faults := [] |}).
Proof.
  intros Hf Hfree. unfold create, roundTrip. run_repo. rewrite Hf.
  rewrite violatedConstraint_none by done. by rewrite Hf.
Qed.

(** X16. Creating through [save]: when no row has the student's id and the
    student's number and email are not in the table, [save] resolves and
    appends one live row with the student's data, created and updated at
    the instant of the call, with version 1 whatever version the entity
    carries. An entity that carries another version can therefore not be
    saved a second time: that save is rejected with a [ConcurrencyError]
    against the stored version 1. *)
Theorem save_creates_with_version_one pick student now s :
  fairChoice pick ->
  faults s = [] ->
  List.NoDup (List.map id (students s)) ->
  (forall x, In x (students s) ->
             id x <> Entity.id student
             /\ studentNumber (columns x) <> Entity.studentNumber student
             /\ forall e, email (columns x) = Some e -> Entity.email student <> Some e) ->
  exists s' created,
    save pick student now s = (Ok tt, s')
    /\ students s' = students s ++ [created]
    /\ id created = Entity.id student /\ version created = 1
    /\ createdAt created = now /\ updatedAt created = now /\ deletedAt created = None
    /\ columns created = toPrismaModel student
    /\ (Entity.version student <> 1 ->
        forall later,
          save pick student later s'
          = (Throw (ConcurrencyError "Student" (Entity.id student) (Entity.version student) 1),
             s')).
Proof.
  intros Hpick Hf Hnd Hfree.
  set (created := {| id := Entity.id student; version := 1; createdAt := now;
                     updatedAt := now; deletedAt := None; deletedBy := None;
                     columns := toPrismaModel student |}).
  exists {| students := students s ++ [created]; faults := [] |}, created.
  split.
  { unfold save, catch. unfold mbind at 1, Repo_bind.
    rewrite findFirst_none; try done.
    - by rewrite create_ok.
    - intros x Hx. destruct (Hfree x Hx) as [Hid _].
      apply not_true_is_false. intros Hw%save_where_key. by destruct Hw. }
  do 7 (split; [done|]).
  intros Hver later. unfold save, catch. unfold mbind at 1, Repo_bind.
  rewrite (findFirst_unique pick _ _ created); try done.
  - cbn [version created]. apply not_eq_sym, Z.eqb_neq in Hver. rewrite Hver. reflexivity.
  - cbn [students]. rewrite List.map_app. cbn [List.map].
    apply List.NoDup_app; [done|constructor; [intros []|constructor]|].
    intros k (x & <- & Hx)%in_map_iff [Heq|[]]. by destruct (Hfree x Hx).
  - cbn [students]. apply in_app_iff. right. by left.
  - by apply save_where_key.
  - intros x _ Hw%save_where_key. by destruct Hw as [-> _].
Qed.

Lemma save_creates_with_version_one_witness :
  exists s' created,
    save head (sampleStudent "stu-2" "S-002" 5 None) 200
      (table [sampleRow "stu-1" "S-001" 1 None None]) = (Ok tt, s')
    /\ students s' = [sampleRow "stu-1" "S-001" 1 None None; created]
    /\ version created = 1.
Proof.
  destruct (save_creates_with_version_one head (sampleStudent "stu-2" "S-002" 5 None) 200
              (table [sampleRow "stu-1" "S-001" 1 None None]))
    as (s' & created & H1 & H2 & _ & H3 & _).
  - exact head_fairChoice.
  - reflexivity.
  - constructor; [intros []|constructor].
  - intros x [<-|[]]. split; [discriminate|]. split; [discriminate|]. intros e. discriminate.
  - exists s', created. split; [exact H1|]. split; [exact H2|exact H3].
Defined.

(** X17. A student whose id is taken by a row that [save] does not see,
    because the row is soft-deleted or belongs to another tenant, cannot be
    saved: [save] takes the student for a new one, the insert hits a unique
    constraint, and [save] rejects with a plain [Error] and writes nothing.
    In particular a soft-deleted student cannot be brought back through
    [save]. *)
Theorem save_cannot_reuse_a_hidden_id pick student now s hidden :
  fairChoice pick ->
  faults s = [] ->
  List.NoDup (List.map id (students s)) ->
  In hidden (students s) ->
  id hidden = Entity.id student ->
  (deletedAt hidden <> None \/ tenantId (columns hidden) <> Entity.tenantId student) ->
  exists message, save pick student now s = (Throw (Error message), s).
Proof.
  intros Hpick Hf Hnd Hin Hid Hhidden.
  unfold save, catch. unfold mbind at 1, Repo_bind.
  rewrite findFirst_none; try done; cycle 1.
  { intros x Hx. apply not_true_is_false. intros (Hk & Hten & Hlive)%save_where_key.
    assert (x = hidden) as ->.
    { pose proof (find_hasKey _ x Hnd Hx) as E1.
      pose proof (find_hasKey _ hidden Hnd Hin) as E2. rewrite Hk in E1. rewrite Hid in E2.
      congruence. }
    tauto. }
  unfold create, roundTrip. run_repo. rewrite Hf.
  destruct (violatedConstraint _ (students s)) as [target|] eqn:E.
  - unfold saveFailed, uniqueConstraintFailed.
    destruct (_ && includes "studentNumber" _); [by eexists|].
    destruct (_ && includes "email" _); by eexists.
  - unfold violatedConstraint in E.
    replace (existsb _ (students s)) with true in E; [done|].
    symmetry. apply existsb_exists. exists hidden. split; [done|].
    cbn [id]. by apply String.eqb_eq.
Qed.

Lemma save_cannot_reuse_a_hidden_id_witness :
  exists message,
    save head (sampleStudent "stu-1" "S-001" 1 None) 300
      (table [sampleRow "stu-1" "S-001" 1 None (Some 200)])
    = (Throw (Error message), table [sampleRow "stu-1" "S-001" 1 None (Some 200)]).
Proof.
  apply (save_cannot_reuse_a_hidden_id head (sampleStudent "stu-1" "S-001" 1 None) 300
           (table [sampleRow "stu-1" "S-001" 1 None (Some 200)])
           (sampleRow "stu-1" "S-001" 1 None (Some 200))).
  - exact head_fairChoice.
  - reflexivity.
  - constructor; [intros []|constructor].
  - left. reflexivity.
  - reflexivity.
  - left. discriminate.
Defined.

(** *** Uniqueness checks *)

Lemma count_ok where_ s :
  faults s = [] ->
  count where_ s = (Ok (Z.of_nat (length (List.filter where_ (students s)))), s).
Proof.
  intros Hf. unfold count, roundTrip. run_repo. by rewrite Hf.
Qed.

(** X18. The uniqueness check and the constraint disagree: when a student
    number is held only by rows that are soft-deleted or of another tenant,
    [isStudentNumberUnique] answers [true] for it, and yet [save] of a new
    student with that number (whose email is not in the table) rejects with
    [Student number ... already exists] and writes nothing: the unique
    constraint on the number covers every row of the table. *)
Theorem unique_number_check_misses_hidden_rows pick student now s hidden :
  fairChoice pick ->
  faults s = [] ->
  In hidden (students s) ->
  studentNumber (columns hidden) = Entity.studentNumber student ->
  (forall x, In x (students s) ->
             id x <> Entity.id student
             /\ forall e, email (columns x) = Some e -> Entity.email student <> Some e) ->
  (forall x, In x (students s) ->
             studentNumber (columns x) = Entity.studentNumber student ->
             tenantId (columns x) = Entity.tenantId student ->
             deletedAt x <> None) ->
  isStudentNumberUnique (Entity.studentNumber student) (Entity.tenantId student) s
  = (Ok true, s)
  /\ save pick student now s
     = (Throw (Error ("Student number " ++ Entity.studentNumber student ++ " already exists")),
        s).
Proof.
  intros Hpick Hf Hin Hnum Hnew Hhidden. split.
  - unfold isStudentNumberUnique, catch. unfold mbind, Repo_bind.
    rewrite count_ok by done. rewrite filter_none; [done|].
    intros x Hx. apply not_true_is_false.
    rewrite !andb_true_iff, !String.eqb_eq. intros [[Hn Ht] Hl].
    specialize (Hhidden x Hx Hn Ht). unfold live in Hl. by destruct (deletedAt x).
  - unfold save, catch. unfold mbind at 1, Repo_bind.
    rewrite findFirst_none; try done; cycle 1.
    { intros x Hx. apply not_true_is_false. intros (Hk & _)%save_where_key.
      by destruct (Hnew x Hx). }
    unfold create, roundTrip. run_repo. rewrite Hf.
    unfold violatedConstraint. cbn [id columns].
    replace (existsb _ (students s)) with false; cycle 1.
    { symmetry. apply not_true_is_false.
      intros (x & Hx & Heq%String.eqb_eq)%existsb_exists. by destruct (Hnew x Hx). }
    replace (existsb _ (students s)) with true; [reflexivity|].
    symmetry. apply existsb_exists. exists hidden. split; [done|].
    apply String.eqb_eq. done.
Qed.

Lemma unique_number_check_misses_hidden_rows_witness :
  isStudentNumberUnique "S-001" "tenant-1" (table [sampleRow "stu-1" "S-001" 1 None (Some 200)])
  = (Ok true, table [sampleRow "stu-1" "S-001" 1 None (Some 200)])
  /\ save head (sampleStudent "stu-2" "S-001" 1 None) 300
       (table [sampleRow "stu-1" "S-001" 1 None (Some 200)])
     = (Throw (Error "Student number S-001 already exists"),
        table [sampleRow "stu-1" "S-001" 1 None (Some 200)]).
Proof.
  apply (unique_number_check_misses_hidden_rows head (sampleStudent "stu-2" "S-001" 1 None) 300
           (table [sampleRow "stu-1" "S-001" 1 None (Some 200)])
           (sampleRow "stu-1" "S-001" 1 None (Some 200))).
  - exact head_fairChoice.
  - reflexivity.
  - left. reflexivity.
  - reflexivity.
  - intros x [<-|[]]. split; [discriminate|]. intros e. discriminate.
  - intros x [<-|[]] _ _. discriminate.
Defined.

(** *** Deleting *)

Lemma filter_nil_all {A} (f : A -> bool) (l : list A) :
  List.filter f l = [] -> forall x, In x l -> f x = false.
Proof.
  intros H x Hx. destruct (f x) eqn:E; [|done].
  assert (In x (List.filter f l)) as Hin by (by apply filter_In).
  rewrite H in Hin. destruct Hin.
Qed.

(** X19. [delete] is a soft delete of one row. When no live row of the
    tenant has the given string as id or as student number, it rejects with
    [EntityNotFoundError] and writes nothing. Otherwise it resolves after
    marking one such row: the row keeps its place and its columns, gets
    [deletedAt] set to the instant of the call and its version incremented;
    no row is removed and every other row is untouched. When that row was
    the only match, a second [delete] with the same arguments rejects with
    [EntityNotFoundError]. *)
Theorem delete_marks_one_row pick id_ tenantId_ now s :
  fairChoice pick ->
  faults s = [] ->
  wfTable (students s) ->
  ((forall x, In x (students s) -> deleteWhere id_ tenantId_ x = false)
   /\ delete pick id_ tenantId_ now s
      = (Throw (EntityNotFoundError "Student" id_ tenantId_), s))
  \/ exists target s',
       In target (students s)
       /\ deleteWhere id_ tenantId_ target = true
       /\ delete pick id_ tenantId_ now s = (Ok tt, s')
       /\ students s'
          = List.map (fun x => if hasKey (id target) x then softDeleted now target else x)
                     (students s)
       /\ In (softDeleted now target) (students s')
       /\ (forall x, In x (students s) -> id x <> id target -> In x (students s'))
       /\ ((forall x, In x (students s) -> deleteWhere id_ tenantId_ x = true -> x = target) ->
           forall later,
             delete pick id_ tenantId_ later s'
             = (Throw (EntityNotFoundError "Student" id_ tenantId_), s')).
Proof.
  intros Hpick Hf [Hnd Hwf].
  pose proof (Hpick (List.filter (deleteWhere id_ tenantId_) (students s))) as Hchoice.
  destruct (pick (List.filter (deleteWhere id_ tenantId_) (students s))) as [target|] eqn:E.
  - right. apply filter_In in Hchoice as [Hin Hmatch].
    set (write := fun r => {| id := id r; version := version target + 1;
                              createdAt := createdAt r; updatedAt := now;
                              deletedAt := Some now; deletedBy := deletedBy r;
                              columns := columns r |}).
    set (s' := {| students := List.map (fun x => if hasKey (id target) x then write x else x)
                                (students s);
                  faults := [] |}).
    assert (forall x, In x (students s) -> hasKey (id target) x = true -> x = target) as Hsame.
    { intros x Hx Hk%hasKey_true.
      pose proof (find_hasKey _ x Hnd Hx) as E1.
      pose proof (find_hasKey _ target Hnd Hin) as E2. rewrite Hk in E1. congruence. }
    exists target, s'. split; [done|]. split; [done|]. split.
    { unfold delete, catch. unfold mbind at 1, Repo_bind.
      unfold findFirst, roundTrip. run_repo. rewrite Hf, E.
      fold write. rewrite (student_update_ok _ _ s target); try done.
      specialize (Hwf target Hin). unfold violatedConstraint in *.
      cbn [write id columns]. exact Hwf. }
    split.
    { cbn [students s']. apply List.map_ext_in. intros x Hx.
      destruct (hasKey (id target) x) eqn:Ek; [|done]. by rewrite (Hsame x Hx Ek). }
    split; [by apply (replace_row_In _ write)|].
    split; [intros x Hx Hk; by apply (replace_row_other _ write)|].
    intros Honly later. unfold delete, catch. unfold mbind at 1, Repo_bind.
    rewrite findFirst_none; try done.
    intros x [(y & Hy & Hk & ->)|[Hx Hk]]%replace_row_inv.
    + unfold deleteWhere, live. cbn [write deletedAt]. apply andb_false_r.
    + apply not_true_is_false. intros Hm. destruct Hk. by rewrite (Honly x Hx Hm).
  - left. split; [by apply filter_nil_all|].
    unfold delete, catch. unfold mbind at 1, Repo_bind.
    unfold findFirst, roundTrip. run_repo. by rewrite Hf, E.
Qed.

Lemma delete_marks_one_row_witness :
  exists s',
    delete head "stu-1" "tenant-1" 300 (table [sampleRow "stu-1" "S-001" 1 None None])
    = (Ok tt, s')
    /\ students s' = [softDeleted 300 (sampleRow "stu-1" "S-001" 1 None None)]
    /\ delete head "stu-1" "tenant-1" 400 s'
       = (Throw (EntityNotFoundError "Student" "stu-1" "tenant-1"), s').
Proof.
  destruct (delete_marks_one_row head "stu-1" "tenant-1" 300
              (table [sampleRow "stu-1" "S-001" 1 None None]))
    as [[Hnone _]|(target & s' & Hin & _ & H1 & H2 & _ & _ & H3)].
  - exact head_fairChoice.
  - reflexivity.
  - split; [constructor; [intros []|constructor]|]. intros r [<-|[]]. reflexivity.
  - specialize (Hnone _ (or_introl eq_refl)). discriminate Hnone.
  - destruct Hin as [<-|[]]. exists s'. split; [exact H1|]. split; [exact H2|].
    apply H3. intros x [<-|[]] _. reflexivity.
Defined.

(** X25. Nothing but the check guards the national id: when a live student
    of the tenant already holds a national id, [isNationalIdUnique] answers
    [false] for it, and yet [save] of a new student with the same national
    id (whose id, number and email are new to the table) resolves and
    stores the row. From then on the check answers [false] even when one of
    the two students is excluded from it. *)
Theorem save_does_not_guard_the_national_id pick student now s holder nationalId_ :
  fairChoice pick ->
  faults s = [] ->
  In holder (students s) ->
  nationalId (columns holder) = Some nationalId_ ->
  tenantId (columns holder) = Entity.tenantId student ->
  deletedAt holder = None ->
  Entity.nationalId student = Some nationalId_ ->
  (forall x, In x (students s) ->
             id x <> Entity.id student
             /\ studentNumber (columns x) <> Entity.studentNumber student
             /\ forall e, email (columns x) = Some e -> Entity.email student <> Some e) ->
  isNationalIdUnique nationalId_ (Entity.tenantId student) None s = (Ok false, s)
  /\ exists s' created,
       save pick student now s = (Ok tt, s')
       /\ students s' = students s ++ [created]
       /\ id created = Entity.id student
       /\ nationalId (columns created) = Some nationalId_
       /\ isNationalIdUnique nationalId_ (Entity.tenantId student) (Some (Entity.id student)) s'
          = (Ok false, s')
       /\ isNationalIdUnique nationalId_ (Entity.tenantId student) (Some (id holder)) s'
          = (Ok false, s').
Proof.
  intros Hpick Hf Hin Hnat Hten Hlive Hsnat Hfree.
  assert (forall (l : list PrismaStudent) w x,
            In x l -> w x = true -> (Z.of_nat (length (List.filter w l)) =? 0) = false)
    as Hcount.
  { intros l w x Hx Hw. apply Z.eqb_neq.
    assert ((0 <? Z.of_nat (length (List.filter w l))) = true) as Hpos
      by (apply filter_length_pos; eauto).
    lia. }
  assert (forall r, nationalId (columns r) = Some nationalId_ ->
                    tenantId (columns r) = Entity.tenantId student ->
                    deletedAt r = None ->
                    forall exclude, excluding exclude r = true ->
                    match nationalId (columns r) with
                    | Some n => String.eqb n nationalId_
                    | None => false
                    end
                    && String.eqb (tenantId (columns r)) (Entity.tenantId student)
                    && live r && excluding exclude r = true) as Hmatch.
  { intros r -> -> Hl exclude ->. unfold live. rewrite Hl, !String.eqb_refl. done. }
  set (created := {| id := Entity.id student; version := 1; createdAt := now;
                     updatedAt := now; deletedAt := None; deletedBy := None;
                     columns := toPrismaModel student |}).
  split.
  { unfold isNationalIdUnique, catch. unfold mbind, Repo_bind. rewrite count_ok by done.
    unfold mret, Repo_ret. rewrite (Hcount _ _ holder); try done.
    by apply Hmatch. }
  exists {| students := students s ++ [created]; faults := [] |}, created.
  split.
  { unfold save, catch. unfold mbind at 1, Repo_bind.
    rewrite findFirst_none; try done.
    - by rewrite create_ok.
    - intros x Hx. destruct (Hfree x Hx) as [Hid _].
      apply not_true_is_false. intros Hw%save_where_key. by destruct Hw. }
  do 3 (split; [done|]). split.
  - unfold isNationalIdUnique, catch. unfold mbind, Repo_bind. rewrite count_ok by done.
    unfold mret, Repo_ret. cbn [students]. rewrite (Hcount _ _ holder); try done.
    + apply in_app_iff. by left.
    + apply Hmatch; try done. unfold excluding.
      destruct (String.eqb (Entity.id student) ""); [done|].
      apply negb_true_iff, String.eqb_neq. by destruct (Hfree holder Hin).
  - unfold isNationalIdUnique, catch. unfold mbind, Repo_bind. rewrite count_ok by done.
    unfold mret, Repo_ret. cbn [students]. rewrite (Hcount _ _ created); try done.
    + apply in_app_iff. right. by left.
    + apply Hmatch; try done. unfold excluding.
      destruct (String.eqb (id holder) ""); [done|].
      apply negb_true_iff, String.eqb_neq. cbn [id created].
      apply not_eq_sym. by destruct (Hfree holder Hin).
Qed.

Lemma save_does_not_guard_the_national_id_witness :
  isNationalIdUnique "123456789" "tenant-1" None
    (table [rowOf (withNationalId "123456789" (sampleStudent "stu-1" "S-001" 1 None))])
  = (Ok false,
     table [rowOf (withNationalId "123456789" (sampleStudent "stu-1" "S-001" 1 None))])
  /\ exists s',
       save head (withNationalId "123456789" (sampleStudent "stu-2" "S-002" 1 None)) 300
         (table [rowOf (withNationalId "123456789" (sampleStudent "stu-1" "S-001" 1 None))])
       = (Ok tt, s')
       /\ length (students s') = 2%nat.
Proof.
  destruct (save_does_not_guard_the_national_id head
              (withNationalId "123456789" (sampleStudent "stu-2" "S-002" 1 None)) 300
              (table [rowOf (withNationalId "123456789"
                               (sampleStudent "stu-1" "S-001" 1 None))])
              (rowOf (withNationalId "123456789" (sampleStudent "stu-1" "S-001" 1 None)))
              "123456789")
    as (H1 & s' & created & H2 & H3 & _).
  - exact head_fairChoice.
  - reflexivity.
  - left. reflexivity.
  - reflexivity.
  - reflexivity.
  - reflexivity.
  - reflexivity.
  - intros x [<-|[]]. split; [discriminate|]. split; [discriminate|]. intros e. discriminate.
  - split; [exact H1|]. exists s'. split; [exact H2|]. rewrite H3. reflexivity.
Defined.

(** *** Rejections *)

(** Case analysis on the innermost scrutinee first. *)
Ltac repo_cases :=
  repeat (cbn [students faults fst snd] in *;
          match goal with
          | |- context [match ?x with _ => _ end] =>
              lazymatch x with
              | context [match _ with _ => _ end] => fail
              | _ => destruct x eqn:?
              end
          end).

(** X20. What [save] and [delete] never do. A rejected [save] has written
    nothing and rejects with a [ConcurrencyError] or with a plain [Error];
    a rejected [delete] has written nothing and rejects with an
    [EntityNotFoundError] or with a plain [Error]: an error of the Prisma
    client never reaches the caller as such. Neither call ever removes a
    row. *)
Theorem save_and_delete_reject_cleanly pick student id_ tenantId_ now s :
  (forall e s', save pick student now s = (Throw e, s') ->
                students s' = students s
                /\ ((exists message, e = Error message)
                    \/ exists entityType key expected actual,
                         e = ConcurrencyError entityType key expected actual))
  /\ (forall e s', delete pick id_ tenantId_ now s = (Throw e, s') ->
                   students s' = students s
                   /\ ((exists message, e = Error message)
                       \/ exists entityType key tenant,
                            e = EntityNotFoundError entityType key tenant))
  /\ (forall s', save pick student now s = (Ok tt, s') ->
                 (length (students s) <= length (students s'))%nat)
  /\ (forall s', delete pick id_ tenantId_ now s = (Ok tt, s') ->
                 length (students s') = length (students s)).
Proof.
  split; [|split; [|split]].
  - intros e s'. unfold save, findFirst, update, create, roundTrip, saveFailed. run_repo.
    repo_cases; intros [= <- <-]; cbn [students]; eauto 10.
  - intros e s'. unfold delete, findFirst, update, roundTrip. run_repo.
    repo_cases; intros [= <- <-]; cbn [students]; eauto 10.
  - intros s'. unfold save, findFirst, update, create, roundTrip, saveFailed. run_repo.
    repo_cases; intros [= <-]; cbn [students];
      rewrite ?List.length_map, ?List.length_app; cbn [length]; lia.
  - intros s'. unfold delete, findFirst, update, roundTrip. run_repo.
    repo_cases; intros [= <-]; cbn [students]; by rewrite ?List.length_map.
Qed.

(** *** Mapping *)

(** X21. The status and gender mappings are inverse to each other, in both
    directions: no status and no gender is lost or changed by writing it to
    the database and reading it back, and the status and the gender
    [toPrismaModel] stores for a student read back as the student's own. *)
Theorem status_and_gender_round_trip :
  (forall s, mapStatusFromPrisma (mapStatusToPrisma s) = s)
  /\ (forall p, mapStatusToPrisma (mapStatusFromPrisma p) = p)
  /\ (forall g, mapGenderFromPrisma (mapGenderToPrisma g) = g)
  /\ (forall p, mapGenderToPrisma (mapGenderFromPrisma p) = p)
  /\ forall student,
       mapStatusFromPrisma (status (toPrismaModel student)) = Entity.status student
       /\ mapGenderFromPrisma (gender (toPrismaModel student)) = Entity.gender student.
Proof.
  split; [by intros []|]. split; [by intros []|]. split; [by intros []|].
  split; [by intros []|]. intros student. cbn.
  by destruct (Entity.status student), (Entity.gender student).
Qed.

(* ===================================================================== *)
(** ** Properties of the student specifications *)
(* ===================================================================== *)

Import StudentSpecifications.

(** X22. [calculateAge] counts the anniversaries reached: for every [n],
    the [n]-th anniversary of the birth date falls on or before today (by
    year, then month, then day of the local calendar) exactly when [n] is at
    most the age. So the age is the number of complete years: the birthday
    itself already counts, the day before does not. *)
Theorem calculateAge_counts_anniversaries getFullYear getMonth getDate today birthDate n :
  anniversaryReached getFullYear getMonth getDate n birthDate today
  <-> n <= calculateAge getFullYear getMonth getDate today birthDate.
Proof.
  unfold anniversaryReached, calculateAge.
  destruct (getMonth today - getMonth birthDate <? 0) eqn:E1;
    destruct (getMonth today - getMonth birthDate =? 0) eqn:E2;
    destruct (getDate today <? getDate birthDate) eqn:E3;
    cbn [orb andb]; lia.
Qed.

(** X23. Minors and adults partition the students: at any instant a
    student satisfies exactly one of [MinorStudentSpecification] and
    [AdultStudentSpecification], so their conjunction is never satisfied,
    their disjunction always, and the negation of one is the other;
    [StudentRequiresParentalConsentSpecification] agrees with the minor
    specification. An age range whose minimum exceeds its maximum is
    satisfied by no student; a range below 18 selects minors only and a
    range from 18 adults only. *)
Theorem minors_and_adults_partition getFullYear getMonth getDate now student :
  let sat := fun spec : Specification Entity.Student => isSatisfiedBy spec now student in
  let minor := MinorStudentSpecification getFullYear getMonth getDate in
  let adult := AdultStudentSpecification getFullYear getMonth getDate in
  sat minor = negb (sat adult)
  /\ sat (AndSpecification minor adult) = false
  /\ sat (OrSpecification minor adult) = true
  /\ sat (NotSpecification minor) = sat adult
  /\ sat (NotSpecification adult) = sat minor
  /\ sat (StudentRequiresParentalConsentSpecification getFullYear getMonth getDate)
     = sat minor
  /\ forall minAge maxAge,
       sat (StudentAgeRangeSpecification getFullYear getMonth getDate minAge maxAge) = true ->
       minAge <= maxAge
       /\ (maxAge < 18 -> sat minor = true)
       /\ (18 <= minAge -> sat adult = true).
Proof.
  cbn zeta.
  unfold isSatisfiedBy, AndSpecification, OrSpecification, NotSpecification,
    MinorStudentSpecification, AdultStudentSpecification,
    StudentRequiresParentalConsentSpecification, StudentAgeRangeSpecification, isSatisfiedBy.
  set (a := age getFullYear getMonth getDate now student).
  destruct (a <? 18) eqn:E1, (18 <=? a) eqn:E2; try lia; cbn [negb andb orb].
  all: do 6 (split; [done|]).
  all: intros minAge maxAge [H1 H2]%andb_true_iff; lia.
Qed.

Lemma quotient_reaches (t c k : Z) :
  0 < c -> (Qle_bool (inject_Z k) (inject_Z t / inject_Z c) = true <-> k * c <= t).
Proof.
  intros Hc. destruct c as [|c|c]; try lia.
  rewrite Qle_bool_iff. unfold Qle, Qdiv, Qmult, Qinv, inject_Z. cbn [Qnum Qden].
  rewrite ?Pos.mul_1_l, ?Z.mul_1_r. lia.
Qed.

(** X24. Eligibility for graduation implies the weaker specifications: a
    student that [StudentEligibleForGraduationSpecification] accepts is
    active (so not graduated), is at least 16, was enrolled at least 365
    days of 24 hours before the instant of the check, and is a long-term
    student of one year; with valid contact information the student is also
    accepted by [EligibleForAdvancementSpecification]. *)
Theorem graduation_eligibility_implies getFullYear getMonth getDate trim now student :
  isSatisfiedBy (StudentEligibleForGraduationSpecification getFullYear getMonth getDate)
    now student = true ->
  isSatisfiedBy ActiveStudentSpecification now student = true
  /\ isSatisfiedBy GraduatedStudentSpecification now student = false
  /\ 16 <= age getFullYear getMonth getDate now student
  /\ 365 * 86400000 <= now - Entity.enrollmentDate student
  /\ isSatisfiedBy (LongTermStudentSpecification (inject_Z 1)) now student = true
  /\ (isSatisfiedBy (StudentWithValidContactInfoSpecification trim) now student = true ->
      isSatisfiedBy (EligibleForAdvancementSpecification trim) now student = true).
Proof.
  unfold isSatisfiedBy, StudentEligibleForGraduationSpecification,
    EligibleForAdvancementSpecification, AndSpecification, isSatisfiedBy,
    ActiveStudentSpecification, GraduatedStudentSpecification, LongTermStudentSpecification,
    isActive.
  destruct (hasStatus active student) eqn:Ha; cbn [negb]; [|done].
  destruct (Qle_bool (inject_Z 365) _) eqn:Ed; cbn [negb]; [|done].
  destruct (age getFullYear getMonth getDate now student <? 16) eqn:Eage; [done|].
  intros _.
  apply (quotient_reaches _ (1000 * 60 * 60 * 24) 365) in Ed; [|lia].
  assert (Qle_bool (inject_Z 1)
            (inject_Z (now - Entity.enrollmentDate student)
             / inject_Z (1000 * 60 * 60 * 24 * 365)) = true) as Hlong.
  { apply quotient_reaches; lia. }
  split; [done|]. split.
  { unfold hasStatus in *. by destruct (Entity.status student). }
  split; [lia|]. split; [lia|]. split; [exact Hlong|].
  intros ->. rewrite Hlong. done.
Qed.

Lemma graduation_eligibility_implies_witness :
  isSatisfiedBy (LongTermStudentSpecification (inject_Z 1)) 1800000000000
    (sampleStudent "stu-1" "S-001" 1 None) = true
  /\ 16 <= age (fun t => 1970 + t / 31557600000) (fun _ => 0) (fun _ => 1) 1800000000000
             (sampleStudent "stu-1" "S-001" 1 None).
Proof.
  destruct (graduation_eligibility_implies (fun t => 1970 + t / 31557600000) (fun _ => 0)
              (fun _ => 1) (fun x => x) 1800000000000 (sampleStudent "stu-1" "S-001" 1 None))
    as (_ & _ & H1 & _ & H2 & _).
  - reflexivity.
  - split; [exact H2 | exact H1].
Defined.

Lemma nonempty_length {A} (l : list A) : (0 <? length l)%nat = true <-> l <> [].
Proof. destruct l; cbn; split; done. Qed.

Lemma quotient_exceeds (t c k : Z) :
  0 < c -> (negb (Qle_bool (inject_Z t / inject_Z c) (inject_Z k)) = true <-> k * c < t).
Proof.
  intros Hc. destruct c as [|c|c]; try lia.
  rewrite negb_true_iff, <- not_true_iff_false, Qle_bool_iff.
  unfold Qle, Qdiv, Qmult, Qinv, inject_Z. cbn [Qnum Qden].
  rewrite ?Pos.mul_1_l, ?Z.mul_1_r. lia.
Qed.

(** X26. [RequiresSpecialAttentionSpecification] accepts exactly the
    students with an allergy, with a medical condition, or who are minors
    whose record was last updated more than 180 days of 24 hours before
    the instant of the check. Outdated documentation alone never flags an
    adult, and an allergy or a medical condition flags a student of any
    age. *)
Theorem special_attention_characterised getFullYear getMonth getDate now student :
  let flagged :=
    isSatisfiedBy (RequiresSpecialAttentionSpecification getFullYear getMonth getDate)
      now student in
  (flagged = true <->
   Entity.allergies student <> [] \/ Entity.medicalConditions student <> []
   \/ (age getFullYear getMonth getDate now student < 18
       /\ 180 * 86400000 < now - Entity.updatedAt student))
  /\ (isSatisfiedBy (AdultStudentSpecification getFullYear getMonth getDate) now student = true ->
      Entity.allergies student = [] -> Entity.medicalConditions student = [] ->
      flagged = false).
Proof.
  cbn zeta.
  unfold isSatisfiedBy, RequiresSpecialAttentionSpecification, OrSpecification,
    AndSpecification, isSatisfiedBy, StudentWithAllergiesSpecification,
    StudentWithMedicalConditionsSpecification, MinorStudentSpecification,
    AdultStudentSpecification, StudentNeedsDocumentationUpdateSpecification.
  pose proof (quotient_exceeds (now - Entity.updatedAt student) (1000 * 60 * 60 * 24) 180)
    as Hdays.
  split.
  - rewrite !orb_true_iff, andb_true_iff, !nonempty_length, Z.ltb_lt, Hdays by lia. tauto.
  - intros Hadult%Z.leb_le -> ->. cbn [length Nat.ltb Nat.leb orb].
    replace (age getFullYear getMonth getDate now student <? 18) with false
      by (symmetry; apply Z.ltb_ge; lia).
    done.
Qed.

(** X27. [EligibleForAdvancementSpecification] accepts exactly the active
    students with valid contact information whose enrollment lies at least
    365 days of 24 hours before the instant of the check. Valid contact
    information needs an emergency contact and a guardian marked as primary
    contact, so a student without either is never eligible, and neither is
    a graduated student. *)
Theorem advancement_eligibility_characterised trim now student :
  (isSatisfiedBy (EligibleForAdvancementSpecification trim) now student = true <->
   isSatisfiedBy ActiveStudentSpecification now student = true
   /\ isSatisfiedBy (StudentWithValidContactInfoSpecification trim) now student = true
   /\ 365 * 86400000 <= now - Entity.enrollmentDate student)
  /\ (isSatisfiedBy (StudentWithValidContactInfoSpecification trim) now student = true ->
      isSatisfiedBy StudentWithEmergencyContactSpecification now student = true
      /\ exists guardian,
           In guardian (Entity.guardians student) /\ isPrimaryContact guardian = true
           /\ primaryGuardian student = Some guardian
           /\ trim (g_email guardian) <> "" /\ trim (g_phoneNumber guardian) <> "")
  /\ (isSatisfiedBy GraduatedStudentSpecification now student = true ->
      isSatisfiedBy (EligibleForAdvancementSpecification trim) now student = false).
Proof.
  unfold isSatisfiedBy, EligibleForAdvancementSpecification, AndSpecification, isSatisfiedBy,
    ActiveStudentSpecification, GraduatedStudentSpecification, LongTermStudentSpecification,
    StudentWithEmergencyContactSpecification.
  pose proof (quotient_reaches (now - Entity.enrollmentDate student)
                (1000 * 60 * 60 * 24 * 365) 1) as Hlong.
  split; [|split].
  - rewrite !andb_true_iff, Hlong by lia. intuition lia.
  - unfold StudentWithValidContactInfoSpecification.
    destruct (length (emergencyContacts student)) as [|n] eqn:El; cbn [Nat.eqb]; [done|].
    destruct (primaryGuardian student) as [guardian|] eqn:Ep; [|done].
    intros [Hmail Hphone]%andb_true_iff. split; [done|]. exists guardian.
    unfold primaryGuardian in Ep. pose proof (List.find_some _ _ Ep) as [Hin Hprim].
    apply negb_true_iff, String.eqb_neq in Hmail, Hphone. done.
  - unfold hasStatus. destruct (Entity.status student); try done.
Qed.
